(** * grf2txt: a shallow embedding of the NewGRF reader and string decoder

    The development follows the three source modules:
    - [BinaryReader] (binreader.py): the sequential byte cursor,
    - [GrfStrings]   (grfstrings.py): control codes, the text reference stack,
      [decodestr] and [process_string],
    - [NewGRF]       (newgrf.py): the container parser [read], the action
      dispatcher [read_pseudo] and the Action 14 tree [read_a14].

    Python integers are [Z]; [bytes] and [bytearray] are [list byte]; a Python
    [str] is a list of code points ([list Z]) where it carries decoded text and
    a [string] where it is an ASCII identifier.  Exceptions are the [Raise]
    results of the monad [res]; loops that Python writes with [while] take a
    fuel argument, and running out of it is the separate result [OutOfFuel],
    which the totality lemmas below show is never produced. *)

From Stdlib Require Import ZArith List String Ascii Strings.Byte Lia Bool.
From stdpp Require Import base numbers option list strings gmap pretty.

Open Scope Z_scope.

(** ** Python values shared by the three modules *)

Definition bytes := list byte.

Definition b2z (b : byte) : Z := Z.of_N (Byte.to_N b).
Definition z2b (z : Z) : byte := default x00 (Byte.of_N (Z.to_N z)).

#[global] Instance byte_eq_dec : EqDecision byte.
Proof.
  intros a b. destruct (N.eq_dec (Byte.to_N a) (Byte.to_N b)) as [H|H].
  - left. apply (f_equal Byte.of_N) in H. rewrite !Byte.of_to_N in H. congruence.
  - right. congruence.
Defined.

(** [b"..."] literals of the source. *)
Definition lit (s : string) : bytes := list_byte_of_string s.

(** The exceptions the modelled code can raise. *)
Inductive exn :=
| RuntimeError (msg : string)
| AssertionError
| IndexError
| ValueError
| UnicodeDecodeError.

Inductive res (A : Type) :=
| Ok (a : A)
| Raise (e : exn)
| OutOfFuel.
Arguments Ok {A} a.
Arguments Raise {A} e.
Arguments OutOfFuel {A}.

#[global] Instance res_ret : MRet res := λ A a, Ok a.
#[global] Instance res_bind : MBind res := λ A B f m,
  match m with
  | Ok a => f a
  | Raise e => Raise e
  | OutOfFuel => OutOfFuel
  end.

Definition is_ok {A} (m : res A) : bool :=
  match m with Ok _ => true | _ => false end.

(** [hashlib.md5()]: the object is determined by the data fed to it so far;
    its digest is kept symbolic. *)
Definition md5_obj := bytes.
Inductive digest := MD5 (data : bytes).
Definition md5_new : md5_obj := [].
Definition md5_update (b : bytes) (h : md5_obj) : md5_obj := h ++ b.
Definition md5_digest (h : md5_obj) : digest := MD5 h.

(** ** binreader.py *)
Module BinaryReader.

Record t := mk { file : bytes; hash : option md5_obj }.

Definition attach_hash (r : t) (h : option md5_obj) : t := mk (file r) h.
Definition detach_hash (r : t) : t := mk (file r) None.

(** [file.read(amount)] of a binary stream: at most [amount] bytes, all the
    rest for a negative amount. *)
Definition file_read (f : bytes) (amount : Z) : bytes * bytes :=
  if amount <? 0 then (f, [])
  else (take (Z.to_nat amount) f, drop (Z.to_nat amount) f).

Definition read (r : t) (amount : Z) : bytes * t :=
  let '(b, f) := file_read (file r) amount in
  (b, mk f (md5_update b <$> hash r)).

Fixpoint str_loop (fuel : nat) (r : t) (result : bytes) : res (bytes * t) :=
  match fuel with
  | O => OutOfFuel
  | S fuel =>
    let '(b, r) := read r 1 in
    if decide (b = [x00] ∨ b = []) then Ok (result, r)
    else str_loop fuel r (result ++ b)
  end.

Definition str (r : t) : res (bytes * t) :=
  str_loop (S (length (file r))) r [].

Definition skip (r : t) (amount : Z) : t := snd (read r amount).

Definition eof {A} : res A := Raise (RuntimeError "Unexpected end-of-file.").

(** [struct.unpack] of an unsigned field. *)
Definition unpack_le (b : bytes) : Z := foldr (λ x acc, b2z x + 256 * acc) 0 b.
Definition unpack_be (b : bytes) : Z := foldl (λ acc x, 256 * acc + b2z x) 0 b.

Definition uint8 (r : t) : res (Z * t) :=
  let '(b, r) := read r 1 in
  if decide (length b ≠ 1%nat) then eof else Ok (unpack_le b, r).

Definition uint16 (be : bool) (r : t) : res (Z * t) :=
  let '(b, r) := read r 2 in
  if decide (length b ≠ 2%nat) then eof
  else Ok (if be then unpack_be b else unpack_le b, r).

Definition uint24 (be : bool) (r : t) : res (Z * t) :=
  let '(b, r) := read r 3 in
  match b with
  | [b0; b1; b2] =>
    Ok (if be
        then Z.lor (Z.lor (Z.shiftl (b2z b0) 16) (Z.shiftl (b2z b1) 8)) (b2z b2)
        else Z.lor (Z.lor (Z.shiftl (b2z b2) 16) (Z.shiftl (b2z b1) 8)) (b2z b0), r)
  | _ => eof
  end.

Definition uint32 (be : bool) (r : t) : res (Z * t) :=
  let '(b, r) := read r 4 in
  if decide (length b ≠ 4%nat) then eof
  else Ok (if be then unpack_be b else unpack_le b, r).

Definition uint_ext (r : t) : res (Z * t) :=
  '(b, r) ← uint8 r;
  if b =? 0xFF then uint16 false r else Ok (b, r).

Definition gamma (r : t) : res ((Z * Z) * t) :=
  '(b, r) ← uint8 r;
  if Z.land b 0x80 =? 0 then Ok ((Z.land b 0x7F, 1), r)
  else if Z.land b 0xC0 =? 0x80 then
    '(x, r) ← uint8 r; Ok ((Z.lor (Z.shiftl (Z.land b 0x3F) 8) x, 2), r)
  else if Z.land b 0xE0 =? 0xC0 then
    '(x, r) ← uint16 true r; Ok ((Z.lor (Z.shiftl (Z.land b 0x1F) 16) x, 3), r)
  else if Z.land b 0xF0 =? 0xE0 then
    '(x, r) ← uint24 true r; Ok ((Z.lor (Z.shiftl (Z.land b 0x0F) 24) x, 4), r)
  else if Z.land b 0xF8 =? 0xF0 then
    '(x, r) ← uint32 true r; Ok ((Z.lor (Z.shiftl (Z.land b 0x07) 32) x, 5), r)
  else Raise (RuntimeError "Invalid gamma encoding.").

Definition gamma_str (r : t) : res (bytes * t) :=
  '(vn, r) ← gamma r;
  Ok (read r (fst vn)).

(** [BinaryReader(BytesIO(data))] *)
Definition of_bytes (data : bytes) : t := mk data None.

(** [struct.unpack] of a signed field: the unsigned value [u] of the bytes
    [b], read as two's complement on their width. *)
Definition signed (b : bytes) (u : Z) : Z :=
  let bits := 8 * Z.of_nat (length b) in
  if u <? 2 ^ (bits - 1) then u else u - 2 ^ bits.

Definition int8 (r : t) : res (Z * t) :=
  let '(b, r) := read r 1 in
  if decide (length b ≠ 1%nat) then eof else Ok (signed b (unpack_le b), r).

Definition int16 (be : bool) (r : t) : res (Z * t) :=
  let '(b, r) := read r 2 in
  if decide (length b ≠ 2%nat) then eof
  else Ok (signed b (if be then unpack_be b else unpack_le b), r).

Definition int32 (be : bool) (r : t) : res (Z * t) :=
  let '(b, r) := read r 4 in
  if decide (length b ≠ 4%nat) then eof
  else Ok (signed b (if be then unpack_be b else unpack_le b), r).

Definition int64 (be : bool) (r : t) : res (Z * t) :=
  let '(b, r) := read r 8 in
  if decide (length b ≠ 8%nat) then eof
  else Ok (signed b (if be then unpack_be b else unpack_le b), r).

Definition uint64 (be : bool) (r : t) : res (Z * t) :=
  let '(b, r) := read r 8 in
  if decide (length b ≠ 8%nat) then eof
  else Ok (if be then unpack_be b else unpack_le b, r).

End BinaryReader.

(** ** Python sequences and dictionaries *)

(** Slice bounds as Python clamps them (negative bounds count from the end). *)
Definition slice_bound (len i : Z) : Z :=
  if i <? 0 then Z.max 0 (len + i) else Z.min i len.

Section slices.
Context {A : Type}.
Implicit Types l new : list A.

Definition len l : Z := Z.of_nat (length l).

(** [l[lo:hi]] *)
Definition slice l (lo hi : Z) : list A :=
  let a := slice_bound (len l) lo in
  let b := slice_bound (len l) hi in
  take (Z.to_nat (b - a)) (drop (Z.to_nat a) l).

(** [l[lo:hi] = new] *)
Definition set_slice l (lo hi : Z) new : list A :=
  let a := slice_bound (len l) lo in
  let b := slice_bound (len l) hi in
  take (Z.to_nat a) l ++ new ++ drop (Z.to_nat (Z.max a b)) l.

(** [del l[lo:hi]] *)
Definition del_slice l (lo hi : Z) : list A := set_slice l lo hi [].

(** [l[i]], raising [IndexError] out of range. *)
Definition index l (i : Z) : res A :=
  let j := if i <? 0 then len l + i else i in
  if (j <? 0) || (len l <=? j) then Raise IndexError
  else match l !! Z.to_nat j with
       | Some x => Ok x
       | None => Raise IndexError
       end.
End slices.

(** A [dict] whose iteration order matters: the items in insertion order.
    Assigning to a present key keeps its place; a new key goes last. *)
Section pydict.
Context {K V : Type} `{EqDecision K}.

Definition pydict := list (K * V).

Fixpoint dict_get (k : K) (d : pydict) : option V :=
  match d with
  | [] => None
  | (k', v) :: d => if decide (k' = k) then Some v else dict_get k d
  end.

Fixpoint dict_set (k : K) (v : V) (d : pydict) : pydict :=
  match d with
  | [] => [(k, v)]
  | (k', v') :: d =>
    if decide (k' = k) then (k, v) :: d else (k', v') :: dict_set k v d
  end.

Definition dict_keys (d : pydict) : list K := d.*1.

(** [del d[k]] for a key that is present, and [k in d]. *)
Fixpoint dict_del (k : K) (d : pydict) : pydict :=
  match d with
  | [] => []
  | (k', v) :: d => if decide (k' = k) then d else (k', v) :: dict_del k d
  end.

Definition dict_mem (k : K) (d : pydict) : bool :=
  match dict_get k d with
  | Some _ => true
  | None => false
  end.
End pydict.
Arguments pydict : clear implicits.

(** Text: a Python [str] as its code points. *)
Definition pystr := list Z.
Definition u (s : string) : pystr :=
  (λ a, Z.of_N (N_of_ascii a)) <$> list_ascii_of_string s.

(** ** grfstrings.py *)
Module GrfStrings.

Record CommandName := mkCommandName {
  cn_base_name : pystr;
  cn_translation_name : pystr }.

(** [CommandName.__post_init__], inherited by the two subclasses. *)
Definition post_init (base_name translation_name : pystr) : pystr :=
  if decide (translation_name = []) then base_name else translation_name.

Definition new_CommandName (base_name translation_name : pystr) : CommandName :=
  mkCommandName base_name (post_init base_name translation_name).

Record StackParam := mkStackParam { offset : Z; size : Z }.

Record TextCommand := mkTextCommand {
  tc_base_name : pystr;
  tc_translation_name : pystr;
  tc_inline_param_size : Z;
  stack_param : list StackParam }.

Definition new_TextCommand (base_name translation_name : pystr) (inline : Z) : TextCommand :=
  mkTextCommand base_name (post_init base_name translation_name) inline [].

Record TextRefStack := mkTextRefStack {
  stack_index : list Z;
  commands : list TextCommand }.

(** [TextRefStack.__init__]: [list(range(64))] *)
Definition new_TextRefStack : TextRefStack := mkTextRefStack (seqZ 0 64) [].

(** The three methods a control code can name as its handler. *)
Inductive handler := H_standard_command | H_push_word | H_rotate_words.

Record ControlCode := mkControlCode {
  base_name : pystr;
  translation_name : pystr;
  inline_param_size : Z;
  stack_param_size : list Z;
  command_handler : handler }.

Definition new_ControlCode (base_name translation_name : pystr) (inline : Z)
    (stack : list Z) (h : handler) : ControlCode :=
  mkControlCode base_name (post_init base_name translation_name) inline stack h.

(** The [for size in cc.stack_param_size] loop of [standard_command]. *)
Fixpoint consume_params (sizes : list Z) (stack_index : list Z) (tc : TextCommand)
    : res (list Z * TextCommand) :=
  match sizes with
  | [] => Ok (stack_index, tc)
  | size :: sizes =>
    if len stack_index <? size then Raise AssertionError
    else
      first ← index stack_index 0;
      let sp := mkStackParam first size in
      let stack_index := del_slice stack_index 0 size in
      let tc := mkTextCommand (tc_base_name tc) (tc_translation_name tc)
                  (tc_inline_param_size tc) (stack_param tc ++ [sp]) in
      consume_params sizes stack_index tc
  end.

Definition standard_command (s : TextRefStack) (cc : ControlCode) : res TextRefStack :=
  if negb (inline_param_size cc =? 0) || negb (bool_decide (stack_param_size cc = [])) then
    let tc := new_TextCommand (base_name cc) (translation_name cc) (inline_param_size cc) in
    '(stack_index, tc) ← consume_params (stack_param_size cc) (stack_index s) tc;
    if negb (bool_decide (tc_base_name tc = [])) then
      Ok (mkTextRefStack stack_index (commands s ++ [tc]))
    else Ok (mkTextRefStack stack_index (commands s))
  else Ok s.

Definition push_word (s : TextRefStack) (cc : ControlCode) : res TextRefStack :=
  Ok (mkTextRefStack (set_slice (stack_index s) 0 0 [-1; -1]) (commands s)).

Definition rotate_words (s : TextRefStack) (cc : ControlCode) : res TextRefStack :=
  if len (stack_index s) <? 8 then Raise AssertionError
  else
    Ok (mkTextRefStack
          (set_slice (stack_index s) 0 8
             (slice (stack_index s) 6 8 ++ slice (stack_index s) 0 6))
          (commands s)).

(** [cc.command_handler(stack, cc)] *)
Definition call_handler (cc : ControlCode) (s : TextRefStack) : res TextRefStack :=
  match command_handler cc with
  | H_standard_command => standard_command s cc
  | H_push_word => push_word s cc
  | H_rotate_words => rotate_words s cc
  end.

Definition get_stack_types (s : TextRefStack) : gmap Z (CommandName * Z) :=
  foldl (λ result tc,
    foldl (λ result sp,
      foldl (λ result i,
        <[offset sp + i := (new_CommandName (tc_base_name tc) (tc_translation_name tc), i)]> result)
        result (seqZ 0 (size sp)))
      result (stack_param tc))
    ∅ (commands s).

Definition CTRL_CODES : gmap Z ControlCode :=
  list_to_map [
    (0x01, new_ControlCode [] [] 1 [] H_standard_command); (* SETX *)
    (0x0E, new_ControlCode (u "{TINY_FONT}") [] 0 [] H_standard_command); (* OTTD and NML differ in spelling *)
    (0x0F, new_ControlCode (u "{BIG_FONT}") [] 0 [] H_standard_command); (* OTTD and NML differ in spelling *)
    (0x1F, new_ControlCode [] [] 2 [] H_standard_command); (* SETXY *)
    (0x7B, new_ControlCode (u "{COMMA}") [] 0 [4] H_standard_command);
    (0x7C, new_ControlCode (u "{COMMA}") [] 0 [2] H_standard_command);
    (0x7D, new_ControlCode (u "{COMMA}") [] 0 [1] H_standard_command);
    (0x7E, new_ControlCode (u "{COMMA}") [] 0 [2] H_standard_command);
    (0x7F, new_ControlCode (u "{CURRENCY_LONG}") [] 0 [4] H_standard_command);
    (0x80, new_ControlCode (u "{STRING}") [] 0 [2] H_standard_command);
    (0x81, new_ControlCode (u "{STRING}") [] 2 [] H_standard_command); (* inline string *)
    (0x82, new_ControlCode (u "{DATE_LONG}") [] 0 [2] H_standard_command);
    (0x83, new_ControlCode (u "{DATE_SHORT}") [] 0 [2] H_standard_command);
    (0x84, new_ControlCode (u "{SPEED}") [] 0 [2] H_standard_command);
    (0x85, new_ControlCode [] [] 0 [2] H_standard_command); (* discard int16 *)
    (0x86, new_ControlCode [] [] 0 [] H_rotate_words); (* rotate 4 int16  (W4 W1 W2 W3) *)
    (0x87, new_ControlCode (u "{VOLUME_LONG}") [] 0 [2] H_standard_command);
    (0x88, new_ControlCode (u "{BLUE}") [] 0 [] H_standard_command);
    (0x89, new_ControlCode (u "{SILVER}") [] 0 [] H_standard_command);
    (0x8A, new_ControlCode (u "{GOLD}") [] 0 [] H_standard_command);
    (0x8B, new_ControlCode (u "{RED}") [] 0 [] H_standard_command);
    (0x8C, new_ControlCode (u "{PURPLE}") [] 0 [] H_standard_command);
    (0x8D, new_ControlCode (u "{LTBROWN}") [] 0 [] H_standard_command);
    (0x8E, new_ControlCode (u "{ORANGE}") [] 0 [] H_standard_command);
    (0x8F, new_ControlCode (u "{GREEN}") [] 0 [] H_standard_command);
    (0x90, new_ControlCode (u "{YELLOW}") [] 0 [] H_standard_command);
    (0x91, new_ControlCode (u "{DKGREEN}") [] 0 [] H_standard_command);
    (0x92, new_ControlCode (u "{CREAM}") [] 0 [] H_standard_command);
    (0x93, new_ControlCode (u "{BROWN}") [] 0 [] H_standard_command);
    (0x94, new_ControlCode (u "{WHITE}") [] 0 [] H_standard_command);
    (0x95, new_ControlCode (u "{LTBLUE}") [] 0 [] H_standard_command);
    (0x96, new_ControlCode (u "{GRAY}") [] 0 [] H_standard_command);
    (0x97, new_ControlCode (u "{DKBLUE}") [] 0 [] H_standard_command);
    (0x98, new_ControlCode (u "{BLACK}") [] 0 [] H_standard_command);
    (0x99, new_ControlCode [] [] 1 [] H_standard_command); (* inline company color *)
    (0x9E, new_ControlCode [0x20AC] [] 0 [] H_standard_command); (* Euro *)
    (0x9F, new_ControlCode [0x0178] [] 0 [] H_standard_command); (* Y with diaeresis *)
    (0xA0, new_ControlCode (u "{UP_ARROW}") [] 0 [] H_standard_command);
    (0xAA, new_ControlCode (u "{DOWN_ARROW}") [] 0 [] H_standard_command);
    (0xAC, new_ControlCode (u "{CHECKMARK}") [] 0 [] H_standard_command);
    (0xAD, new_ControlCode (u "{CROSS}") [] 0 [] H_standard_command);
    (0xAF, new_ControlCode (u "{RIGHT_ARROW}") [] 0 [] H_standard_command);
    (0xB4, new_ControlCode (u "{TRAIN}") [] 0 [] H_standard_command);
    (0xB5, new_ControlCode (u "{LORRY}") [] 0 [] H_standard_command);
    (0xB6, new_ControlCode (u "{BUS}") [] 0 [] H_standard_command);
    (0xB7, new_ControlCode (u "{PLANE}") [] 0 [] H_standard_command);
    (0xB8, new_ControlCode (u "{SHIP}") [] 0 [] H_standard_command);
    (0xB9, new_ControlCode [0x208B; 0x2081] [] 0 [] H_standard_command); (* Superscript m1 *)
    (0xBC, new_ControlCode (u "{SMALL_UP_ARROW}") [] 0 [] H_standard_command);
    (0xBD, new_ControlCode (u "{SMALL_DOWN_ARROW}") [] 0 [] H_standard_command) ].

Definition EXT_CTRL_CODES : gmap Z ControlCode :=
  list_to_map [
    (0x00, new_ControlCode (u "{CURRENCY_LONG}") [] 0 [8] H_standard_command);
    (0x01, new_ControlCode (u "{CURRENCY_LONG}") [] 0 [8] H_standard_command);
    (0x02, new_ControlCode [] [] 0 [] H_standard_command); (* skip color byte *)
    (0x03, new_ControlCode [] [] 2 [] H_push_word); (* PUSH_WORD *)
    (0x04, new_ControlCode [] [] 1 [] H_standard_command); (* unprint *)
    (0x06, new_ControlCode (u "{HEX}") [] 0 [1] H_standard_command);
    (0x07, new_ControlCode (u "{HEX}") [] 0 [2] H_standard_command);
    (0x08, new_ControlCode (u "{HEX}") [] 0 [4] H_standard_command);
    (0x0B, new_ControlCode (u "{HEX}") [] 0 [8] H_standard_command);
    (0x0C, new_ControlCode (u "{STATION}") [] 0 [2] H_standard_command);
    (0x0D, new_ControlCode (u "{WEIGHT_LONG}") [] 0 [2] H_standard_command);
    (0x0E, new_ControlCode [] [] 1 [] H_standard_command); (* TODO set gender *)
    (0x0F, new_ControlCode [] [] 1 [] H_standard_command); (* TODO select case *)
    (0x10, new_ControlCode [] [] 1 [] H_standard_command); (* TODO begin choice *)
    (0x11, new_ControlCode [] [] 1 [] H_standard_command); (* TODO begin default *)
    (0x12, new_ControlCode [] [] 0 [] H_standard_command); (* TODO end choice *)
    (0x13, new_ControlCode [] [] 1 [] H_standard_command); (* TODO begin gender choice *)
    (0x14, new_ControlCode [] [] 0 [] H_standard_command); (* TODO begin case choice *)
    (0x15, new_ControlCode [] [] 1 [] H_standard_command); (* TODO begin plural choice *)
    (0x16, new_ControlCode (u "{DATE_LONG}") [] 0 [4] H_standard_command);
    (0x17, new_ControlCode (u "{DATE_SHORT}") [] 0 [4] H_standard_command);
    (0x18, new_ControlCode (u "{POWER}") [] 0 [2] H_standard_command);
    (0x19, new_ControlCode (u "{VOLUME_SHORT}") [] 0 [2] H_standard_command);
    (0x1A, new_ControlCode (u "{WEIGHT_SHORT}") [] 0 [2] H_standard_command);
    (0x1B, new_ControlCode (u "{CARGO_LONG}") [] 0 [2; 2] H_standard_command);
    (0x1C, new_ControlCode (u "{CARGO_SHORT}") [] 0 [2; 2] H_standard_command);
    (0x1D, new_ControlCode (u "{CARGO_TINY}") [] 0 [2; 2] H_standard_command);
    (0x1E, new_ControlCode (u "{CARGO_NAME}") [] 0 [2] H_standard_command);
    (0x1F, new_ControlCode (u "{PUSH_COLOUR}") [] 0 [] H_standard_command);
    (0x20, new_ControlCode (u "{POP_COLOUR}") [] 0 [] H_standard_command);
    (0x21, new_ControlCode (u "{FORCE}") [] 0 [4] H_standard_command) ].

Definition ALIASES : gmap pystr pystr :=
  list_to_map [
    ([0x000D], u "{}");
    (u "{", u "{{}");
    ([0x00A0], u "{NBSP}");
    ([0x00A9], u "{COPYRIGHT}");
    ([0x200E], u "{LRM}");
    ([0x200F], u "{RLM}");
    ([0x202A], u "{LRE}");
    ([0x202B], u "{RLE}");
    ([0x202D], u "{LRO}");
    ([0x202E], u "{RLO}");
    ([0x202C], u "{PDF}") ].

(** [b[i]] where the source has checked [i + 1 <= len(b)] first, in the same
    [and] chain; the value outside the range is never used.  This is for a
    position [i] that is not negative, as are all those that [decodestr]
    passes: for a negative one Python counts from the end. *)
Definition at_ (b : bytes) (i : Z) : Z := default 0 (b2z <$> b !! Z.to_nat i).

Definition getutf8 (b : bytes) (pos : Z) : Z * option Z :=
  if (pos + 1 <=? len b) && (Z.land (at_ b pos) 0x80 =? 0) then
    (1, Some (at_ b pos))
  else if (pos + 2 <=? len b) && (Z.land (at_ b pos) 0xE0 =? 0xC0)
          && (Z.land (at_ b (pos + 1)) 0xC0 =? 0x80) then
    (2, Some (Z.lor (Z.shiftl (Z.land (at_ b pos) 0x1F) 6) (Z.land (at_ b (pos + 1)) 0x3F)))
  else if (pos + 3 <=? len b) && (Z.land (at_ b pos) 0xF0 =? 0xE0)
          && (Z.land (at_ b (pos + 1)) 0xC0 =? 0x80)
          && (Z.land (at_ b (pos + 2)) 0xC0 =? 0x80) then
    (3, Some (Z.lor (Z.lor (Z.shiftl (Z.land (at_ b pos) 0x0F) 12)
                           (Z.shiftl (Z.land (at_ b (pos + 1)) 0x3F) 6))
                    (Z.land (at_ b (pos + 2)) 0x3F)))
  else if (pos + 4 <=? len b) && (Z.land (at_ b pos) 0xF8 =? 0xF0)
          && (Z.land (at_ b (pos + 1)) 0xC0 =? 0x80)
          && (Z.land (at_ b (pos + 2)) 0xC0 =? 0x80)
          && (Z.land (at_ b (pos + 3)) 0xC0 =? 0x80) then
    (4, Some (Z.lor (Z.lor (Z.lor (Z.shiftl (Z.land (at_ b pos) 0x07) 18)
                                  (Z.shiftl (Z.land (at_ b (pos + 1)) 0x3F) 12))
                           (Z.shiftl (Z.land (at_ b (pos + 2)) 0x3F) 6))
                    (Z.land (at_ b (pos + 3)) 0x3F)))
  else (0, None).

(** [chr(c)] *)
Definition chr (c : Z) : res pystr :=
  if (c <? 0) || (0x10FFFF <? c) then Raise ValueError else Ok [c].

(** The state the [while] loop of [decodestr] updates. *)
Record dstate := mkDstate { pos : Z; result : pystr; stack : TextRefStack }.

(** First half of the loop body: the next code point and the position
    after it. *)
Definition next_code (b : bytes) (is_unicode : bool) (pos : Z) : res (Z * Z) :=
  if is_unicode then
    let '(size, c) := getutf8 b pos in
    if size =? 0 then
      x ← index b pos;
      Ok (0xE000 + b2z x, pos + 1)
    else
      match c with
      | Some c => Ok (c, pos + size)
      | None => Raise AssertionError
      end
  else
    x ← index b pos;
    let c := b2z x in
    let pos := pos + 1 in
    if bool_decide (is_Some (CTRL_CODES !! c)) || (c =? 0x9A) then Ok (0xE000 + c, pos)
    else Ok (c, pos).

(** The three lines shared by both control-code branches. *)
Definition run_code (cc : ControlCode) (st : dstate) : res dstate :=
  stack ← call_handler cc (stack st);
  Ok (mkDstate (pos st + inline_param_size cc) (result st ++ translation_name cc) stack).

Definition default_cc : ControlCode := new_ControlCode [] [] 0 [] H_standard_command.

(** Second half of the loop body: the [if]/[elif] chain on the code point. *)
Definition dispatch (b : bytes) (c : Z) (st : dstate) : res dstate :=
  if c =? 0xE09A then
    x ← index b (pos st);
    let c := b2z x in
    let st := mkDstate (pos st + 1) (result st) (stack st) in
    run_code (default default_cc (EXT_CTRL_CODES !! c)) st
  else if (0xE000 <=? c) && (c <=? 0xE0FF) then
    run_code (default default_cc (CTRL_CODES !! (c - 0xE000))) st
  else if (32 <=? c) || (c =? 13) then
    s ← chr c;
    Ok (mkDstate (pos st) (result st ++ default s (ALIASES !! s)) (stack st))
  else Ok st.

Definition decode_step (b : bytes) (is_unicode : bool) (st : dstate) : res dstate :=
  '(c, p) ← next_code b is_unicode (pos st);
  dispatch b c (mkDstate p (result st) (stack st)).

Fixpoint decode_loop (fuel : nat) (b : bytes) (is_unicode : bool) (st : dstate)
    : res dstate :=
  if pos st <? len b then
    match fuel with
    | O => OutOfFuel
    | S fuel =>
      st ← decode_step b is_unicode st;
      decode_loop fuel b is_unicode st
    end
  else Ok st.

Definition is_unicode_marker (b : bytes) : bool :=
  bool_decide (getutf8 b 0 = (2, Some 0x00DE)).

Definition decodestr (b : bytes) : res (pystr * gmap Z (CommandName * Z)) :=
  let is_unicode := is_unicode_marker b in
  let pos := if is_unicode then 0 + 2 else 0 in
  st ← decode_loop (length b) b is_unicode (mkDstate pos [] new_TextRefStack);
  Ok (result st, get_stack_types (stack st)).

(** The [for lang_id, raw_text in raw.items()] loop of [process_string]. *)
Fixpoint process_items (items : pydict Z bytes) (result : pydict Z pystr)
    : res (pydict Z pystr) :=
  match items with
  | [] => Ok result
  | (lang_id, raw_text) :: items =>
    '(text, _) ← decodestr raw_text;
    process_items items (dict_set lang_id text result)
  end.

Definition process_string (raw : pydict Z bytes) : res (pydict Z pystr) :=
  match dict_get 0x7F raw with
  | None => Raise (RuntimeError "Missing base language text")
  | Some base_raw =>
    '(base_text, stack) ← decodestr base_raw;
    let result := [(0x7F, base_text)] in
    process_items raw result
  end.

End GrfStrings.

(** Comparison of Python values of possibly different types: [bytes] (or
    [bytearray]) and [str] never compare equal. *)
Inductive pyval := PyBytes (b : bytes) | PyStr (s : pystr).

Definition py_eq (x y : pyval) : bool :=
  match x, y with
  | PyBytes a, PyBytes b => bool_decide (a = b)
  | PyStr a, PyStr b => bool_decide (a = b)
  | _, _ => false
  end.

(** [bytes.decode("ascii")] and [bytes.decode("utf-8")] (strict). *)
Definition ascii_decode (b : bytes) : res pystr :=
  if forallb (λ x, b2z x <? 0x80) b then Ok (b2z <$> b) else Raise UnicodeDecodeError.

Definition cont (lo hi : Z) (x : byte) : bool := (lo <=? b2z x) && (b2z x <=? hi).
Definition low6 (x : byte) : Z := Z.land (b2z x) 0x3F.

Fixpoint utf8_decode (b : bytes) : res pystr :=
  match b with
  | [] => Ok []
  | b0 :: t0 =>
    let z := b2z b0 in
    if z <? 0x80 then s ← utf8_decode t0; Ok (z :: s)
    else if (0xC2 <=? z) && (z <=? 0xDF) then
      match t0 with
      | b1 :: t1 =>
        if cont 0x80 0xBF b1 then
          s ← utf8_decode t1; Ok (Z.lor (Z.shiftl (Z.land z 0x1F) 6) (low6 b1) :: s)
        else Raise UnicodeDecodeError
      | _ => Raise UnicodeDecodeError
      end
    else if (0xE0 <=? z) && (z <=? 0xEF) then
      match t0 with
      | b1 :: b2 :: t2 =>
        let lo := if z =? 0xE0 then 0xA0 else 0x80 in
        let hi := if z =? 0xED then 0x9F else 0xBF in
        if cont lo hi b1 && cont 0x80 0xBF b2 then
          s ← utf8_decode t2;
          Ok (Z.lor (Z.lor (Z.shiftl (Z.land z 0x0F) 12) (Z.shiftl (low6 b1) 6)) (low6 b2) :: s)
        else Raise UnicodeDecodeError
      | _ => Raise UnicodeDecodeError
      end
    else if (0xF0 <=? z) && (z <=? 0xF4) then
      match t0 with
      | b1 :: b2 :: b3 :: t3 =>
        let lo := if z =? 0xF0 then 0x90 else 0x80 in
        let hi := if z =? 0xF4 then 0x8F else 0xBF in
        if cont lo hi b1 && cont 0x80 0xBF b2 && cont 0x80 0xBF b3 then
          s ← utf8_decode t3;
          Ok (Z.lor (Z.lor (Z.lor (Z.shiftl (Z.land z 0x07) 18) (Z.shiftl (low6 b1) 12))
                           (Z.shiftl (low6 b2) 6)) (low6 b3) :: s)
        else Raise UnicodeDecodeError
      | _ => Raise UnicodeDecodeError
      end
    else Raise UnicodeDecodeError
  end.

(** [f"{n:04X}"] for a non-negative [n]. *)
Definition hex_digit (d : Z) : ascii :=
  ascii_of_N (Z.to_N (if d <? 10 then 48 + d else 55 + d)).

Fixpoint hex_go (fuel : nat) (n : Z) (acc : string) : string :=
  let acc := String (hex_digit (n mod 16)) acc in
  match fuel with
  | O => acc
  | S fuel => if n / 16 =? 0 then acc else hex_go fuel (n / 16) acc
  end.

Fixpoint zero_pad (k : nat) (s : string) : string :=
  match k with
  | O => s
  | S k => String "0" (zero_pad k s)
  end.

Definition format_04X (n : Z) : string :=
  let s := hex_go (Z.to_nat (Z.log2 n)) n "" in
  zero_pad (4 - String.length s) s.

(** [v.to_bytes(n, "little")] *)
Fixpoint to_bytes_le (n : nat) (v : Z) : bytes :=
  match n with
  | O => []
  | S n => z2b (v mod 256) :: to_bytes_le n (v / 256)
  end.

(** [for x in xs: body], threading the state the body updates. *)
Fixpoint for_each {S A} (xs : list A) (body : A → S → res S) (s : S) : res S :=
  match xs with
  | [] => Ok s
  | x :: xs => s ← body x s; for_each xs body s
  end.

Definition range (n : Z) : list Z := seqZ 0 n.

(** ** newgrf.py *)
Module NewGRF.

Record GRFString := mkGRFString {
  str_name : pystr;
  translations : pydict Z bytes }.

Definition new_GRFString : GRFString := mkGRFString [] [].

Definition add_text (s : GRFString) (lang_id : Z) (text : bytes) : res GRFString :=
  if lang_id =? 0x7E then
    name ← ascii_decode text;
    Ok (mkGRFString name (translations s))
  else Ok (mkGRFString (str_name s) (dict_set lang_id text (translations s))).

(** [actionb_string] refers to a [GRFString] object that lives in
    [self.strings]; the reference is kept as the key of that object. *)
Record ParserState := mkParserState {
  action6_effect : bool;
  actionb_string : option string }.

Definition new_ParserState : ParserState := mkParserState false None.

Record t := mkNewGRF {
  md5sum : option digest;
  unique_id : option bytes;
  grf_version : option Z;
  version : option Z;
  min_compatible_version : option Z;
  container_version : option Z;
  plurals : gmap Z Z;
  genders : gmap Z (gmap Z (list pystr));
  cases : gmap Z (gmap Z (list pystr));
  strings : gmap string GRFString;
  _feature_mapping : gmap Z Z;
  _next_feature_map : option Z }.

Definition set_md5sum (v : option digest) (self : t) : t :=
  mkNewGRF v (unique_id self) (grf_version self) (version self) (min_compatible_version self) (container_version self) (plurals self) (genders self) (cases self) (strings self) (_feature_mapping self) (_next_feature_map self).
Definition set_unique_id (v : option bytes) (self : t) : t :=
  mkNewGRF (md5sum self) v (grf_version self) (version self) (min_compatible_version self) (container_version self) (plurals self) (genders self) (cases self) (strings self) (_feature_mapping self) (_next_feature_map self).
Definition set_grf_version (v : option Z) (self : t) : t :=
  mkNewGRF (md5sum self) (unique_id self) v (version self) (min_compatible_version self) (container_version self) (plurals self) (genders self) (cases self) (strings self) (_feature_mapping self) (_next_feature_map self).
Definition set_version (v : option Z) (self : t) : t :=
  mkNewGRF (md5sum self) (unique_id self) (grf_version self) v (min_compatible_version self) (container_version self) (plurals self) (genders self) (cases self) (strings self) (_feature_mapping self) (_next_feature_map self).
Definition set_min_compatible_version (v : option Z) (self : t) : t :=
  mkNewGRF (md5sum self) (unique_id self) (grf_version self) (version self) v (container_version self) (plurals self) (genders self) (cases self) (strings self) (_feature_mapping self) (_next_feature_map self).
Definition set_container_version (v : option Z) (self : t) : t :=
  mkNewGRF (md5sum self) (unique_id self) (grf_version self) (version self) (min_compatible_version self) v (plurals self) (genders self) (cases self) (strings self) (_feature_mapping self) (_next_feature_map self).
Definition set_plurals (v : gmap Z Z) (self : t) : t :=
  mkNewGRF (md5sum self) (unique_id self) (grf_version self) (version self) (min_compatible_version self) (container_version self) v (genders self) (cases self) (strings self) (_feature_mapping self) (_next_feature_map self).
Definition set_genders (v : gmap Z (gmap Z (list pystr))) (self : t) : t :=
  mkNewGRF (md5sum self) (unique_id self) (grf_version self) (version self) (min_compatible_version self) (container_version self) (plurals self) v (cases self) (strings self) (_feature_mapping self) (_next_feature_map self).
Definition set_cases (v : gmap Z (gmap Z (list pystr))) (self : t) : t :=
  mkNewGRF (md5sum self) (unique_id self) (grf_version self) (version self) (min_compatible_version self) (container_version self) (plurals self) (genders self) v (strings self) (_feature_mapping self) (_next_feature_map self).
Definition set_strings (v : gmap string GRFString) (self : t) : t :=
  mkNewGRF (md5sum self) (unique_id self) (grf_version self) (version self) (min_compatible_version self) (container_version self) (plurals self) (genders self) (cases self) v (_feature_mapping self) (_next_feature_map self).
Definition set_feature_mapping (v : gmap Z Z) (self : t) : t :=
  mkNewGRF (md5sum self) (unique_id self) (grf_version self) (version self) (min_compatible_version self) (container_version self) (plurals self) (genders self) (cases self) (strings self) v (_next_feature_map self).
Definition set_next_feature_map (v : option Z) (self : t) : t :=
  mkNewGRF (md5sum self) (unique_id self) (grf_version self) (version self) (min_compatible_version self) (container_version self) (plurals self) (genders self) (cases self) (strings self) (_feature_mapping self) v.

Definition STR_GRF_NAME : string := "STR_GRF_NAME".
Definition STR_GRF_DESCRIPTION : string := "STR_GRF_DESCRIPTION".
Definition STR_GRF_URL : string := "STR_GRF_URL".

Definition FEATURES : gmap Z string :=
  list_to_map [
    (0x00, "TRAIN"); (0x01, "ROAD_VEHICLE"); (0x02, "SHIP"); (0x03, "AIRCRAFT");
    (0x04, "STATION"); (0x05, "CANAL"); (0x06, "BRIDGE"); (0x07, "HOUSE");
    (0x08, "GLOBAL"); (0x09, "INDUSTRY_TILE"); (0x0A, "INDUSTRY"); (0x0B, "CARGO");
    (0x0C, "SOUND_EFFECT"); (0x0D, "AIRPORT"); (0x0E, "SIGNAL"); (0x0F, "OBJECT");
    (0x10, "RAILTYPE"); (0x11, "AIRPORT_TILE"); (0x12, "ROADTYPE"); (0x13, "TRAMTYPE");
    (0x14, "ROAD_STOP") ].

Definition str_feature (feature index : Z) : string :=
  let f := default (pretty feature) (FEATURES !! feature) in
  "STR_" +:+ f +:+ "_" +:+ pretty index.

Definition str_ext (index : Z) : string :=
  if (0xC400 <=? index) && (index <? 0xC500) then
    "STR_STATION_CLASS_" +:+ pretty (index - 0xC400) +:+ "_NAME"
  else if (0xC500 <=? index) && (index <? 0xC600) then
    "STR_STATION_" +:+ pretty (index - 0xC500) +:+ "_NAME"
  else if (0xC900 <=? index) && (index <? 0xCA00) then
    "STR_HOUSE_" +:+ pretty (index - 0xC900) +:+ "_NAME"
  else "STR_GENERIC_" +:+ format_04X index.

Definition str_error (index : Z) : string := "STR_ERROR_" +:+ pretty index.
Definition str_param_name (index : Z) : string :=
  "STR_PARAM_" +:+ pretty index +:+ "_NAME".
Definition str_param_description (index : Z) : string :=
  "STR_PARAM_" +:+ pretty index +:+ "_DESCRIPTION".

(** [NewGRF.__init__] *)
Definition new_NewGRF : t :=
  mkNewGRF None None None None None None ∅ ∅ ∅ ∅ ∅ None.

(** [self.strings[key].add_text(lang_id, text)]: the [defaultdict] creates
    the entry when it is missing. *)
Definition strings_add_text (key : string) (lang_id : Z) (text : bytes) (self : t) : res t :=
  let s := default new_GRFString (strings self !! key) in
  s ← add_text s lang_id text;
  Ok (set_strings (<[key := s]> (strings self)) self).

(** [table[id][gi].append(name)] on a [defaultdict] of [defaultdict(list)]. *)
Definition append_name (table : gmap Z (gmap Z (list pystr))) (id gi : Z) (name : pystr)
    : gmap Z (gmap Z (list pystr)) :=
  let inner := default ∅ (table !! id) in
  <[id := <[gi := default [] (inner !! gi) ++ [name]]> inner]> table.

Module R := BinaryReader.

Definition bytes_eq (a b : bytes) : bool := py_eq (PyBytes a) (PyBytes b).
Definition ord (a : ascii) : Z := Z.of_N (N_of_ascii a).

(** Truth value of an [Optional[int]]. *)
Definition truthy (o : option Z) : bool :=
  match o with
  | Some v => negb (v =? 0)
  | None => false
  end.

(** *** Action 0x00 *)

(** The [while True] loop of properties 0x13 and 0x14 for one id. *)
Fixpoint names_loop (fuel : nat) (id : Z) (reader : R.t)
    (table : gmap Z (gmap Z (list pystr))) : res (R.t * gmap Z (gmap Z (list pystr))) :=
  match fuel with
  | O => OutOfFuel
  | S fuel =>
    '(gi, reader) ← R.uint8 reader;
    if gi =? 0 then Ok (reader, table)
    else
      '(raw, reader) ← R.str reader;
      name ← utf8_decode raw;
      names_loop fuel id reader (append_name table id gi name)
  end.

Definition names_prop (num_ids first_id : Z) (reader : R.t)
    (table : gmap Z (gmap Z (list pystr))) : res (R.t * gmap Z (gmap Z (list pystr))) :=
  for_each (range num_ids)
    (λ i '(reader, table), names_loop (S (length (R.file reader))) (first_id + i) reader table)
    (reader, table).

(** The [for _ in range(num_props)] loop; an unknown property leaves it. *)
Fixpoint props_loop (n : nat) (num_ids first_id : Z) (reader : R.t) (self : t) : res t :=
  match n with
  | O => Ok self
  | S n =>
    '(prop, reader) ← R.uint8 reader;
    if prop =? 0x08 then
      props_loop n num_ids first_id (R.skip reader num_ids) self
    else if prop =? 0x10 then
      props_loop n num_ids first_id (R.skip reader (12 * 32 * num_ids)) self
    else if bool_decide (prop ∈ [0x0A; 0x0C; 0x0F]) then
      props_loop n num_ids first_id (R.skip reader (2 * num_ids)) self
    else if bool_decide (prop ∈ [0x09; 0x0B; 0x0D; 0x0E; 0x12; 0x16; 0x17]) then
      props_loop n num_ids first_id (R.skip reader (4 * num_ids)) self
    else if bool_decide (prop ∈ [0x11]) then
      props_loop n num_ids first_id (R.skip reader (8 * num_ids)) self
    else if prop =? 0x13 then
      '(reader, table) ← names_prop num_ids first_id reader (genders self);
      props_loop n num_ids first_id reader (set_genders table self)
    else if prop =? 0x14 then
      '(reader, table) ← names_prop num_ids first_id reader (cases self);
      props_loop n num_ids first_id reader (set_cases table self)
    else if prop =? 0x15 then
      '(reader, table) ← for_each (range num_ids)
        (λ i '(reader, table),
           '(v, reader) ← R.uint8 reader;
           Ok (reader, <[first_id + i := v]> table))
        (reader, plurals self);
      props_loop n num_ids first_id reader (set_plurals table self)
    else Ok self
  end.

Definition action_00 (self : t) (reader : R.t) : res t :=
  '(feat, reader) ← R.uint8 reader;
  let feat := default feat (_feature_mapping self !! feat) in
  '(num_props, reader) ← R.uint8 reader;
  '(num_ids, reader) ← R.uint8 reader;
  if negb (num_ids =? 0) then
    '(first_id, reader) ← R.uint_ext reader;
    if feat =? 0x08 then props_loop (Z.to_nat num_props) num_ids first_id reader self
    else Ok self
  else Ok self.

(** *** Action 0x01 *)
Definition action_01 (pseudo : bytes) (reader : R.t) : res Z :=
  '(_, reader) ← R.uint8 reader;
  '(num_sets, reader) ← R.uint8 reader;
  '(num_sets, reader) ←
    (if (num_sets =? 0) && (3 <=? len pseudo - 3) then
       '(_, reader) ← R.uint_ext reader;
       R.uint_ext reader
     else Ok (num_sets, reader));
  '(num_ent, reader) ← R.uint_ext reader;
  Ok (num_sets * num_ent).

(** *** Action 0x04 *)
Definition action_04 (self : t) (reader : R.t) : res t :=
  '(feat, reader) ← R.uint8 reader;
  let feat := default feat (_feature_mapping self !! feat) in
  '(lang_id, reader) ← R.uint8 reader;
  '(num_ids, reader) ← R.uint8 reader;
  '(first_id, str_id, lang_id, reader) ←
    (if lang_id <? 0x80 then
       '(first_id, reader) ← R.uint_ext reader;
       Ok (first_id, str_feature feat, lang_id, reader)
     else
       '(first_id, reader) ← R.uint16 false reader;
       Ok (first_id, str_ext, lang_id - 0x80, reader));
  '(_, self) ← for_each (range num_ids)
    (λ i '(reader, self),
       '(text, reader) ← R.str reader;
       self ← strings_add_text (str_id (first_id + i)) lang_id text self;
       Ok (reader, self))
    (reader, self);
  Ok self.

(** *** Action 0x05 *)
Definition action_05 (reader : R.t) : res Z :=
  let reader := R.skip reader 1 in
  '(n, _) ← R.uint_ext reader;
  Ok n.

(** *** Action 0x08 *)
Definition action_08 (self : t) (reader : R.t) : res t :=
  '(v, reader) ← R.uint8 reader;
  let self := set_grf_version (Some v) self in
  '(id, reader) ← R.uint32 false reader;
  let self := set_unique_id (Some (to_bytes_le 4 id)) self in
  '(name, reader) ← R.str reader;
  self ← strings_add_text STR_GRF_NAME 0x7F name self;
  '(desc, reader) ← R.str reader;
  strings_add_text STR_GRF_DESCRIPTION 0x7F desc self.

(** *** Action 0x0A *)
Definition action_0A (reader : R.t) : res Z :=
  '(num_sets, reader) ← R.uint8 reader;
  '(_, skip_sprites) ← for_each (range num_sets)
    (λ _ '(reader, skip_sprites),
       '(n, reader) ← R.uint8 reader;
       Ok (R.skip reader 2, skip_sprites + n))
    (reader, 0);
  Ok skip_sprites.

(** *** Action 0x0B *)
Definition action_0B (self : t) (sprite_index : Z) (reader : R.t) (state : ParserState)
    : res (t * ParserState) :=
  let '(self, key) :=
    match actionb_string state with
    | None =>
      let key := str_error sprite_index in
      (set_strings (<[key := default new_GRFString (strings self !! key)]> (strings self)) self,
       key)
    | Some key => (self, key)
    end in
  let reader := R.skip reader 1 in
  '(lang_id, reader) ← R.uint8 reader;
  let reader := R.skip reader 1 in
  '(text, reader) ← R.str reader;
  self ← (if negb (bool_decide (text = [])) then strings_add_text key lang_id text self
          else Ok self);
  Ok (self,
      mkParserState (action6_effect state)
        (if lang_id =? 0x7F then None else Some key)).

(** *** Action 0x12 *)
Definition action_12 (reader : R.t) : res Z :=
  '(num_defs, reader) ← R.uint8 reader;
  '(_, skip_sprites) ← for_each (range num_defs)
    (λ _ '(reader, skip_sprites),
       let reader := R.skip reader 1 in
       '(n, reader) ← R.uint8 reader;
       Ok (R.skip reader 2, skip_sprites + n))
    (reader, 0);
  Ok skip_sprites.

(** *** Action 0x14 *)

(** A ['B'] leaf. *)
Definition a14_blob (self : t) (reader : R.t) (subpath : bytes) : res (t * R.t) :=
  '(size, reader) ← R.uint16 false reader;
  let '(blob, reader) := R.read reader size in
  let bdata := R.of_bytes blob in
  '(self, bdata) ←
    (if bytes_eq subpath (lit "FIDMFTID") && truthy (_next_feature_map self) then
       match _next_feature_map self with
       | Some v =>
         '(k, bdata) ← R.uint8 bdata;
         Ok (set_next_feature_map None
               (set_feature_mapping (<[k := v]> (_feature_mapping self)) self), bdata)
       | None => Ok (self, bdata)
       end
     else Ok (self, bdata));
  if bytes_eq subpath (lit "INFOVRSN") && (4 <=? size) then
    '(v, _) ← R.uint32 false bdata;
    Ok (set_version (Some v) self, reader)
  else if bytes_eq subpath (lit "INFOMINV") && (4 <=? size) then
    '(v, _) ← R.uint32 false bdata;
    Ok (set_min_compatible_version (Some v) self, reader)
  else Ok (self, reader).

(** A ['T'] leaf.  [sdata] is the [bytearray] that [reader.str()] returns;
    the name it is compared with is a [str] literal. *)
Definition a14_text (self : t) (reader : R.t) (subpath : bytes) : res (t * R.t) :=
  '(grflangid, reader) ← R.uint8 reader;
  '(sdata, reader) ← R.str reader;
  let self :=
    if bytes_eq subpath (lit "FIDMNAME") then
      if py_eq (PyBytes sdata) (PyStr (u "road_stops"))
      then set_next_feature_map (Some 0x14) self
      else self
    else self in
  self ←
    (if bytes_eq subpath (lit "INFONAME") then
       strings_add_text STR_GRF_NAME grflangid sdata self
     else if bytes_eq subpath (lit "INFODESC") then
       strings_add_text STR_GRF_DESCRIPTION grflangid sdata self
     else if bytes_eq subpath (lit "INFOURL_") then
       strings_add_text STR_GRF_URL grflangid sdata self
     else if bytes_eq (slice subpath 0 8) (lit "INFOPARA")
             && bytes_eq (slice subpath 12 (len subpath)) (lit "NAME") then
       let param := R.unpack_le (slice subpath 8 12) in
       strings_add_text (str_param_name param) grflangid sdata self
     else if bytes_eq (slice subpath 0 8) (lit "INFOPARA")
             && bytes_eq (slice subpath 12 (len subpath)) (lit "DESC") then
       let param := R.unpack_le (slice subpath 8 12) in
       strings_add_text (str_param_description param) grflangid sdata self
     else Ok self);
  Ok (self, reader).

Fixpoint read_a14 (fuel : nat) (self : t) (reader : R.t) (path : bytes)
    : res (bool * t * R.t) :=
  match fuel with
  | O => OutOfFuel
  | S fuel =>
    '(type_id, reader) ← R.uint8 reader;
    if type_id =? 0 then Ok (true, self, reader)
    else
      let '(segment, reader) := R.read reader 4 in
      let subpath := path ++ segment in
      if type_id =? ord "C" then
        '(ok, self, reader) ← read_a14 fuel self reader subpath;
        if negb ok then Ok (false, self, reader)
        else read_a14 fuel self reader path
      else if type_id =? ord "B" then
        '(self, reader) ← a14_blob self reader subpath;
        read_a14 fuel self reader path
      else if type_id =? ord "T" then
        '(self, reader) ← a14_text self reader subpath;
        read_a14 fuel self reader path
      else Ok (false, self, reader)
  end.

(** *** The action dispatcher *)
Definition read_pseudo (self : t) (sprite_index : Z) (pseudo : bytes) (state : ParserState)
    : res (Z * t * ParserState) :=
  let reader := R.of_bytes pseudo in
  '(action, reader) ← R.uint8 reader;
  let skip_sprites := 0 in
  if action =? 0x00 then
    self ← action_00 self reader; Ok (skip_sprites, self, state)
  else if action =? 0x01 then
    skip_sprites ← action_01 pseudo reader; Ok (skip_sprites, self, state)
  else if action =? 0x04 then
    self ← action_04 self reader; Ok (skip_sprites, self, state)
  else if action =? 0x05 then
    skip_sprites ← action_05 reader; Ok (skip_sprites, self, state)
  else if action =? 0x06 then
    Ok (skip_sprites, self, mkParserState true (actionb_string state))
  else if bool_decide (action ∈ [0x07; 0x09]) then
    Ok (skip_sprites, self, mkParserState (action6_effect state) None)
  else if action =? 0x08 then
    self ← action_08 self reader; Ok (skip_sprites, self, state)
  else if action =? 0x0A then
    skip_sprites ← action_0A reader; Ok (skip_sprites, self, state)
  else if action =? 0x0B then
    '(self, state) ← action_0B self sprite_index reader state;
    Ok (skip_sprites, self, state)
  else if action =? 0x11 then
    '(skip_sprites, _) ← R.uint16 false reader; Ok (skip_sprites, self, state)
  else if action =? 0x12 then
    skip_sprites ← action_12 reader; Ok (skip_sprites, self, state)
  else if action =? 0x14 then
    '(_, self, _) ← read_a14 (S (length (R.file reader))) self reader [];
    Ok (skip_sprites, self, state)
  else Ok (skip_sprites, self, state).

(** *** The container parser *)

(** Output length of one run of the container-1 sprite stream, from its
    control byte [i]. *)
Definition chunk_len (i : Z) : Z :=
  if i <? 0x80 then (if i =? 0 then 0x80 else i) else 32 - Z.shiftr i 3.

(** The [while size > 0] loop over the runs of a container-1 sprite. *)
Fixpoint sprite_walk (fuel : nat) (reader : R.t) (size : Z) : res R.t :=
  if 0 <? size then
    match fuel with
    | O => OutOfFuel
    | S fuel =>
      '(i, reader) ← R.uint8 reader;
      let reader := if i <? 0x80 then R.skip reader (chunk_len i) else R.skip reader 1 in
      let i := chunk_len i in
      if size <? i then Raise (RuntimeError "Failed sprite decoding.")
      else sprite_walk fuel reader (size - i)
    end
  else Ok reader.

(** The variables the record loop of [read] updates. *)
Record loop_state := mkLoop {
  ls_self : t;
  ls_state : ParserState;
  ls_reader : R.t;
  ls_size : Z;
  ls_skip_sprites : Z;
  ls_sprite_index : Z }.

Definition read_size (self : t) (reader : R.t) : res (Z * R.t) :=
  if bool_decide (container_version self = Some 2) then R.uint32 false reader
  else R.uint16 false reader.

(** One iteration of the [while size != 0] loop. *)
Definition record_body (ls : loop_state) : res loop_state :=
  let '(mkLoop self state reader size skip_sprites sprite_index) := ls in
  '(info, reader) ← R.uint8 reader;
  '(self, state, reader, skip_sprites) ←
    (if info =? 0xFF then
       if 0 <? skip_sprites then
         let state := mkParserState false (actionb_string state) in
         Ok (self, state, R.skip reader size, skip_sprites - 1)
       else
         let '(pseudo, reader) := R.read reader size in
         if negb (sprite_index =? 0) then
           '(skip_sprites, self, state) ← read_pseudo self sprite_index pseudo state;
           Ok (self, state, reader, skip_sprites)
         else Ok (self, state, reader, skip_sprites)
     else
       let state := mkParserState false (actionb_string state) in
       let skip_sprites := if 0 <? skip_sprites then skip_sprites - 1 else skip_sprites in
       if bool_decide (container_version self = Some 2) && (info =? 0xFD) then
         Ok (self, state, R.skip reader size, skip_sprites)
       else if bool_decide (container_version self = Some 1) && (8 <=? size) then
         let reader := R.skip reader 7 in
         let size := size - 8 in
         if negb (Z.land info 0x02 =? 0) then
           Ok (self, state, R.skip reader size, skip_sprites)
         else
           reader ← sprite_walk (S (length (R.file reader))) reader size;
           Ok (self, state, reader, skip_sprites)
       else Raise (RuntimeError "Unknown info byte."));
  let sprite_index := sprite_index + 1 in
  '(size, reader) ← read_size self reader;
  Ok (mkLoop self state reader size skip_sprites sprite_index).

Fixpoint record_loop (fuel : nat) (ls : loop_state) : res loop_state :=
  if negb (ls_size ls =? 0) then
    match fuel with
    | O => OutOfFuel
    | S fuel => ls ← record_body ls; record_loop fuel ls
    end
  else Ok ls.

(** The block loop behind the sprites of a container-2 file. *)
Fixpoint v2_trailer (fuel : nat) (reader : R.t) (id : Z) : res R.t :=
  if negb (id =? 0) then
    match fuel with
    | O => OutOfFuel
    | S fuel =>
      '(size, reader) ← R.uint32 false reader;
      let reader := R.skip reader size in
      '(id, reader) ← R.uint32 false reader;
      v2_trailer fuel reader id
    end
  else Ok reader.

Definition GRF_MAGIC : bytes := z2b <$> [0x47; 0x52; 0x46; 0x82; 0x0D; 0x0A; 0x1A; 0x0A].

(** Reading the header: the container version and the first record size. *)
Definition read_header (self : t) (reader : R.t) : res (t * Z * R.t) :=
  '(size, reader) ← R.uint16 false reader;
  if size =? 0 then
    let '(magic, reader) := R.read reader 8 in
    if bytes_eq magic GRF_MAGIC then
      let self := set_container_version (Some 2) self in
      '(_, reader) ← R.uint32 false reader;
      '(compression, reader) ← R.uint8 reader;
      if negb (compression =? 0) then
        Raise (RuntimeError "Unknown container 2 compression.")
      else
        '(size, reader) ← R.uint32 false reader;
        Ok (self, size, reader)
    else Raise (RuntimeError "Neither container 1 nor 2.")
  else Ok (set_container_version (Some 1) self, size, reader).

(** Everything after the record loop.  The hash object is reachable both as
    the local [md5sum] and, until [detach_hash], as [reader.hash]: the model
    keeps its state in the reader and hands it to [md5sum] at the detach.
    The second [uint16] of container 1 sits in [try ... except Exception:
    pass]: its bytes are read, its length check is not acted on. *)
Definition read_trailer (self : t) (reader : R.t) : res t :=
  reader ←
    (if bool_decide (container_version self = Some 1) then
       '(_, reader) ← R.uint16 false reader;
       let '(_, reader) := R.read reader 2 in
       Ok reader
     else Ok reader);
  let md5sum := default md5_new (R.hash reader) in
  let reader := R.detach_hash reader in
  reader ←
    (if bool_decide (container_version self = Some 2) then
       '(id, reader) ← R.uint32 false reader;
       v2_trailer (S (length (R.file reader))) reader id
     else Ok reader);
  match R.uint8 reader with
  | Raise (RuntimeError _) => Ok (set_md5sum (Some (md5_digest md5sum)) self)
  | Ok _ => Raise (RuntimeError "Junk at the end of file.")
  | Raise e => Raise e
  | OutOfFuel => OutOfFuel
  end.

Definition read (self : t) (fp : bytes) : res t :=
  let md5sum := md5_new in
  let reader := R.mk fp (Some md5sum) in
  '(self, size, reader) ← read_header self reader;
  ls ← record_loop (S (length (R.file reader)))
         (mkLoop self new_ParserState reader size 0 0);
  read_trailer (ls_self ls) (ls_reader ls).

End NewGRF.

(** ** __main__.py *)
Module Main.

(** What [extract] does with the translations of one string: it decodes
    them, and moves the base text from 0x7F to the language 0x01 when that
    has no text, or else to 0x00 when that has none. *)
Definition lang_strings (translations : pydict Z bytes) : res (pydict Z pystr) :=
  lang_string ← GrfStrings.process_string translations;
  match dict_get 0x7F lang_string with
  | Some base_text =>
    let lang_string := dict_del 0x7F lang_string in
    if negb (dict_mem 0x01 lang_string) then Ok (dict_set 0x01 base_text lang_string)
    else if negb (dict_mem 0x00 lang_string) then Ok (dict_set 0x00 base_text lang_string)
    else Ok lang_string
  | None => Ok lang_string
  end.

End Main.

(** * Specification-side definitions *)

(** Modelled from the spec: the writer of gamma values is missing from the
    sources, which only read them.  Section 4.1 gives the layout: "0xxxxxxx" is
    one byte holding the low 7 bits, "10xxxxxx" two bytes, "110xxxxx" three
    bytes (the remaining bytes big-endian), "1110xxxx" four and "11110xxx"
    five.  [gamma_encode_as n v] is the [n]-byte form of [v], [gamma_encode v]
    the shortest form that holds [v]. *)
Definition gamma_prefix (n : nat) : Z :=
  match n with
  | 1%nat => 0x00 | 2%nat => 0x80 | 3%nat => 0xC0 | 4%nat => 0xE0 | _ => 0xF0
  end.

Definition gamma_encode_as (n : nat) (v : Z) : bytes :=
  z2b (Z.lor (gamma_prefix n) (v ≫ (8 * Z.of_nat (n - 1)))) :: rev (to_bytes_le (n - 1) v).

Definition gamma_length (v : Z) : nat :=
  if v <? 2 ^ 7 then 1
  else if v <? 2 ^ 14 then 2
  else if v <? 2 ^ 21 then 3
  else if v <? 2 ^ 28 then 4
  else 5.

Definition gamma_encode (v : Z) : bytes := gamma_encode_as (gamma_length v) v.

(** Modelled from the spec: the length class that the prefix bits of the
    first byte imply (section 4.1); the pattern "11111xxx" has none. *)
Definition gamma_class (b : Z) : option Z :=
  if b <? 0x80 then Some 1
  else if b <? 0xC0 then Some 2
  else if b <? 0xE0 then Some 3
  else if b <? 0xF0 then Some 4
  else if b <? 0xF8 then Some 5
  else None.

(** [rotate_n n s cc]: the rotate operation applied [n] times in a row. *)
Definition rotate_n (n : nat) (s : GrfStrings.TextRefStack) (cc : GrfStrings.ControlCode)
    : res GrfStrings.TextRefStack :=
  Nat.iter n (λ m, m ≫= λ s, GrfStrings.rotate_words s cc) (Ok s).

(** Sum of a list of widths. *)
Definition sumZ (l : list Z) : Z := foldr Z.add 0 l.

(** The control code that the loop body of [decodestr] runs for the code
    point [c], when the position after [c] is [p]: the extended table is
    indexed by the byte at [p], the primary table by [c - 0xE000]. *)
Definition dispatched_code (b : bytes) (c p : Z) : option GrfStrings.ControlCode :=
  if c =? 0xE09A then
    match index b p with
    | Ok x => Some (default GrfStrings.default_cc (GrfStrings.EXT_CTRL_CODES !! b2z x))
    | _ => None
    end
  else if (0xE000 <=? c) && (c <=? 0xE0FF) then
    Some (default GrfStrings.default_cc (GrfStrings.CTRL_CODES !! (c - 0xE000)))
  else None.

(** Runs of the [while] loop of [decodestr]: [decode_run b uni st st'] when
    the loop goes from [st] to [st'] in zero or more iterations, none of
    which raises. *)
Inductive decode_run (b : bytes) (uni : bool)
    : GrfStrings.dstate → GrfStrings.dstate → Prop :=
| run_here st : decode_run b uni st st
| run_step st st' st'' :
    GrfStrings.pos st < len b →
    GrfStrings.decode_step b uni st = Ok st' →
    decode_run b uni st' st'' →
    decode_run b uni st st''.

(** The state in which [decodestr] enters its loop. *)
Definition decode_init (b : bytes) : GrfStrings.dstate :=
  GrfStrings.mkDstate (if GrfStrings.is_unicode_marker b then 0 + 2 else 0) []
    GrfStrings.new_TextRefStack.

(** The last code point the loop decodes is the extended-code introducer
    [0xE09A] and it ends at the end of the input. *)
Definition ends_with_introducer (b : bytes) : Prop :=
  ∃ st p,
    decode_run b (GrfStrings.is_unicode_marker b) (decode_init b) st
    ∧ GrfStrings.pos st < len b
    ∧ GrfStrings.next_code b (GrfStrings.is_unicode_marker b) (GrfStrings.pos st)
      = Ok (0xE09A, p)
    ∧ len b ≤ p.

(** The exceptions that [decodestr] lets escape. *)
Definition decode_exn (e : exn) : Prop :=
  e = AssertionError ∨ e = IndexError ∨ e = ValueError.

(** The normalized text of one raw translation, when it decodes. *)
Definition decoded_text (raw_text : bytes) : option pystr :=
  match GrfStrings.decodestr raw_text with
  | Ok (text, _) => Some text
  | _ => None
  end.

(** Modelled from the spec: the writer of extended bytes is missing from the
    sources.  Section 8: "0–254 encodes as 1 byte; 255–65535 encodes as 0xFF
    + little-endian 16-bit". *)
Definition ext_encode (v : Z) : bytes :=
  if v <? 255 then [z2b v] else [xff; z2b (v `mod` 256); z2b (v `div` 256)].

(** Action 0x01 as the claim words its fallback, to compare with
    [NewGRF.action_01]: discard one byte, read the set count; when it is 0
    and at least 3 payload bytes are left, re-read the set count as an
    extended byte; read the entry count as an extended byte. *)
Definition action_01_as_claimed (pseudo : bytes) (reader : BinaryReader.t) : res Z :=
  '(_, reader) ← BinaryReader.uint8 reader;
  '(num_sets, reader) ← BinaryReader.uint8 reader;
  '(num_sets, reader) ←
    (if (num_sets =? 0) && (3 <=? len pseudo - 3) then BinaryReader.uint_ext reader
     else Ok (num_sets, reader));
  '(num_ent, reader) ← BinaryReader.uint_ext reader;
  Ok (num_sets * num_ent).

(** The runs of a container-1 sprite stream: [walk_runs data runs rest] when
    [data] starts with runs whose control bytes are [runs], each followed by
    the bytes it makes the walk skip (its literal bytes, or the one offset
    byte of a back-reference), and [rest] is what follows them. *)
Inductive walk_runs : bytes → list Z → bytes → Prop :=
| walk_done data : walk_runs data [] data
| walk_run c data runs rest :
    walk_runs (drop (Z.to_nat (if b2z c <? 0x80 then NewGRF.chunk_len (b2z c) else 1)) data)
      runs rest →
    walk_runs (c :: data) (b2z c :: runs) rest.

(** The length of a back-reference as the claim words it, "32 minus the low
    5 bits of the control byte", to compare with [NewGRF.chunk_len]. *)
Definition backref_len_as_claimed (i : Z) : Z := 32 - Z.land i 0x1F.

(** What the action dispatcher leaves alone in the metadata object: the
    container version always, and the feature map as long as no pending entry
    is armed. *)
Definition frame (self self' : NewGRF.t) : Prop :=
  NewGRF.container_version self' = NewGRF.container_version self
  ∧ (NewGRF._next_feature_map self = None →
     NewGRF._next_feature_map self' = None
     ∧ NewGRF._feature_mapping self' = NewGRF._feature_mapping self).

(** [hashed fp r]: the hash attached to [r] has been fed exactly the part of
    the file [fp] that lies before the cursor. *)
Definition hashed (fp : bytes) (r : BinaryReader.t) : Prop :=
  ∃ d, BinaryReader.hash r = Some d ∧ fp = d ++ BinaryReader.file r.

(** Two small files.  [v2_file]: a container-2 file with no record; its
    last four bytes are the zero tag that ends the trailer.  [v1_file]: a
    container-1 file with one pseudo-sprite record of one byte, the zero
    size that ends the records, and the four trailer bytes. *)
Definition v2_file : bytes :=
  [x00; x00] ++ NewGRF.GRF_MAGIC ++ [x10; x00; x00; x00; x00] ++ [x00; x00; x00; x00]
  ++ [x00; x00; x00; x00].

Definition v1_records : bytes := [x01; x00; xff; x00; x00; x00].
Definition v1_trailer : bytes := [x12; x34; x56; x78].
Definition v1_file : bytes := v1_records ++ v1_trailer.

(** An Action 14 payload: under the node "FIDM", a text leaf "NAME" that
    carries [road_stops] and a blob leaf "FTID" of the one byte 0x55.  And an
    Action 4 payload that names string 0 of feature 0x55 "Stop". *)
Definition fidm_payload : bytes :=
  [x14] ++ lit "CFIDM"
  ++ lit "TNAME" ++ [x7f] ++ lit "road_stops" ++ [x00]
  ++ lit "BFTID" ++ [x01; x00; x55]
  ++ [x00; x00].

Definition stop_name_payload : bytes :=
  [x04; x55; x7f; x01; x00] ++ lit "Stop" ++ [x00].

(** [raises_only P m]: the computation [m] ends, and when it ends with an
    exception, that exception satisfies [P]. *)
Definition raises_only (P : exn → Prop) {A} (m : res A) : Prop :=
  match m with
  | Ok _ => True
  | Raise e => P e
  | OutOfFuel => False
  end.

(** The exceptions that [NewGRF.read] lets escape. *)
Definition parse_exn (e : exn) : Prop :=
  (∃ msg, e = RuntimeError msg) ∨ e = UnicodeDecodeError.

(** A byte of plain text: printable ASCII from the space to [z], which is
    neither a control code nor a character with an alias. *)
Definition plain (x : byte) : bool := (0x20 <=? b2z x) && (b2z x <=? 0x7A).

(** The UTF-8 form of U+00DE, the marker of a Unicode string. *)
Definition unicode_marker : bytes := [xc3; x9e].

(** The texts of an Action 4, one after the other, each closed by NUL. *)
Definition nul_terminated (texts : list bytes) : bytes :=
  mjoin ((λ t, t ++ [x00]) <$> texts).

(** The entries of an Action 0x0A (a sprite count and two more bytes each)
    and of an Action 0x12 (a font byte, a sprite count and two more bytes
    each), as they lie in the payload. *)
Definition sets_0A (sets : list (byte * (byte * byte))) : bytes :=
  sets ≫= λ '(n, (a, b)), [n; a; b].

Definition defs_12 (defs : list (byte * (byte * (byte * byte)))) : bytes :=
  defs ≫= λ '(font, (n, (a, b))), [font; n; a; b].

(** [underflows cc s]: the control code [cc] asks the stack [s] for more
    than it holds, as a Standard code whose next declared width exceeds the
    slots left after the widths before it, or as RotateWords on fewer than 8
    slots. *)
Definition underflows (cc : GrfStrings.ControlCode) (s : GrfStrings.TextRefStack) : Prop :=
  (GrfStrings.command_handler cc = GrfStrings.H_standard_command
   ∧ ∃ pre size post,
       GrfStrings.stack_param_size cc = pre ++ size :: post
       ∧ Forall (λ w, 0 < w) pre
       ∧ sumZ pre ≤ len (GrfStrings.stack_index s)
       ∧ len (GrfStrings.stack_index s) - sumZ pre < size)
  ∨ (GrfStrings.command_handler cc = GrfStrings.H_rotate_words
     ∧ len (GrfStrings.stack_index s) < 8).

(** * Properties *)

(** ** Bytes *)

Lemma b2z_range (b : byte) : 0 ≤ b2z b < 256.
Proof. unfold b2z. pose proof (Byte.to_N_bounded b). lia. Qed.

Lemma b2z_z2b (z : Z) : 0 ≤ z < 256 → b2z (z2b z) = z.
Proof.
  intros Hz. unfold b2z, z2b.
  pose proof (Byte.to_of_N_option_map (Z.to_N z)) as H.
  destruct (Byte.of_N (Z.to_N z)) as [y|] eqn:E; simpl in *.
  - destruct (Z.to_N z <=? 255)%N; [|discriminate]. injection H as ->. lia.
  - destruct (Z.to_N z <=? 255)%N eqn:E'; [discriminate|]. apply N.leb_gt in E'. lia.
Qed.

Lemma z2b_b2z (b : byte) : z2b (b2z b) = b.
Proof. unfold b2z, z2b. rewrite N2Z.id, Byte.of_to_N. done. Qed.

Lemma res_bind_ok {A B} (m : res A) (f : A → res B) (b : B) :
  m ≫= f = Ok b → ∃ a, m = Ok a ∧ f a = Ok b.
Proof. destruct m; simpl; [eauto | done | done]. Qed.

(** ** The cursor: what an operation consumes is what it feeds the hash *)

Module R := BinaryReader.

(** [advances r r'] : [r'] is [r] after consuming some bytes [c], all of which
    went to the attached hash, if there is one. *)
Definition advances (r r' : R.t) : Prop :=
  ∃ c, R.file r = c ++ R.file r' ∧ R.hash r' = (λ h, h ++ c) <$> R.hash r.

Lemma advances_refl r : advances r r.
Proof.
  exists []. split; [done|]. destruct (R.hash r); simpl; [|done].
  by rewrite app_nil_r.
Qed.

Lemma advances_trans r1 r2 r3 : advances r1 r2 → advances r2 r3 → advances r1 r3.
Proof.
  intros (c1 & Hf1 & Hh1) (c2 & Hf2 & Hh2). exists (c1 ++ c2). split.
  - rewrite Hf1, Hf2. by rewrite app_assoc.
  - rewrite Hh2, Hh1. destruct (R.hash r1); simpl; [|done]. by rewrite app_assoc.
Qed.

Lemma advances_length r r' : advances r r' → (length (R.file r') ≤ length (R.file r))%nat.
Proof. intros (c & Hf & _). rewrite Hf, length_app. lia. Qed.

Lemma read_spec r n b r' :
  R.read r n = (b, r') →
  R.file r = b ++ R.file r' ∧ R.hash r' = (λ h, h ++ b) <$> R.hash r.
Proof.
  unfold R.read, R.file_read. destruct (n <? 0); intros [= <- <-]; simpl.
  - by rewrite app_nil_r.
  - by rewrite take_drop.
Qed.

Lemma read_advances r n : advances r (R.read r n).2.
Proof. destruct (R.read r n) as [b r'] eqn:E. exists b. by apply (read_spec r n). Qed.

Lemma skip_advances r n : advances r (R.skip r n).
Proof. apply read_advances. Qed.

Lemma read_length r n b r' :
  R.read r n = (b, r') → 0 ≤ n → length b = Nat.min (Z.to_nat n) (length (R.file r)).
Proof.
  unfold R.read, R.file_read. intros H Hn.
  destruct (n <? 0) eqn:E; [lia|]. injection H as <- <-. apply length_take.
Qed.

Lemma unpack_le_range (b : bytes) : 0 ≤ R.unpack_le b < 256 ^ Z.of_nat (length b).
Proof.
  induction b as [|x b IH]; [simpl; lia|].
  pose proof (b2z_range x). change (length (x :: b)) with (S (length b)).
  rewrite Nat2Z.inj_succ, Z.pow_succ_r by lia.
  change (R.unpack_le (x :: b)) with (b2z x + 256 * R.unpack_le b). lia.
Qed.

Lemma unpack_be_snoc (b : bytes) x : R.unpack_be (b ++ [x]) = 256 * R.unpack_be b + b2z x.
Proof. unfold R.unpack_be. by rewrite foldl_app. Qed.

Lemma unpack_be_range (b : bytes) : 0 ≤ R.unpack_be b < 256 ^ Z.of_nat (length b).
Proof.
  induction b as [|x b IH] using rev_ind; [unfold R.unpack_be; simpl; lia|].
  rewrite unpack_be_snoc, length_app, Nat2Z.inj_add, Z.pow_add_r by lia.
  pose proof (b2z_range x). simpl length. change (256 ^ Z.of_nat 1) with 256. lia.
Qed.

(** What a fixed-width read returns: a value in range with the cursor moved
    by the width, or the end-of-file error. *)
Definition fixed_read (n : nat) (r : R.t) (m : res (Z * R.t)) : Prop :=
  match m with
  | Ok (v, r') =>
    ∃ c, length c = n ∧ R.file r = c ++ R.file r'
         ∧ R.hash r' = (λ h, h ++ c) <$> R.hash r ∧ 0 ≤ v < 256 ^ Z.of_nat n
  | Raise e => e = RuntimeError "Unexpected end-of-file."
  | OutOfFuel => False
  end.

Lemma fixed_read_advances n r v r' : fixed_read n r (Ok (v, r')) → advances r r'.
Proof. intros (c & _ & ? & ? & _). by exists c. Qed.

Lemma fixed_read_length n r v r' :
  fixed_read n r (Ok (v, r')) → length (R.file r) = (n + length (R.file r'))%nat.
Proof. intros (c & Hc & Hf & _). by rewrite Hf, length_app, Hc. Qed.

Lemma uint8_spec r : fixed_read 1 r (R.uint8 r).
Proof.
  unfold R.uint8. destruct (R.read r 1) as [b r'] eqn:E.
  destruct (read_spec _ _ _ _ E) as [Hf Hh].
  case_decide as Hl; [done|].
  pose proof (unpack_le_range b) as Hr. rewrite Hl in Hr. by exists b.
Qed.

Lemma uint16_spec be r : fixed_read 2 r (R.uint16 be r).
Proof.
  unfold R.uint16. destruct (R.read r 2) as [b r'] eqn:E.
  destruct (read_spec _ _ _ _ E) as [Hf Hh].
  case_decide as Hl; [done|].
  pose proof (unpack_le_range b) as Hr. pose proof (unpack_be_range b) as Hr'.
  rewrite Hl in Hr, Hr'. exists b. by destruct be.
Qed.

Lemma uint32_spec be r : fixed_read 4 r (R.uint32 be r).
Proof.
  unfold R.uint32. destruct (R.read r 4) as [b r'] eqn:E.
  destruct (read_spec _ _ _ _ E) as [Hf Hh].
  case_decide as Hl; [done|].
  pose proof (unpack_le_range b) as Hr. pose proof (unpack_be_range b) as Hr'.
  rewrite Hl in Hr, Hr'. exists b. by destruct be.
Qed.

Lemma uint8_cons b rest h :
  R.uint8 (R.mk (b :: rest) h) = Ok (b2z b, R.mk rest (md5_update [b] <$> h)).
Proof. unfold R.uint8, R.read, R.file_read. simpl. rewrite drop_0. f_equal. f_equal. lia. Qed.

Lemma uint8_nil h : R.uint8 (R.mk [] h) = R.eof.
Proof. reflexivity. Qed.

Lemma uint8_ok r v r' :
  R.uint8 r = Ok (v, r') →
  ∃ b, v = b2z b ∧ R.file r = b :: R.file r' ∧ R.hash r' = (λ h, h ++ [b]) <$> R.hash r.
Proof.
  destruct r as [[|b rest] h]; [by rewrite uint8_nil|].
  rewrite uint8_cons. intros [= <- <-]. by exists b.
Qed.

(** ** Gamma values *)

Lemma lor_mul_add (a b k : Z) : 0 ≤ k → 0 ≤ b < 2 ^ k → Z.lor (a * 2 ^ k) b = a * 2 ^ k + b.
Proof.
  intros Hk Hb. symmetry. apply Z.add_nocarry_lor.
  apply Z.bits_inj'. intros n Hn. rewrite Z.land_spec, Z.bits_0.
  destruct (Z.lt_ge_cases n k) as [Hlt|Hge].
  - by rewrite Z.mul_pow2_bits_low.
  - rewrite (proj1 (Z.bounded_iff_bits_nonneg k b Hk (proj1 Hb)) (proj2 Hb) n Hge).
    apply andb_false_r.
Qed.

Lemma lor_shiftl_add (a b k : Z) : 0 ≤ k → 0 ≤ b < 2 ^ k → Z.lor (a ≪ k) b = a * 2 ^ k + b.
Proof. intros. rewrite Z.shiftl_mul_pow2 by done. by apply lor_mul_add. Qed.

(** The tests of [gamma] on the first byte are range tests. *)
Lemma gamma_tests (x : byte) :
  let b := b2z x in
  (Z.land b 0x80 =? 0) = (b <? 0x80)
  ∧ (Z.land b 0xC0 =? 0x80) = (0x80 <=? b) && (b <? 0xC0)
  ∧ (Z.land b 0xE0 =? 0xC0) = (0xC0 <=? b) && (b <? 0xE0)
  ∧ (Z.land b 0xF0 =? 0xE0) = (0xE0 <=? b) && (b <? 0xF0)
  ∧ (Z.land b 0xF8 =? 0xF0) = (0xF0 <=? b) && (b <? 0xF8).
Proof. destruct x; repeat split; reflexivity. Qed.

Lemma gamma_masks (b : Z) :
  Z.land b 0x7F = b `mod` 2 ^ 7 ∧ Z.land b 0x3F = b `mod` 2 ^ 6
  ∧ Z.land b 0x1F = b `mod` 2 ^ 5 ∧ Z.land b 0x0F = b `mod` 2 ^ 4
  ∧ Z.land b 0x07 = b `mod` 2 ^ 3.
Proof. repeat split; by rewrite <- Z.land_ones. Qed.

Lemma uint16_cons be b0 b1 rest h :
  R.uint16 be (R.mk (b0 :: b1 :: rest) h)
  = Ok (if be then 256 * b2z b0 + b2z b1 else b2z b0 + 256 * b2z b1,
        R.mk rest (md5_update [b0; b1] <$> h)).
Proof.
  unfold R.uint16, R.read, R.file_read. simpl. rewrite drop_0, take_0.
  destruct be; unfold R.unpack_be, R.unpack_le; simpl; f_equal; f_equal; lia.
Qed.

Lemma lor3_bytes (a b c : Z) :
  0 ≤ a < 256 → 0 ≤ b < 256 → 0 ≤ c < 256 →
  Z.lor (Z.lor (a ≪ 16) (b ≪ 8)) c = 65536 * a + 256 * b + c.
Proof.
  intros Ha Hb Hc.
  rewrite (lor_shiftl_add a _ 16) by (rewrite ?Z.shiftl_mul_pow2; lia).
  rewrite Z.shiftl_mul_pow2 by lia.
  replace (a * 2 ^ 16 + b * 2 ^ 8) with ((a * 256 + b) * 2 ^ 8) by lia.
  rewrite lor_mul_add by lia. lia.
Qed.

Lemma uint24_spec be r : fixed_read 3 r (R.uint24 be r).
Proof.
  unfold R.uint24. destruct (R.read r 3) as [b r'] eqn:E.
  destruct (read_spec _ _ _ _ E) as [Hf Hh].
  destruct b as [|b0 [|b1 [|b2 [|]]]]; try done.
  pose proof (b2z_range b0). pose proof (b2z_range b1). pose proof (b2z_range b2).
  exists [b0; b1; b2]. repeat split; try done; destruct be; rewrite lor3_bytes by done; lia.
Qed.

Lemma uint24_cons_be b0 b1 b2 rest h :
  R.uint24 true (R.mk (b0 :: b1 :: b2 :: rest) h)
  = Ok (65536 * b2z b0 + 256 * b2z b1 + b2z b2, R.mk rest (md5_update [b0; b1; b2] <$> h)).
Proof.
  unfold R.uint24, R.read, R.file_read. simpl. rewrite drop_0, take_0.
  by rewrite lor3_bytes by apply b2z_range.
Qed.

Lemma uint32_cons be b0 b1 b2 b3 rest h :
  R.uint32 be (R.mk (b0 :: b1 :: b2 :: b3 :: rest) h)
  = Ok (if be then 16777216 * b2z b0 + 65536 * b2z b1 + 256 * b2z b2 + b2z b3
        else b2z b0 + 256 * b2z b1 + 65536 * b2z b2 + 16777216 * b2z b3,
        R.mk rest (md5_update [b0; b1; b2; b3] <$> h)).
Proof.
  unfold R.uint32, R.read, R.file_read. simpl. rewrite drop_0, take_0.
  destruct be; unfold R.unpack_be, R.unpack_le; simpl; f_equal; f_equal; lia.
Qed.

Lemma hash_update2 (h : option md5_obj) a b :
  md5_update b <$> (md5_update a <$> h) = md5_update (a ++ b) <$> h.
Proof. destruct h; simpl; [|done]. unfold md5_update. by rewrite app_assoc. Qed.

Ltac decide_tests :=
  repeat match goal with
  | |- context [?a <? ?b] => destruct (Z.ltb_spec a b); try lia
  | |- context [?a <=? ?b] => destruct (Z.leb_spec a b); try lia
  | |- context [?a =? ?b] => destruct (Z.eqb_spec a b); try lia
  end.

Lemma mod256_range z : 0 ≤ z `mod` 256 < 256.
Proof. apply Z.mod_pos_bound. lia. Qed.

Lemma mod_prefix (c j hi : Z) : 0 ≤ j → 0 ≤ hi < 2 ^ j → (c * 2 ^ j + hi) `mod` 2 ^ j = hi.
Proof.
  intros Hj Hhi. rewrite Z.add_comm, Z.mod_add by lia. by apply Z.mod_small.
Qed.

Lemma split_div_mod_256 (v : Z) : v = (v `div` 256) * 256 + v `mod` 256.
Proof. pose proof (Z.div_mod v 256). lia. Qed.

Lemma gamma_encode_as_decode (n : nat) (v : Z) rest h :
  (1 ≤ n ≤ 5)%nat → 0 ≤ v < 2 ^ (7 * Z.of_nat n) →
  R.gamma (R.mk (gamma_encode_as n v ++ rest) h)
  = Ok ((v, Z.of_nat n), R.mk rest (md5_update (gamma_encode_as n v) <$> h)).
Proof.
  intros Hn Hv.
  assert (n = 1 ∨ n = 2 ∨ n = 3 ∨ n = 4 ∨ n = 5)%nat as Hcases by lia.
  unfold gamma_encode_as.
  set (k := 8 * Z.of_nat (n - 1)).
  set (hi := v ≫ k).
  assert (0 ≤ k) by lia.
  assert (Hhi : hi = v `div` 2 ^ k) by (apply Z.shiftr_div_pow2; lia).
  assert (Hb : 0 ≤ hi < 2 ^ (8 - Z.of_nat n)).
  { rewrite Hhi. split; [apply Z.div_pos; lia|].
    apply Z.div_lt_upper_bound; [lia|]. rewrite <- Z.pow_add_r by lia.
    replace (k + (8 - Z.of_nat n)) with (7 * Z.of_nat n) by lia. lia. }
  assert (Hlor : Z.lor (gamma_prefix n) hi = gamma_prefix n + hi).
  { destruct Hcases as [->|[->|[->|[->| ->]]]]; simpl in Hb; simpl gamma_prefix.
    - apply Z.lor_0_l.
    - apply (lor_mul_add 2 hi 6); lia.
    - apply (lor_mul_add 6 hi 5); lia.
    - apply (lor_mul_add 14 hi 4); lia.
    - apply (lor_mul_add 30 hi 3); lia. }
  rewrite Hlor. set (x := z2b (gamma_prefix n + hi)).
  assert (Hx : b2z x = gamma_prefix n + hi).
  { apply b2z_z2b. destruct Hcases as [->|[->|[->|[->| ->]]]]; simpl in Hb; simpl gamma_prefix; lia. }
  destruct (gamma_tests x) as (T1 & T2 & T3 & T4 & T5).
  destruct (gamma_masks (b2z x)) as (M1 & M2 & M3 & M4 & M5).
  unfold R.gamma.
  destruct Hcases as [->|[->|[->|[->| ->]]]];
    cbn [Nat.sub to_bytes_le rev app]; rewrite uint8_cons; cbn [mbind res_bind];
    rewrite ?T1, ?T2, ?T3, ?T4, ?T5, ?M1, ?M2, ?M3, ?M4, ?M5, ?Hx;
    clear T1 T2 T3 T4 T5 M1 M2 M3 M4 M5;
    simpl gamma_prefix in *; simpl in Hb; simpl in k; subst k.
  - decide_tests. f_equal. f_equal. f_equal.
    rewrite Hhi. change (2 ^ 0) with 1. rewrite Z.div_1_r.
    apply Z.mod_small. simpl in Hv. lia.
  - decide_tests. cbn [andb]. rewrite uint8_cons. cbn [mbind res_bind].
    rewrite hash_update2, b2z_z2b by apply mod256_range.
    f_equal. f_equal. f_equal.
    rewrite (mod_prefix 2 6) by lia.
    rewrite lor_shiftl_add by (try apply mod256_range; lia).
    rewrite Hhi. change (2 ^ 8) with 256. symmetry. apply split_div_mod_256.
  - decide_tests. cbn [andb]. rewrite uint16_cons. cbn [mbind res_bind].
    rewrite hash_update2, !b2z_z2b by apply mod256_range.
    f_equal. f_equal. f_equal.
    rewrite (mod_prefix 6 5) by lia.
    pose proof (mod256_range v). pose proof (mod256_range (v `div` 256)).
    rewrite lor_shiftl_add by lia.
    rewrite Hhi. change (2 ^ 16) with 65536. clear -Hv.
    Z.div_mod_to_equations; lia.
  - decide_tests. cbn [andb]. rewrite uint24_cons_be. cbn [mbind res_bind].
    rewrite hash_update2, !b2z_z2b by apply mod256_range.
    f_equal. f_equal. f_equal.
    rewrite (mod_prefix 14 4) by lia.
    pose proof (mod256_range v). pose proof (mod256_range (v `div` 256)).
    pose proof (mod256_range ((v `div` 256) `div` 256)).
    rewrite lor_shiftl_add by lia.
    rewrite Hhi. change (2 ^ 24) with 16777216. clear -Hv.
    Z.div_mod_to_equations; lia.
  - decide_tests. cbn [andb]. rewrite uint32_cons. cbn [mbind res_bind].
    rewrite hash_update2, !b2z_z2b by apply mod256_range.
    f_equal. f_equal. f_equal.
    rewrite (mod_prefix 30 3) by lia.
    pose proof (mod256_range v). pose proof (mod256_range (v `div` 256)).
    pose proof (mod256_range ((v `div` 256) `div` 256)).
    pose proof (mod256_range (((v `div` 256) `div` 256) `div` 256)).
    rewrite lor_shiftl_add by lia.
    rewrite Hhi. change (2 ^ 32) with 4294967296. clear -Hv.
    Z.div_mod_to_equations; lia.
Qed.

Lemma gamma_class_range (b n : Z) :
  gamma_class b = Some n → 1 ≤ n ≤ 5.
Proof. unfold gamma_class. repeat case_match; intros [= <-]; lia. Qed.

Lemma gamma_inv r v n r' :
  R.gamma r = Ok ((v, n), r') →
  ∃ b c, R.file r = b :: c ++ R.file r'
         ∧ R.hash r' = (λ h, h ++ b :: c) <$> R.hash r
         ∧ gamma_class (b2z b) = Some n
         ∧ Z.of_nat (length (b :: c)) = n
         ∧ 0 ≤ v < 2 ^ (7 * n).
Proof.
  unfold R.gamma. intros H.
  apply res_bind_ok in H as ([b0 r0] & H8 & H).
  apply uint8_ok in H8 as (b & -> & Hf & Hh).
  destruct (gamma_tests b) as (T1 & T2 & T3 & T4 & T5).
  destruct (gamma_masks (b2z b)) as (M1 & M2 & M3 & M4 & M5).
  rewrite T1, T2, T3, T4, T5, M1, M2, M3, M4, M5 in H.
  clear T1 T2 T3 T4 T5 M1 M2 M3 M4 M5.
  pose proof (b2z_range b) as Hb. unfold gamma_class.
  assert (Hcomb : ∀ k (x : Z) (c : bytes) j,
    R.file r0 = c ++ R.file r' → R.hash r' = (λ h, h ++ c) <$> R.hash r0 →
    length c = k → 0 ≤ x < 256 ^ Z.of_nat k → 0 ≤ j → j + 8 * Z.of_nat k = 7 * (1 + Z.of_nat k) →
    R.file r = b :: c ++ R.file r' ∧ R.hash r' = (λ h, h ++ b :: c) <$> R.hash r
    ∧ Z.of_nat (length (b :: c)) = 1 + Z.of_nat k
    ∧ 0 ≤ Z.lor ((b2z b `mod` 2 ^ j) ≪ (8 * Z.of_nat k)) x < 2 ^ (7 * (1 + Z.of_nat k))).
  { intros k x c j Hf' Hh' Hc Hx Hj Hjk. split; [by rewrite Hf, Hf'|]. split.
    { rewrite Hh', Hh. destruct (R.hash r); simpl; [|done]. by rewrite <- app_assoc. }
    split; [simpl; lia|].
    replace (256 ^ Z.of_nat k) with (2 ^ (8 * Z.of_nat k)) in Hx
      by (rewrite Z.pow_mul_r by lia; done).
    rewrite lor_shiftl_add by lia.
    pose proof (Z.mod_pos_bound (b2z b) (2 ^ j) ltac:(lia)) as Hm.
    rewrite <- Hjk, Z.pow_add_r by lia. nia. }
  destruct (Z.ltb_spec (b2z b) 128).
  { injection H as <- <- <-. exists b, []. split; [done|]. split; [done|].
    split; [decide_tests; done|]. split; [done|]. apply Z.mod_pos_bound. lia. }
  destruct (Z.ltb_spec (b2z b) 192).
  { replace (128 <=? b2z b) with true in H by (symmetry; apply Z.leb_le; lia). simpl in H.
    apply res_bind_ok in H as ([x r1] & Hr & [= <- <- <-]).
    pose proof (uint8_spec r0) as Hs. rewrite Hr in Hs. destruct Hs as (c & Hc & Hf' & Hh' & Hx).
    exists b, c.
    destruct (Hcomb 1%nat x c 6 Hf' Hh' Hc Hx ltac:(lia) ltac:(lia)) as (? & ? & ? & ?).
    split; [done|]. split; [done|]. split; [decide_tests; done|]. split; done. }
  destruct (Z.ltb_spec (b2z b) 224).
  { replace (192 <=? b2z b) with true in H by (symmetry; apply Z.leb_le; lia).
    replace (128 <=? b2z b) with true in H by (symmetry; apply Z.leb_le; lia). simpl in H.
    apply res_bind_ok in H as ([x r1] & Hr & [= <- <- <-]).
    pose proof (uint16_spec true r0) as Hs. rewrite Hr in Hs. destruct Hs as (c & Hc & Hf' & Hh' & Hx).
    exists b, c.
    destruct (Hcomb 2%nat x c 5 Hf' Hh' Hc Hx ltac:(lia) ltac:(lia)) as (? & ? & ? & ?).
    split; [done|]. split; [done|]. split; [decide_tests; done|]. split; done. }
  destruct (Z.ltb_spec (b2z b) 240).
  { replace (224 <=? b2z b) with true in H by (symmetry; apply Z.leb_le; lia).
    replace (192 <=? b2z b) with true in H by (symmetry; apply Z.leb_le; lia).
    replace (128 <=? b2z b) with true in H by (symmetry; apply Z.leb_le; lia). simpl in H.
    apply res_bind_ok in H as ([x r1] & Hr & [= <- <- <-]).
    pose proof (uint24_spec true r0) as Hs. rewrite Hr in Hs. destruct Hs as (c & Hc & Hf' & Hh' & Hx).
    exists b, c.
    destruct (Hcomb 3%nat x c 4 Hf' Hh' Hc Hx ltac:(lia) ltac:(lia)) as (? & ? & ? & ?).
    split; [done|]. split; [done|]. split; [decide_tests; done|]. split; done. }
  destruct (Z.ltb_spec (b2z b) 248).
  { replace (240 <=? b2z b) with true in H by (symmetry; apply Z.leb_le; lia).
    replace (224 <=? b2z b) with true in H by (symmetry; apply Z.leb_le; lia).
    replace (192 <=? b2z b) with true in H by (symmetry; apply Z.leb_le; lia).
    replace (128 <=? b2z b) with true in H by (symmetry; apply Z.leb_le; lia). simpl in H.
    apply res_bind_ok in H as ([x r1] & Hr & [= <- <- <-]).
    pose proof (uint32_spec true r0) as Hs. rewrite Hr in Hs. destruct Hs as (c & Hc & Hf' & Hh' & Hx).
    exists b, c.
    destruct (Hcomb 4%nat x c 3 Hf' Hh' Hc Hx ltac:(lia) ltac:(lia)) as (? & ? & ? & ?).
    split; [done|]. split; [done|]. split; [decide_tests; done|]. split; done. }
  replace (240 <=? b2z b) with true in H by (symmetry; apply Z.leb_le; lia).
  replace (224 <=? b2z b) with true in H by (symmetry; apply Z.leb_le; lia).
  replace (192 <=? b2z b) with true in H by (symmetry; apply Z.leb_le; lia).
  replace (128 <=? b2z b) with true in H by (symmetry; apply Z.leb_le; lia). done.
Qed.

Lemma gamma_invalid_prefix (b : byte) rest h :
  0xF8 ≤ b2z b → R.gamma (R.mk (b :: rest) h) = Raise (RuntimeError "Invalid gamma encoding.").
Proof.
  intros Hb. unfold R.gamma. rewrite uint8_cons. cbn [mbind res_bind].
  destruct (gamma_tests b) as (-> & -> & -> & -> & ->).
  decide_tests. done.
Qed.

Lemma gamma_length_range v : 0 ≤ v < 2 ^ 35 →
  (1 ≤ gamma_length v ≤ 5)%nat ∧ 0 ≤ v < 2 ^ (7 * Z.of_nat (gamma_length v)).
Proof.
  intros Hv. unfold gamma_length.
  destruct (Z.ltb_spec v (2 ^ 7)); [simpl; lia|].
  destruct (Z.ltb_spec v (2 ^ 14)); [simpl; lia|].
  destruct (Z.ltb_spec v (2 ^ 21)); [simpl; lia|].
  destruct (Z.ltb_spec v (2 ^ 28)); simpl; lia.
Qed.

Lemma gamma_encode_length v : length (gamma_encode v) = gamma_length v.
Proof.
  unfold gamma_encode, gamma_encode_as, gamma_length.
  repeat case_match; reflexivity.
Qed.

Lemma gamma_prefix_11111 (b : byte) : Z.land (b2z b) 0xF8 = 0xF8 → 0xF8 ≤ b2z b.
Proof. destruct b; vm_compute; congruence. Qed.

(** C6 (amended).  For every value [v] with [0 <= v < 2^35], decoding the
    gamma encoding of [v] yields [v] and the number of bytes of the encoding;
    whenever [gamma] returns [(v, n)] it has consumed exactly [n] bytes and
    [n], between 1 and 5, is the length class of the prefix bits of the first
    byte; a first byte of the form 11111xxx makes it raise "Invalid gamma
    encoding.". *)
Theorem gamma_roundtrip :
  (∀ v rest h, 0 ≤ v < 2 ^ 35 →
     R.gamma (R.mk (gamma_encode v ++ rest) h)
     = Ok ((v, len (gamma_encode v)), R.mk rest (md5_update (gamma_encode v) <$> h)))
  ∧ (∀ r v n r', R.gamma r = Ok ((v, n), r') →
       ∃ b c, R.file r = b :: c ++ R.file r'
              ∧ gamma_class (b2z b) = Some n ∧ len (b :: c) = n ∧ 1 ≤ n ≤ 5)
  ∧ (∀ b rest h, Z.land (b2z b) 0xF8 = 0xF8 →
       R.gamma (R.mk (b :: rest) h) = Raise (RuntimeError "Invalid gamma encoding.")).
Proof.
  split; [|split].
  - intros v rest h Hv. destruct (gamma_length_range v Hv) as [Hn Hr].
    unfold len. rewrite gamma_encode_length. by apply gamma_encode_as_decode.
  - intros r v n r' H. apply gamma_inv in H as (b & c & Hf & _ & Hc & Hl & _).
    exists b, c. repeat split; try done; eapply gamma_class_range; done.
  - intros b rest h Hb. apply gamma_invalid_prefix. by apply gamma_prefix_11111.
Qed.

Lemma gamma_roundtrip_witness :
  R.gamma (R.mk (gamma_encode 300 ++ [x2a]) None)
  = Ok ((300, len (gamma_encode 300)), R.mk [x2a] (md5_update (gamma_encode 300) <$> None)).
Proof. apply (proj1 gamma_roundtrip 300 [x2a] None). lia. Defined.

(** No byte string decodes to [2^35]: the five-byte form holds 35 bits. *)
Lemma gamma_no_encoding_of_2_35 :
  ¬ ∃ r n r', R.gamma r = Ok ((2 ^ 35, n), r').
Proof.
  intros (r & n & r' & H). apply gamma_inv in H as (b & c & _ & _ & Hc & _ & Hv).
  apply gamma_class_range in Hc.
  assert (2 ^ (7 * n) ≤ 2 ^ 35) by (apply Z.pow_le_mono_r; lia). lia.
Qed.

(** ** The text reference stack *)
Import GrfStrings.

Lemma rotate_words_8 a b c d e f g h rest cmds cc :
  rotate_words (mkTextRefStack (a :: b :: c :: d :: e :: f :: g :: h :: rest) cmds) cc
  = Ok (mkTextRefStack (g :: h :: a :: b :: c :: d :: e :: f :: rest) cmds).
Proof.
  unfold rotate_words, set_slice, slice, slice_bound, len. cbn [stack_index commands].
  set (l := a :: b :: c :: d :: e :: f :: g :: h :: rest).
  assert (Hl : Z.of_nat (length l) = 8 + Z.of_nat (length rest)) by (unfold l; simpl length; lia).
  rewrite Hl.
  destruct (Z.ltb_spec (8 + Z.of_nat (length rest)) 8); [lia|].
  change (0 <? 0) with false. change (8 <? 0) with false. change (6 <? 0) with false.
  cbv iota.
  rewrite !Z.min_l, Z.max_r by lia.
  change (Z.to_nat (8 - 6)) with 2%nat. change (Z.to_nat (6 - 0)) with 6%nat.
  change (Z.to_nat 0) with 0%nat. change (Z.to_nat 6) with 6%nat. change (Z.to_nat 8) with 8%nat.
  reflexivity.
Qed.

Lemma rotate_words_short s cc :
  len (stack_index s) < 8 → rotate_words s cc = Raise AssertionError.
Proof. intros H. unfold rotate_words. by destruct (Z.ltb_spec (len (stack_index s)) 8); [|lia]. Qed.

Lemma rotate_n_S n s cc :
  rotate_n (S n) s cc = rotate_n n s cc ≫= λ s, rotate_words s cc.
Proof. reflexivity. Qed.

Lemma rotate_n_0 s cc : rotate_n 0 s cc = Ok s.
Proof. reflexivity. Qed.

(** C7.  On a stack that holds at least 8 slots, [rotate_words] succeeds,
    puts the slots of positions 6 and 7 in front, moves those of positions 0
    to 5 back by two and leaves the rest and the commands alone; applied 4
    times it gives the stack it started from. *)
Theorem rotate_words_cycle (s : TextRefStack) (cc : ControlCode) :
  8 ≤ len (stack_index s) →
  ∃ s', rotate_words s cc = Ok s'
    ∧ commands s' = commands s
    ∧ length (stack_index s') = length (stack_index s)
    ∧ (∀ i, (i < 2)%nat → stack_index s' !! i = stack_index s !! (6 + i)%nat)
    ∧ (∀ i, (2 ≤ i < 8)%nat → stack_index s' !! i = stack_index s !! (i - 2)%nat)
    ∧ (∀ i, (8 ≤ i)%nat → stack_index s' !! i = stack_index s !! i)
    ∧ rotate_n 4 s cc = Ok s.
Proof.
  destruct s as [l cmds]. unfold len. cbn [stack_index commands]. intros Hl.
  destruct l as [|a [|b [|c [|d [|e [|f [|g [|h rest]]]]]]]]; simpl in Hl; try lia.
  eexists. split; [apply rotate_words_8|]. cbn [stack_index commands].
  split; [done|]. split; [done|]. split; [|split; [|split]].
  - intros [|[|i]] Hi; try lia; reflexivity.
  - intros i Hi. do 8 (destruct i as [|i]; try lia; try reflexivity).
  - intros i Hi. do 8 (destruct i as [|i]; try lia). reflexivity.
  - rewrite !rotate_n_S, rotate_n_0. cbn [mbind res_bind].
    do 3 (rewrite rotate_words_8; cbn [mbind res_bind]). apply rotate_words_8.
Qed.

Lemma rotate_words_cycle_witness :
  ∃ s', rotate_words new_TextRefStack default_cc = Ok s'
    ∧ commands s' = commands new_TextRefStack
    ∧ length (stack_index s') = length (stack_index new_TextRefStack)
    ∧ (∀ i, (i < 2)%nat → stack_index s' !! i = stack_index new_TextRefStack !! (6 + i)%nat)
    ∧ (∀ i, (2 ≤ i < 8)%nat → stack_index s' !! i = stack_index new_TextRefStack !! (i - 2)%nat)
    ∧ (∀ i, (8 ≤ i)%nat → stack_index s' !! i = stack_index new_TextRefStack !! i)
    ∧ rotate_n 4 new_TextRefStack default_cc = Ok new_TextRefStack.
Proof. apply (rotate_words_cycle new_TextRefStack default_cc). vm_compute. discriminate. Defined.

Lemma del_slice_front {A} (l : list A) (w : Z) :
  0 ≤ w ≤ len l → del_slice l 0 w = drop (Z.to_nat w) l.
Proof.
  intros Hw. unfold del_slice, set_slice, slice_bound.
  change (0 <? 0) with false. cbv iota.
  destruct (Z.ltb_spec w 0); [lia|].
  rewrite Z.min_l by lia. rewrite (Z.min_l w) by lia. rewrite Z.max_r by lia.
  reflexivity.
Qed.

Lemma len_drop {A} (l : list A) (w : Z) : 0 ≤ w ≤ len l → len (drop (Z.to_nat w) l) = len l - w.
Proof. unfold len. rewrite length_drop. lia. Qed.

Lemma index_0_ok {A} (l : list A) : 0 < len l → ∃ x, index l 0 = Ok x.
Proof.
  destruct l as [|x l]; unfold len; simpl length; [lia|]. intros _. exists x.
  unfold index, len. simpl length. change (0 <? 0) with false. cbv iota.
  destruct (Z.leb_spec (Z.of_nat (S (length l))) 0); [lia|]. reflexivity.
Qed.

Lemma consume_params_step size sizes stk tc :
  0 < size ≤ len stk →
  ∃ tc', consume_params (size :: sizes) stk tc
         = consume_params sizes (drop (Z.to_nat size) stk) tc'.
Proof.
  intros Hs. cbn [consume_params].
  destruct (Z.ltb_spec (len stk) size); [lia|].
  destruct (index_0_ok stk) as [x ->]; [lia|]. cbn [mbind res_bind].
  rewrite del_slice_front by lia. eauto.
Qed.

(** The loop stops with [AssertionError] at the first width that exceeds
    what is left of the stack. *)
Lemma consume_params_underflow pre size post stk tc :
  Forall (λ w, 0 < w) pre → sumZ pre ≤ len stk → len stk - sumZ pre < size →
  consume_params (pre ++ size :: post) stk tc = Raise AssertionError.
Proof.
  revert stk tc. induction pre as [|w pre IH]; intros stk tc Hpos Hsum Hsize.
  - cbn [app consume_params]. simpl in Hsize.
    by destruct (Z.ltb_spec (len stk) size); [|lia].
  - apply Forall_cons in Hpos as [Hw Hpos]. cbn [sumZ foldr] in Hsum, Hsize.
    fold (sumZ pre) in Hsum, Hsize.
    assert (0 ≤ sumZ pre).
    { clear -Hpos. induction Hpos; cbn [sumZ foldr]; [lia|]. fold (sumZ l). lia. }
    cbn [app]. destruct (consume_params_step w (pre ++ size :: post) stk tc) as [tc' ->]; [lia|].
    apply IH; [done| |]; rewrite len_drop by lia; lia.
Qed.

(** A successful run of the loop takes exactly the declared widths off the
    front of the stack. *)
Lemma consume_params_ok sizes stk tc stk' tc' :
  Forall (λ w, 0 ≤ w) sizes →
  consume_params sizes stk tc = Ok (stk', tc') →
  ∃ removed, stk = removed ++ stk' ∧ len removed = sumZ sizes.
Proof.
  revert stk tc. induction sizes as [|w sizes IH]; intros stk tc Hpos H.
  - injection H as <- <-. by exists [].
  - apply Forall_cons in Hpos as [Hw Hpos]. cbn [consume_params] in H.
    destruct (Z.ltb_spec (len stk) w); [done|].
    destruct (index stk 0) as [x| |]; [|done..]. cbn [mbind res_bind] in H.
    rewrite del_slice_front in H by lia.
    apply IH in H as (removed & Hr & Hl); [|done].
    exists (take (Z.to_nat w) stk ++ removed). split.
    + by rewrite <- app_assoc, <- Hr, take_drop.
    + unfold len in *. rewrite length_app, length_take. cbn [sumZ foldr]. fold (sumZ sizes). lia.
Qed.

Lemma standard_command_ok s cc s' :
  Forall (λ w, 0 ≤ w) (stack_param_size cc) →
  standard_command s cc = Ok s' →
  ∃ removed, stack_index s = removed ++ stack_index s'
             ∧ len removed = sumZ (stack_param_size cc).
Proof.
  intros Hpos. unfold standard_command.
  destruct (negb (inline_param_size cc =? 0) || negb (bool_decide (stack_param_size cc = []))) eqn:Hg.
  - intros H. apply res_bind_ok in H as ([stk tc] & Hc & H).
    apply consume_params_ok in Hc as (removed & Hr & Hl); [|done].
    exists removed. split; [|done]. cbv beta iota in H.
    by destruct (negb (bool_decide (tc_base_name tc = []))); injection H as <-.
  - intros [= <-]. exists []. split; [done|].
    apply orb_false_elim in Hg as [_ Hg]. apply negb_false_iff, bool_decide_eq_true in Hg.
    by rewrite Hg.
Qed.

Lemma decode_loop_raise fuel b uni st e :
  pos st < len b → decode_step b uni st = Raise e →
  decode_loop (S fuel) b uni st = Raise e.
Proof.
  intros Hp He. cbn [decode_loop]. destruct (Z.ltb_spec (pos st) (len b)); [|lia].
  by rewrite He.
Qed.

Lemma decode_step_handler_raise b uni st c p cc e :
  next_code b uni (pos st) = Ok (c, p) →
  dispatched_code b c p = Some cc →
  call_handler cc (stack st) = Raise e →
  decode_step b uni st = Raise e.
Proof.
  intros Hn Hd Hh. unfold decode_step. rewrite Hn. cbn [mbind res_bind].
  unfold dispatch, dispatched_code in *. cbn [pos result stack].
  destruct (c =? 0xE09A).
  - destruct (index b p) as [x| |]; [|discriminate..].
    apply (inj Some) in Hd. subst cc. cbn [mbind res_bind].
    unfold run_code. cbn [pos result stack]. rewrite Hh. reflexivity.
  - destruct ((0xE000 <=? c) && (c <=? 0xE0FF)); [|discriminate].
    apply (inj Some) in Hd. subst cc.
    unfold run_code. cbn [pos result stack]. rewrite Hh. reflexivity.
Qed.

(** ** The string decoder *)

Lemma CTRL_CODES_inline k cc : CTRL_CODES !! k = Some cc → 0 ≤ inline_param_size cc.
Proof.
  unfold CTRL_CODES. intros H. apply elem_of_list_to_map_2 in H.
  eapply (proj1 (Forall_forall (λ p, 0 ≤ inline_param_size p.2) _)) in H; [exact H|].
  repeat (apply Forall_cons; split; [vm_compute; congruence|]). apply Forall_nil_2.
Qed.

Lemma EXT_CTRL_CODES_inline k cc : EXT_CTRL_CODES !! k = Some cc → 0 ≤ inline_param_size cc.
Proof.
  unfold EXT_CTRL_CODES. intros H. apply elem_of_list_to_map_2 in H.
  eapply (proj1 (Forall_forall (λ p, 0 ≤ inline_param_size p.2) _)) in H; [exact H|].
  repeat (apply Forall_cons; split; [vm_compute; congruence|]). apply Forall_nil_2.
Qed.

Lemma default_cc_inline (o : option ControlCode) :
  (∀ cc, o = Some cc → 0 ≤ inline_param_size cc) →
  0 ≤ inline_param_size (default default_cc o).
Proof. destruct o as [cc|]; simpl; [intros H; by apply H|done]. Qed.

Lemma getutf8_size b p sz c :
  getutf8 b p = (sz, c) → (sz = 0 ∧ c = None) ∨ (1 ≤ sz ≤ 4 ∧ is_Some c).
Proof.
  unfold getutf8. repeat case_match; intros [= <- <-]; (left; done) || (right; split; [lia|eauto]).
Qed.

Lemma index_not_fuel {A} (l : list A) i : index l i ≠ OutOfFuel.
Proof. unfold index. repeat case_match; done. Qed.

Lemma index_out_of_range {A} (l : list A) i : len l ≤ i → index l i = Raise IndexError.
Proof.
  intros H. unfold index. assert (0 ≤ len l) by (unfold len; lia).
  destruct (Z.ltb_spec i 0); [lia|].
  destruct (Z.ltb_spec i 0); [lia|]. destruct (Z.leb_spec (len l) i); [|lia]. done.
Qed.

Lemma next_code_advances b uni p c p' :
  next_code b uni p = Ok (c, p') → p + 1 ≤ p'.
Proof.
  unfold next_code. destruct uni.
  - destruct (getutf8 b p) as [sz oc] eqn:E. apply getutf8_size in E.
    destruct (Z.eqb_spec sz 0).
    + destruct (index b p); cbn [mbind res_bind]; [|done..]. intros [= <- <-]. lia.
    + destruct oc; [|done]. intros [= <- <-]. destruct E as [[? _]|[? _]]; lia.
  - destruct (index b p); cbn [mbind res_bind]; [|done..]. case_match; intros [= <- <-]; lia.
Qed.

Lemma run_code_pos cc st st' :
  0 ≤ inline_param_size cc → run_code cc st = Ok st' → pos st ≤ pos st'.
Proof.
  intros Hi. unfold run_code. destruct (call_handler cc (stack st)); cbn [mbind res_bind]; [|done..].
  intros [= <-]. cbn [pos]. lia.
Qed.

Lemma dispatch_pos b c st st' : dispatch b c st = Ok st' → pos st ≤ pos st'.
Proof.
  unfold dispatch. destruct (c =? 0xE09A).
  - destruct (index b (pos st)); cbn [mbind res_bind]; [|done..]. intros H.
    apply run_code_pos in H; [cbn [pos] in H; lia|].
    apply default_cc_inline, EXT_CTRL_CODES_inline.
  - destruct ((0xE000 <=? c) && (c <=? 0xE0FF)).
    + apply run_code_pos. apply default_cc_inline, CTRL_CODES_inline.
    + destruct ((32 <=? c) || (c =? 13)).
      * destruct (chr c); cbn [mbind res_bind]; [|done..]. by intros [= <-].
      * by intros [= <-].
Qed.

Lemma decode_step_advances b uni st st' :
  decode_step b uni st = Ok st' → pos st + 1 ≤ pos st'.
Proof.
  unfold decode_step. intros H. apply res_bind_ok in H as ([c p] & Hn & Hd).
  apply next_code_advances in Hn. apply dispatch_pos in Hd. cbn [pos] in Hd. lia.
Qed.

Lemma consume_params_not_fuel sizes stk tc : consume_params sizes stk tc ≠ OutOfFuel.
Proof.
  revert stk tc. induction sizes as [|w sizes IH]; intros stk tc; [done|].
  cbn [consume_params]. destruct (len stk <? w); [done|].
  pose proof (index_not_fuel stk 0) as Hi.
  destruct (index stk 0); cbn [mbind res_bind]; [apply IH|done..].
Qed.

Lemma call_handler_not_fuel cc s : call_handler cc s ≠ OutOfFuel.
Proof.
  unfold call_handler, standard_command, push_word, rotate_words.
  destruct (command_handler cc); [|done|by destruct (len (stack_index s) <? 8)].
  destruct (negb _ || negb _); [|done].
  pose proof (consume_params_not_fuel (stack_param_size cc) (stack_index s)
    (new_TextCommand (base_name cc) (translation_name cc) (inline_param_size cc))) as Hc.
  destruct (consume_params _ _ _) as [[stk tc]| |]; cbn [mbind res_bind]; [|done..].
  by destruct (negb _).
Qed.

Lemma run_code_not_fuel cc st : run_code cc st ≠ OutOfFuel.
Proof.
  unfold run_code. pose proof (call_handler_not_fuel cc (stack st)) as Hc.
  by destruct (call_handler cc (stack st)).
Qed.

Lemma next_code_not_fuel b uni p : next_code b uni p ≠ OutOfFuel.
Proof.
  unfold next_code. pose proof (index_not_fuel b p) as Hi. destruct uni.
  - destruct (getutf8 b p) as [sz oc]. destruct (sz =? 0).
    + by destruct (index b p).
    + by destruct oc.
  - destruct (index b p); cbn [mbind res_bind]; [|done..].
    by destruct (bool_decide _ || _).
Qed.

Lemma dispatch_not_fuel b c st : dispatch b c st ≠ OutOfFuel.
Proof.
  unfold dispatch. destruct (c =? 0xE09A).
  - pose proof (index_not_fuel b (pos st)) as Hi.
    destruct (index b (pos st)); cbn [mbind res_bind]; [apply run_code_not_fuel|done..].
  - destruct ((0xE000 <=? c) && (c <=? 0xE0FF)); [apply run_code_not_fuel|].
    destruct ((32 <=? c) || (c =? 13)); [|done].
    unfold chr. by destruct ((c <? 0) || (0x10FFFF <? c)).
Qed.

Lemma decode_step_not_fuel b uni st : decode_step b uni st ≠ OutOfFuel.
Proof.
  unfold decode_step. pose proof (next_code_not_fuel b uni (pos st)) as Hn.
  destruct (next_code b uni (pos st)) as [[c p]| |]; cbn [mbind res_bind]; [|done..].
  apply dispatch_not_fuel.
Qed.

(** The loop never runs out of fuel when it has one unit for every byte that
    is left. *)
Lemma decode_loop_not_fuel fuel b uni st :
  len b - pos st ≤ Z.of_nat fuel → decode_loop fuel b uni st ≠ OutOfFuel.
Proof.
  revert st. induction fuel as [|fuel IH]; intros st Hf; cbn [decode_loop].
  - by destruct (Z.ltb_spec (pos st) (len b)); [lia|].
  - destruct (Z.ltb_spec (pos st) (len b)); [|done].
    pose proof (decode_step_not_fuel b uni st) as Hs.
    destruct (decode_step b uni st) as [st'| |] eqn:E; cbn [mbind res_bind]; [|done..].
    apply decode_step_advances in E. apply IH. lia.
Qed.

Lemma decode_init_pos b : 0 ≤ pos (decode_init b) ≤ 2.
Proof. unfold decode_init. cbn [pos]. destruct (is_unicode_marker b); lia. Qed.

Lemma decodestr_not_fuel b : decodestr b ≠ OutOfFuel.
Proof.
  unfold decodestr. fold (decode_init b).
  pose proof (decode_loop_not_fuel (length b) b (is_unicode_marker b) (decode_init b)) as H.
  pose proof (decode_init_pos b).
  destruct (decode_loop _ _ _ _); cbn [mbind res_bind]; [done|done|].
  exfalso. apply H; [unfold len; lia|done].
Qed.

Lemma decode_step_introducer_end b uni st p :
  next_code b uni (pos st) = Ok (0xE09A, p) → len b ≤ p →
  decode_step b uni st = Raise IndexError.
Proof.
  intros Hn Hp. unfold decode_step. rewrite Hn. cbn [mbind res_bind].
  unfold dispatch. change (0xE09A =? 0xE09A) with true. cbv iota. cbn [pos].
  by rewrite index_out_of_range.
Qed.

Lemma decode_loop_run b uni st st' (e : exn) :
  decode_run b uni st st' →
  (∀ fuel, len b - pos st' ≤ Z.of_nat fuel → decode_loop fuel b uni st' = Raise e) →
  ∀ fuel, len b - pos st ≤ Z.of_nat fuel → decode_loop fuel b uni st = Raise e.
Proof.
  induction 1 as [st|st st1 st2 Hp Hs Hr IH]; intros Hend fuel Hf; [by apply Hend|].
  destruct fuel as [|fuel]; [lia|]. cbn [decode_loop].
  destruct (Z.ltb_spec (pos st) (len b)); [|lia]. rewrite Hs. cbn [mbind res_bind].
  apply IH; [done|]. apply decode_step_advances in Hs. lia.
Qed.

Lemma decodestr_introducer b : ends_with_introducer b → decodestr b = Raise IndexError.
Proof.
  intros (st & p & Hrun & Hpos & Hn & Hp). unfold decodestr.
  fold (decode_init b).
  rewrite (decode_loop_run b _ (decode_init b) st IndexError Hrun); [done| |].
  - intros [|fuel] Hf; [lia|]. apply decode_loop_raise; [done|].
    by eapply decode_step_introducer_end.
  - pose proof (decode_init_pos b). unfold len. lia.
Qed.

(** C10.  [decodestr] fails with [IndexError] on every input whose last
    decoded code point is the introducer [0xE09A] ending at the end of the
    input; every iteration of its loop that does not raise moves the position
    forward by at least one byte; and on every input it terminates, with a
    result or with an exception. *)
Theorem decodestr_not_total :
  (∀ b, ends_with_introducer b → decodestr b = Raise IndexError)
  ∧ (∀ b uni st st', decode_step b uni st = Ok st' → pos st + 1 ≤ pos st')
  ∧ (∀ b, (∃ v, decodestr b = Ok v) ∨ (∃ e, decodestr b = Raise e)).
Proof.
  split; [apply decodestr_introducer|]. split; [apply decode_step_advances|].
  intros b. pose proof (decodestr_not_fuel b). destruct (decodestr b); eauto. done.
Qed.

Lemma decodestr_not_total_witness :
  decodestr (lit "Ab" ++ [x9a]) = Raise IndexError.
Proof.
  apply (proj1 decodestr_not_total).
  exists (mkDstate 2 (u "Ab") new_TextRefStack), 3. split; [|split; [|split]].
  - eapply run_step; [vm_compute; reflexivity | vm_compute; reflexivity |].
    eapply run_step; [vm_compute; reflexivity | vm_compute; reflexivity |].
    apply run_here.
  - vm_compute. reflexivity.
  - vm_compute. reflexivity.
  - vm_compute. discriminate.
Defined.

(** The introducer as the last byte is not enough: here the second [0x9A] is
    the extended code of the first, and decoding succeeds. *)
Example decodestr_two_introducers : decodestr [x9a; x9a] = Ok ([], ∅).
Proof. vm_compute. reflexivity. Qed.

(** UTF-8 mode: the introducer as the encoding of U+E09A, and as a stray
    byte [0x9A] that is remapped. *)
Example decodestr_unicode_introducer :
  decodestr (z2b <$> [0xC3; 0x9E; 0x41; 0xEE; 0x82; 0x9A]) = Raise IndexError
  ∧ decodestr (z2b <$> [0xC3; 0x9E; 0x41; 0x9A]) = Raise IndexError.
Proof. split; vm_compute; reflexivity. Qed.

(** ** Stack underflow in the decoder *)
Import GrfStrings.

Lemma call_handler_underflow cc s : underflows cc s → call_handler cc s = Raise AssertionError.
Proof.
  unfold call_handler.
  intros [(Hh & pre & size & post & Hs & Hpos & Hsum & Hsize)|[Hh Hlen]]; rewrite Hh.
  - unfold standard_command.
    rewrite Hs. replace (bool_decide (pre ++ size :: post = [])) with false
      by (symmetry; apply bool_decide_eq_false; by destruct pre).
    rewrite orb_true_r. by rewrite consume_params_underflow.
  - by apply rotate_words_short.
Qed.

(** C8.  A Standard code whose next declared width exceeds what the stack
    still holds, and RotateWords on fewer than 8 slots, raise
    [AssertionError]; the failure of a handler is the failure of the loop
    body and of the loop; a Standard code that succeeds has removed exactly
    its declared widths from the front, all of them slots that were there.
    So the handler that the decoder calls for such a code raises
    [AssertionError], and [decodestr] raises it on every input on which its
    loop comes to dispatch such a code. *)
Theorem stack_underflow_raises :
  (∀ s cc pre size post,
     stack_param_size cc = pre ++ size :: post →
     Forall (λ w, 0 < w) pre → sumZ pre ≤ len (stack_index s) →
     len (stack_index s) - sumZ pre < size →
     standard_command s cc = Raise AssertionError)
  ∧ (∀ s cc, len (stack_index s) < 8 → rotate_words s cc = Raise AssertionError)
  ∧ (∀ fuel b uni st c p cc e,
       pos st < len b →
       next_code b uni (pos st) = Ok (c, p) →
       dispatched_code b c p = Some cc →
       call_handler cc (stack st) = Raise e →
       decode_step b uni st = Raise e ∧ decode_loop (S fuel) b uni st = Raise e)
  ∧ (∀ s cc s',
       Forall (λ w, 0 ≤ w) (stack_param_size cc) →
       standard_command s cc = Ok s' →
       ∃ removed, stack_index s = removed ++ stack_index s'
                  ∧ len removed = sumZ (stack_param_size cc)
                  ∧ sumZ (stack_param_size cc) ≤ len (stack_index s))
  ∧ (∀ cc s, underflows cc s → call_handler cc s = Raise AssertionError)
  ∧ (∀ b st c p cc,
       decode_run b (is_unicode_marker b) (decode_init b) st →
       pos st < len b →
       next_code b (is_unicode_marker b) (pos st) = Ok (c, p) →
       dispatched_code b c p = Some cc →
       underflows cc (stack st) →
       decodestr b = Raise AssertionError).
Proof.
  split; [|split; [|split; [|split; [|split]]]].
  - intros s cc pre size post Hs Hpos Hsum Hsize. unfold standard_command.
    rewrite Hs. replace (bool_decide (pre ++ size :: post = [])) with false
      by (symmetry; apply bool_decide_eq_false; by destruct pre).
    rewrite orb_true_r. by rewrite consume_params_underflow.
  - apply rotate_words_short.
  - intros fuel b uni st c p cc e Hp Hn Hd Hh.
    assert (decode_step b uni st = Raise e) by (by eapply decode_step_handler_raise).
    split; [done|]. by apply decode_loop_raise.
  - intros s cc s' Hpos H. destruct (standard_command_ok s cc s' Hpos H) as (removed & Hr & Hl).
    exists removed. split; [done|]. split; [done|].
    rewrite <- Hl, Hr. unfold len. rewrite length_app. lia.
  - intros cc s Hu. by apply call_handler_underflow.
  - intros b st c p cc Hrun Hpos Hn Hd Hu. unfold decodestr. fold (decode_init b).
    rewrite (decode_loop_run b _ (decode_init b) st AssertionError Hrun); [done| |].
    + intros [|fuel] Hf; [lia|]. apply decode_loop_raise; [done|].
      eapply decode_step_handler_raise; [exact Hn|exact Hd|].
      by apply call_handler_underflow.
    + pose proof (decode_init_pos b). unfold len. lia.
Qed.

(** 33 two-byte parameters do not fit the 64 slots; after 29 of them 6
    slots are left, too few to rotate. *)
Example decodestr_underflow_standard :
  decodestr (replicate 33 x7c) = Raise AssertionError.
Proof. vm_compute. reflexivity. Qed.

Example decodestr_underflow_rotate :
  decodestr (replicate 29 x7c ++ [x86]) = Raise AssertionError.
Proof. vm_compute. reflexivity. Qed.

Lemma stack_underflow_raises_witness :
  standard_command (mkTextRefStack [62; 63] [])
    (new_ControlCode (u "{CARGO_LONG}") [] 0 [2; 2] H_standard_command)
  = Raise AssertionError
  ∧ decodestr (replicate 16 x7f ++ [x7c]) = Raise AssertionError.
Proof.
  split.
  - apply (proj1 stack_underflow_raises _ _ [2] 2 []).
    + reflexivity.
    + repeat constructor.
    + vm_compute. discriminate.
    + vm_compute. reflexivity.
  - eapply (proj2 (proj2 (proj2 (proj2 (proj2 stack_underflow_raises))))
              (replicate 16 x7f ++ [x7c])).
    + do 16 (eapply run_step; [vm_compute; reflexivity|vm_compute; reflexivity|]).
      apply run_here.
    + vm_compute. reflexivity.
    + vm_compute. reflexivity.
    + vm_compute. reflexivity.
    + left. split; [reflexivity|]. exists [], 2, [].
      split; [reflexivity|]. split; [constructor|]. split; vm_compute; [discriminate|reflexivity].
Defined.

(** ** Ordered dictionaries *)

Section pydict_lemmas.
Context {K V : Type} `{EqDecision K}.
Implicit Types d : pydict K V.

Lemma dict_get_set_eq k v d : dict_get k (dict_set k v d) = Some v.
Proof.
  induction d as [|[k' v'] d IH]; simpl; [by rewrite decide_True|].
  destruct (decide (k' = k)) as [->|Hne]; simpl; [by rewrite decide_True|].
  by rewrite decide_False.
Qed.

Lemma dict_get_set_ne k k' v d : k ≠ k' → dict_get k' (dict_set k v d) = dict_get k' d.
Proof.
  intros Hne. induction d as [|[k0 v0] d IH]; simpl; [by rewrite decide_False|].
  destruct (decide (k0 = k)) as [->|Hne0]; simpl.
  - by rewrite !decide_False.
  - by rewrite IH.
Qed.

Lemma dict_get_keys k d : k ∈ dict_keys d ↔ is_Some (dict_get k d).
Proof.
  unfold dict_keys. induction d as [|[k0 v0] d IH]; simpl.
  - split; [by intros ?%elem_of_nil|by intros [? ?]].
  - rewrite elem_of_cons. destruct (decide (k0 = k)) as [->|Hne].
    + split; eauto.
    + rewrite IH. split; [intros [?|?]; [congruence|done]|eauto].
Qed.

Lemma dict_set_keys k v d :
  dict_keys (dict_set k v d) = if decide (k ∈ dict_keys d) then dict_keys d else dict_keys d ++ [k].
Proof.
  unfold dict_keys. induction d as [|[k0 v0] d IH].
  - cbn [dict_set fmap list_fmap fst app].
    destruct (decide (k ∈ [])) as [Hk|Hk]; [by apply elem_of_nil in Hk|done].
  - cbn [dict_set]. destruct (decide (k0 = k)) as [->|Hne]; cbn [fmap list_fmap fst app].
    + destruct (decide (k ∈ k :: d.*1)) as [Hk|Hk]; [done|].
      exfalso. apply Hk, elem_of_cons. by left.
    + fold (@fmap list _ _ _ (@fst K V)). rewrite IH.
      destruct (decide (k ∈ d.*1)) as [Hin|Hin];
        destruct (decide (k ∈ k0 :: d.*1)) as [Hk|Hk]; try done.
      * exfalso. apply Hk, elem_of_cons. by right.
      * apply elem_of_cons in Hk as [?|?]; congruence.
Qed.

Lemma dict_set_NoDup k v d : NoDup (dict_keys d) → NoDup (dict_keys (dict_set k v d)).
Proof.
  intros Hd. rewrite dict_set_keys. case_decide; [done|].
  apply NoDup_app. split; [done|]. split; [|apply NoDup_singleton].
  intros x Hx ?%list_elem_of_singleton. congruence.
Qed.

Lemma dict_get_elem k v d : dict_get k d = Some v → (k, v) ∈ d.
Proof.
  induction d as [|[k0 v0] d IH]; simpl; [done|].
  destruct (decide (k0 = k)) as [->|Hne].
  - intros [= ->]. apply elem_of_cons. by left.
  - intros H. apply elem_of_cons. right. by apply IH.
Qed.
End pydict_lemmas.

(** ** [process_string] *)

Lemma index_exn {A} (l : list A) i e : index l i = Raise e → e = IndexError.
Proof. unfold index. repeat case_match; congruence. Qed.

Lemma consume_params_exn sizes stk tc e :
  consume_params sizes stk tc = Raise e → decode_exn e.
Proof.
  revert stk tc. induction sizes as [|w sizes IH]; intros stk tc; [done|].
  cbn [consume_params]. destruct (len stk <? w); [intros [= <-]; by left|].
  destruct (index stk 0) eqn:E; cbn [mbind res_bind]; [apply IH| |done].
  intros [= <-]. apply index_exn in E as ->. right; by left.
Qed.

Lemma call_handler_exn cc s e : call_handler cc s = Raise e → decode_exn e.
Proof.
  unfold call_handler, standard_command, push_word, rotate_words.
  destruct (command_handler cc); [|done|].
  - destruct (negb _ || negb _); [|done].
    destruct (consume_params _ _ _) as [[stk tc]| |] eqn:E; cbn [mbind res_bind]; [|  |done].
    + by destruct (negb _).
    + intros [= <-]. by apply consume_params_exn in E.
  - destruct (len (stack_index s) <? 8); [|done]. intros [= <-]. by left.
Qed.

Lemma run_code_exn cc st e : run_code cc st = Raise e → decode_exn e.
Proof.
  unfold run_code. destruct (call_handler cc (stack st)) eqn:E; cbn [mbind res_bind]; [done| |done].
  intros [= <-]. by apply call_handler_exn in E.
Qed.

Lemma decode_step_exn b uni st e : decode_step b uni st = Raise e → decode_exn e.
Proof.
  unfold decode_step.
  destruct (next_code b uni (pos st)) as [[c p]| |] eqn:En; cbn [mbind res_bind]; [| |done].
  - unfold dispatch. cbn [pos result stack]. destruct (c =? 0xE09A).
    + destruct (index b p) eqn:E; cbn [mbind res_bind]; [apply run_code_exn| |done].
      intros [= <-]. apply index_exn in E as ->. right; by left.
    + destruct ((0xE000 <=? c) && (c <=? 0xE0FF)); [apply run_code_exn|].
      destruct ((32 <=? c) || (c =? 13)); [|done].
      unfold chr. destruct ((c <? 0) || (0x10FFFF <? c)); [|done].
      intros [= <-]. right; by right.
  - intros [= <-]. unfold next_code in En. destruct uni.
    + destruct (getutf8 b (pos st)) as [sz oc]. destruct (sz =? 0).
      * destruct (index b (pos st)) eqn:E; cbn [mbind res_bind] in En; [done| |done].
        injection En as <-. apply index_exn in E as ->. right; by left.
      * destruct oc; [done|]. injection En as <-. by left.
    + destruct (index b (pos st)) eqn:E; cbn [mbind res_bind] in En.
      * by destruct (bool_decide _ || _).
      * injection En as <-. apply index_exn in E as ->. right; by left.
      * done.
Qed.

Lemma decode_loop_exn fuel b uni st e :
  decode_loop fuel b uni st = Raise e → decode_exn e.
Proof.
  revert st. induction fuel as [|fuel IH]; intros st; cbn [decode_loop];
    destruct (pos st <? len b); try done.
  destruct (decode_step b uni st) eqn:E; cbn [mbind res_bind]; [apply IH| |done].
  intros [= <-]. by apply decode_step_exn in E.
Qed.

Lemma decodestr_exn b e : decodestr b = Raise e → decode_exn e.
Proof.
  unfold decodestr. destruct (decode_loop _ _ _ _) eqn:E; cbn [mbind res_bind]; [done| |done].
  intros [= <-]. by apply decode_loop_exn in E.
Qed.

Lemma decode_exn_not_missing e : decode_exn e → e ≠ RuntimeError "Missing base language text".
Proof. intros [->|[->| ->]]; done. Qed.

Lemma decodestr_cases b :
  (∃ text params, decodestr b = Ok (text, params) ∧ decoded_text b = Some text)
  ∨ (∃ e, decodestr b = Raise e ∧ decode_exn e ∧ decoded_text b = None).
Proof.
  unfold decoded_text. pose proof (decodestr_not_fuel b) as Hf.
  destruct (decodestr b) as [[text params]|e|] eqn:E; [left; eauto| |done].
  right. exists e. split; [done|]. split; [by apply decodestr_exn in E|done].
Qed.

Lemma process_items_ok items result r :
  NoDup (dict_keys items) →
  process_items items result = Ok r →
  ∀ k, dict_get k r = match dict_get k items with
                      | Some raw_text => decoded_text raw_text
                      | None => dict_get k result
                      end.
Proof.
  revert result. induction items as [|[lang raw_text] items IH]; intros result Hnd H k.
  - by injection H as <-.
  - unfold dict_keys in Hnd. cbn [fmap list_fmap fst] in Hnd.
    apply NoDup_cons in Hnd as [Hnotin Hnd]. cbn [process_items] in H.
    destruct (decodestr_cases raw_text) as [(text & params & Hd & Ht)|(e & Hd & _)];
      rewrite Hd in H; cbn [mbind res_bind] in H; [|done].
    rewrite (IH _ Hnd H k). cbn [dict_get].
    destruct (decide (lang = k)) as [->|Hne].
    + destruct (dict_get k items) eqn:E.
      * exfalso. apply Hnotin. apply dict_get_keys. by rewrite E.
      * by rewrite dict_get_set_eq.
    + destruct (dict_get k items); [done|]. by rewrite dict_get_set_ne.
Qed.

Lemma process_items_keys items result r :
  NoDup (dict_keys result) →
  process_items items result = Ok r →
  NoDup (dict_keys r)
  ∧ ∀ k, k ∈ dict_keys r ↔ k ∈ dict_keys items ∨ k ∈ dict_keys result.
Proof.
  revert result. induction items as [|[lang raw_text] items IH]; intros result Hnd H.
  - injection H as <-. split; [done|]. intros k. unfold dict_keys at 2. cbn [fmap list_fmap].
    rewrite elem_of_nil. tauto.
  - cbn [process_items] in H.
    destruct (decodestr raw_text) as [[text params]| |]; cbn [mbind res_bind] in H; [|done..].
    apply IH in H as [Hr Hk]; [|by apply dict_set_NoDup]. split; [done|].
    intros k. rewrite Hk, dict_set_keys.
    change (dict_keys ((lang, raw_text) :: items)) with (lang :: dict_keys items).
    rewrite elem_of_cons.
    destruct (decide (lang ∈ dict_keys result)) as [Hin|Hin].
    + split; [tauto|]. intros [[->|?]|?]; tauto.
    + rewrite elem_of_app, list_elem_of_singleton. tauto.
Qed.

Lemma process_items_total items result :
  Forall (λ kv, is_Some (decoded_text kv.2)) items →
  ∃ r, process_items items result = Ok r.
Proof.
  revert result. induction items as [|[lang raw_text] items IH]; intros result Hall.
  - by eexists.
  - apply Forall_cons in Hall as [[text Ht] Hall]. cbn [process_items]. cbn [snd] in Ht.
    destruct (decodestr_cases raw_text) as [(text' & params & Hd & Ht')|(e & _ & _ & Hn)];
      [|congruence].
    rewrite Hd. cbn [mbind res_bind]. apply IH, Hall.
Qed.

Lemma process_items_fail items result :
  ¬ Forall (λ kv, is_Some (decoded_text kv.2)) items →
  ∃ e, process_items items result = Raise e ∧ decode_exn e.
Proof.
  revert result. induction items as [|[lang raw_text] items IH]; intros result Hall.
  - exfalso. apply Hall. constructor.
  - cbn [process_items].
    destruct (decodestr_cases raw_text) as [(text & params & Hd & Ht)|(e & Hd & He & _)];
      rewrite Hd; cbn [mbind res_bind]; [|eauto].
    apply IH. intros Hrest. apply Hall. constructor; [cbn [snd]; by rewrite Ht|done].
Qed.

(** C5 (amended).  [process_string] raises the missing-base-text error
    exactly when the input has no entry under tag 0x7F.  Otherwise, when
    every supplied translation decodes, it returns a dictionary whose keys
    are the supplied language tags and that maps each tag to the decoded
    text of its raw bytes, the parameter classification being dropped; and
    when some translation does not decode, it raises that decoder
    exception. *)
Theorem process_string_spec (raw : pydict Z bytes) :
  (process_string raw = Raise (RuntimeError "Missing base language text")
   ↔ dict_get 0x7F raw = None)
  ∧ (NoDup (dict_keys raw) → is_Some (dict_get 0x7F raw) →
     Forall (λ kv, is_Some (decoded_text kv.2)) raw →
     ∃ result, process_string raw = Ok result
       ∧ NoDup (dict_keys result)
       ∧ (∀ k, k ∈ dict_keys result ↔ k ∈ dict_keys raw)
       ∧ (∀ k, dict_get k result = dict_get k raw ≫= decoded_text))
  ∧ (is_Some (dict_get 0x7F raw) →
     ¬ Forall (λ kv, is_Some (decoded_text kv.2)) raw →
     ∃ e, process_string raw = Raise e ∧ decode_exn e).
Proof.
  unfold process_string. split; [|split].
  - destruct (dict_get 0x7F raw) as [base_raw|] eqn:E; [|done].
    split; [|done]. intros H. exfalso.
    destruct (decodestr_cases base_raw) as [(text & params & Hd & _)|(e & Hd & He & _)];
      rewrite Hd in H; cbn [mbind res_bind] in H.
    + destruct (process_items raw [(0x7F, text)]) eqn:Ep; [done| |done].
      destruct (decide (Forall (λ kv, is_Some (decoded_text kv.2)) raw)) as [Hall|Hall].
      * destruct (process_items_total raw [(0x7F, text)] Hall) as [r Hr]. congruence.
      * destruct (process_items_fail raw [(0x7F, text)] Hall) as (e' & Hr & He').
        rewrite Hr in Ep. injection Ep as <-. injection H as ->.
        by apply decode_exn_not_missing in He'.
    + injection H as ->. by apply decode_exn_not_missing in He.
  - intros Hnd [base_raw Hb] Hall. rewrite Hb.
    assert (is_Some (decoded_text base_raw)) as [text Ht].
    { apply dict_get_elem in Hb. by apply (proj1 (Forall_forall _ _) Hall) in Hb. }
    destruct (decodestr_cases base_raw) as [(text' & params & Hd & Ht')|(e & _ & _ & Hn)];
      [|congruence].
    rewrite Hd. cbn [mbind res_bind].
    destruct (process_items_total raw [(0x7F, text')] Hall) as [r Hr].
    exists r. split; [done|].
    destruct (process_items_keys raw [(0x7F, text')] r) as [Hnd' Hk];
      [apply NoDup_singleton|done|].
    split; [done|]. split.
    + intros k. rewrite Hk. split; [|tauto]. intros [?|Hin]; [done|].
      unfold dict_keys in Hin. cbn [fmap list_fmap fst] in Hin.
      apply list_elem_of_singleton in Hin as ->. apply dict_get_keys. by rewrite Hb.
    + intros k. rewrite (process_items_ok raw _ r Hnd Hr k).
      destruct (dict_get k raw) as [raw_text|] eqn:Ek; [done|]. cbn [dict_get mbind option_bind].
      destruct (decide (0x7F = k)) as [<-|?]; [congruence|done].
  - intros [base_raw Hb] Hall. rewrite Hb.
    destruct (decodestr_cases base_raw) as [(text & params & Hd & _)|(e & Hd & He & _)];
      rewrite Hd; cbn [mbind res_bind]; [|eauto].
    apply process_items_fail, Hall.
Qed.

Lemma process_string_spec_witness :
  ∃ result, process_string [(0x02, lit "Zug"); (0x7F, lit "Train")] = Ok result
    ∧ NoDup (dict_keys result)
    ∧ (∀ k, k ∈ dict_keys result ↔ k ∈ dict_keys [(0x02, lit "Zug"); (0x7F, lit "Train")])
    ∧ (∀ k, dict_get k result
            = dict_get k [(0x02, lit "Zug"); (0x7F, lit "Train")] ≫= decoded_text).
Proof.
  apply (proj1 (proj2 (process_string_spec [(0x02, lit "Zug"); (0x7F, lit "Train")]))).
  - apply (bool_decide_unpack _). vm_compute. exact I.
  - eexists. vm_compute. reflexivity.
  - apply (bool_decide_unpack _). vm_compute. exact I.
Defined.

(** A base text that ends in the introducer: tag 0x7F is there, yet no
    dictionary is returned. *)
Lemma process_string_base_undecodable :
  dict_get 0x7F [(0x7F, [x9a])] = Some [x9a]
  ∧ process_string [(0x7F, [x9a])] = Raise IndexError.
Proof. split; vm_compute; reflexivity. Qed.

Example process_string_order :
  process_string [(0x02, lit "Zug"); (0x7F, lit "Train")]
  = Ok [(0x7F, u "Train"); (0x02, u "Zug")].
Proof. vm_compute. reflexivity. Qed.

(** ** Action 0x01 *)
Import NewGRF.

Lemma uint_ext_encode v rest h :
  0 ≤ v < 65536 →
  R.uint_ext (R.mk (ext_encode v ++ rest) h)
  = Ok (v, R.mk rest (md5_update (ext_encode v) <$> h)).
Proof.
  intros Hv. unfold R.uint_ext, ext_encode. destruct (Z.ltb_spec v 255).
  - cbn [app]. rewrite uint8_cons. cbn [mbind res_bind]. rewrite b2z_z2b by lia.
    by destruct (Z.eqb_spec v 255); [lia|].
  - cbn [app]. rewrite uint8_cons. cbn [mbind res_bind].
    change (b2z xff =? 255) with true. cbv iota. rewrite uint16_cons, hash_update2.
    pose proof (mod256_range v).
    assert (0 ≤ v `div` 256 < 256)
      by (split; [apply Z.div_pos; lia|apply Z.div_lt_upper_bound; lia]).
    rewrite !b2z_z2b by done.
    f_equal. f_equal. pose proof (Z.div_mod v 256). lia.
Qed.

Lemma ext_encode_length v : (1 ≤ length (ext_encode v) ≤ 3)%nat.
Proof. unfold ext_encode. destruct (v <? 255); simpl; lia. Qed.

Lemma read_pseudo_01 self idx state feat n rest :
  read_pseudo self idx (x01 :: feat :: n :: rest) state
  = (if (b2z n =? 0) && (3 <=? len rest) then
       '(_, r) ← R.uint_ext (R.of_bytes rest);
       '(num_sets, r) ← R.uint_ext r;
       '(num_ent, _) ← R.uint_ext r;
       Ok (num_sets * num_ent, self, state)
     else
       '(num_ent, _) ← R.uint_ext (R.of_bytes rest);
       Ok (b2z n * num_ent, self, state)).
Proof.
  unfold read_pseudo, R.of_bytes. rewrite uint8_cons. cbn [mbind res_bind].
  change (b2z x01 =? 0) with false. change (b2z x01 =? 1) with true. cbv iota.
  unfold action_01. rewrite uint8_cons. cbn [mbind res_bind fmap option_fmap option_map].
  rewrite uint8_cons. cbn [mbind res_bind fmap option_fmap option_map].
  replace (len (x01 :: feat :: n :: rest) - 3) with (len rest) by (unfold len; simpl length; lia).
  destruct ((b2z n =? 0) && (3 <=? len rest)); cbn [mbind res_bind].
  - destruct (R.uint_ext _) as [[a r]| |]; cbn [mbind res_bind]; [|done..].
    destruct (R.uint_ext r) as [[s r']| |]; cbn [mbind res_bind]; [|done..].
    by destruct (R.uint_ext r') as [[e r'']| |].
  - by destruct (R.uint_ext _) as [[e r]| |].
Qed.

(** C9 (amended).  For an Action 0x01 payload the dispatcher discards one
    byte and reads the set count as a byte; when that count is not 0, or fewer
    than 3 payload bytes are left behind the 3 consumed, it reads the entry
    count as an extended byte and returns set count times entry count; when
    the count is 0 and at least 3 bytes are left, it discards one extended
    byte, reads the set count and then the entry count as extended bytes and
    returns their product.  A payload that ends early raises the end-of-file
    error. *)
Theorem action_01_skip_count (self : t) (idx : Z) (state : ParserState) (feat : byte) :
  (∀ n e tail, b2z n ≠ 0 → 0 ≤ e < 65536 →
     read_pseudo self idx (x01 :: feat :: n :: ext_encode e ++ tail) state
     = Ok (b2z n * e, self, state))
  ∧ (∀ a s e tail, 0 ≤ a < 65536 → 0 ≤ s < 65536 → 0 ≤ e < 65536 →
       read_pseudo self idx
         (x01 :: feat :: x00 :: ext_encode a ++ ext_encode s ++ ext_encode e ++ tail) state
       = Ok (s * e, self, state))
  ∧ (∀ e tail, 0 ≤ e < 65536 → (length (ext_encode e ++ tail) < 3)%nat →
       read_pseudo self idx (x01 :: feat :: x00 :: ext_encode e ++ tail) state
       = Ok (0, self, state))
  ∧ (∀ n rest,
       read_pseudo self idx (x01 :: feat :: n :: rest) state
       = (if (b2z n =? 0) && (3 <=? len rest) then
            '(_, r) ← R.uint_ext (R.of_bytes rest);
            '(num_sets, r) ← R.uint_ext r;
            '(num_ent, _) ← R.uint_ext r;
            Ok (num_sets * num_ent, self, state)
          else
            '(num_ent, _) ← R.uint_ext (R.of_bytes rest);
            Ok (b2z n * num_ent, self, state)))
  ∧ read_pseudo self idx [x01] state = R.eof
  ∧ read_pseudo self idx [x01; feat] state = R.eof.
Proof.
  split; [|split; [|split; [|split; [|split]]]].
  - intros n e tail Hn He. rewrite read_pseudo_01.
    destruct (Z.eqb_spec (b2z n) 0); [done|]. cbn [andb].
    unfold R.of_bytes. rewrite uint_ext_encode by done. reflexivity.
  - intros a s e tail Ha Hs He. rewrite read_pseudo_01.
    change (b2z x00 =? 0) with true. cbn [andb].
    destruct (Z.leb_spec 3 (len (ext_encode a ++ ext_encode s ++ ext_encode e ++ tail))) as [_|Hl].
    + unfold R.of_bytes. rewrite uint_ext_encode by done. cbn [mbind res_bind].
      rewrite uint_ext_encode by done. cbn [mbind res_bind].
      rewrite uint_ext_encode by done. reflexivity.
    + exfalso. unfold len in Hl. rewrite !length_app in Hl.
      pose proof (ext_encode_length a). pose proof (ext_encode_length s).
      pose proof (ext_encode_length e). lia.
  - intros e tail He Hl. rewrite read_pseudo_01.
    destruct (Z.leb_spec 3 (len (ext_encode e ++ tail))) as [Hl'|_]; [unfold len in Hl'; lia|].
    rewrite andb_false_r. unfold R.of_bytes. rewrite uint_ext_encode by done.
    reflexivity.
  - apply read_pseudo_01.
  - reflexivity.
  - reflexivity.
Qed.

Lemma action_01_skip_count_witness :
  read_pseudo new_NewGRF 7 (x01 :: x00 :: x00 :: ext_encode 0 ++ ext_encode 300 ++ ext_encode 4 ++ [])
    new_ParserState
  = Ok (300 * 4, new_NewGRF, new_ParserState).
Proof.
  apply (proj1 (proj2 (action_01_skip_count new_NewGRF 7 new_ParserState x00)) 0 300 4 []); lia.
Defined.

(** In the fallback the first extended byte is thrown away: on the payload
    01 00 00 05 02 03 the dispatcher returns 2 * 3, where re-reading the set
    count right behind the zero would give 5 * 2. *)
Lemma action_01_fallback_discards_first :
  read_pseudo new_NewGRF 7 [x01; x00; x00; x05; x02; x03] new_ParserState
  = Ok (6, new_NewGRF, new_ParserState)
  ∧ action_01_as_claimed [x01; x00; x00; x05; x02; x03]
      (R.of_bytes [x00; x00; x05; x02; x03]) = Ok 10.
Proof. split; vm_compute; reflexivity. Qed.

(** ** The container-1 sprite walk *)

Lemma chunk_len_byte (c : byte) :
  1 ≤ chunk_len (b2z c) ≤ 128
  ∧ (128 ≤ b2z c → chunk_len (b2z c) = 32 - b2z c `div` 8 ∧ chunk_len (b2z c) ≤ 16).
Proof.
  pose proof (b2z_range c) as Hc. unfold chunk_len.
  rewrite Z.shiftr_div_pow2 by lia. change (2 ^ 3) with 8.
  destruct (Z.ltb_spec (b2z c) 0x80).
  - destruct (Z.eqb_spec (b2z c) 0); split; lia.
  - assert (16 ≤ b2z c `div` 8 ≤ 31) by (Z.div_mod_to_equations; lia).
    split; lia.
Qed.

Lemma skip_file r n : 0 ≤ n → R.file (R.skip r n) = drop (Z.to_nat n) (R.file r).
Proof.
  intros Hn. unfold R.skip, R.read, R.file_read.
  by destruct (Z.ltb_spec n 0); [lia|].
Qed.

Lemma sumZ_cons x l : sumZ (x :: l) = x + sumZ l.
Proof. reflexivity. Qed.

Lemma walk_runs_sum_nonneg data runs rest :
  walk_runs data runs rest → 0 ≤ sumZ (chunk_len <$> runs).
Proof.
  induction 1 as [|c data runs rest _ IH]; [done|].
  rewrite fmap_cons, sumZ_cons. pose proof (chunk_len_byte c). lia.
Qed.

(** One iteration of the walk on a stream that starts with the control byte
    [c]. *)
Lemma sprite_walk_step fuel c data h size :
  0 < size →
  sprite_walk (S fuel) (R.mk (c :: data) h) size
  = if size <? chunk_len (b2z c) then Raise (RuntimeError "Failed sprite decoding.")
    else sprite_walk fuel
           (R.skip (R.mk data (md5_update [c] <$> h))
              (if b2z c <? 0x80 then chunk_len (b2z c) else 1))
           (size - chunk_len (b2z c)).
Proof.
  intros Hs. cbn [sprite_walk]. destruct (Z.ltb_spec 0 size); [|lia].
  rewrite uint8_cons. cbn [mbind res_bind].
  by destruct (b2z c <? 0x80).
Qed.

Lemma sprite_walk_ok fuel reader size reader' :
  0 ≤ size →
  sprite_walk fuel reader size = Ok reader' →
  ∃ runs, walk_runs (R.file reader) runs (R.file reader')
          ∧ sumZ (chunk_len <$> runs) = size.
Proof.
  revert reader size. induction fuel as [|fuel IH]; intros reader size Hs H.
  - cbn [sprite_walk] in H. destruct (Z.ltb_spec 0 size); [done|].
    injection H as <-. exists []. split; [constructor|]. cbn. lia.
  - destruct (Z.ltb_spec 0 size) as [Hpos|Hz].
    + destruct reader as [[|c data] h].
      { cbn [sprite_walk] in H. destruct (Z.ltb_spec 0 size); [|lia]. by rewrite uint8_nil in H. }
      rewrite sprite_walk_step in H by done.
      destruct (Z.ltb_spec size (chunk_len (b2z c))); [done|].
      apply IH in H as (runs & Hr & Hsum); [|lia].
      exists (b2z c :: runs). split.
      * constructor. pose proof (chunk_len_byte c).
        rewrite skip_file in Hr by (destruct (b2z c <? 0x80); lia). exact Hr.
      * rewrite fmap_cons, sumZ_cons. lia.
    + cbn [sprite_walk] in H. destruct (Z.ltb_spec 0 size); [lia|].
      injection H as <-. exists []. split; [constructor|]. cbn. lia.
Qed.

Lemma sprite_walk_not_fuel fuel reader size :
  (length (R.file reader) < fuel)%nat → sprite_walk fuel reader size ≠ OutOfFuel.
Proof.
  revert reader size. induction fuel as [|fuel IH]; intros reader size Hf; [lia|].
  destruct (Z.ltb_spec 0 size) as [Hpos|Hz].
  - destruct reader as [[|c data] h].
    { cbn [sprite_walk]. destruct (Z.ltb_spec 0 size); [|lia]. by rewrite uint8_nil. }
    rewrite sprite_walk_step by done. destruct (size <? chunk_len (b2z c)); [done|].
    apply IH. pose proof (skip_advances (R.mk data (md5_update [c] <$> h))
      (if b2z c <? 0x80 then chunk_len (b2z c) else 1)) as Ha.
    apply advances_length in Ha. cbn [R.file] in *. simpl in Hf. lia.
  - cbn [sprite_walk]. by destruct (Z.ltb_spec 0 size); [lia|].
Qed.

(** The walk fails as soon as a run reaches beyond the declared size. *)
Lemma sprite_walk_overshoot data runs tail :
  walk_runs data runs tail →
  ∀ c rest fuel reader size,
    tail = c :: rest → R.file reader = data → (length data < fuel)%nat →
    sumZ (chunk_len <$> runs) < size →
    size < sumZ (chunk_len <$> runs) + chunk_len (b2z c) →
    sprite_walk fuel reader size = Raise (RuntimeError "Failed sprite decoding.").
Proof.
  induction 1 as [data|c0 data runs tail Hw IH]; intros c rest fuel reader size -> Hd Hf Hlo Hhi.
  - destruct fuel as [|fuel]; [lia|]. destruct reader as [file h]. cbn [R.file] in Hd. subst file.
    change (sumZ (chunk_len <$> [])) with 0 in *.
    rewrite sprite_walk_step by lia. by destruct (Z.ltb_spec size (chunk_len (b2z c))); [|lia].
  - destruct fuel as [|fuel]; [lia|]. destruct reader as [file h]. cbn [R.file] in Hd. subst file.
    rewrite fmap_cons, sumZ_cons in Hlo, Hhi.
    pose proof (walk_runs_sum_nonneg _ _ _ Hw). pose proof (chunk_len_byte c0) as [Hc0 _].
    rewrite sprite_walk_step by lia.
    destruct (Z.ltb_spec size (chunk_len (b2z c0))); [lia|].
    eapply IH; [done| | |lia|lia].
    + apply skip_file. destruct (b2z c0 <? 0x80); lia.
    + rewrite length_drop. simpl in Hf. lia.
Qed.

(** The walk accepts a stream whose runs add up to exactly the declared
    size, and stops behind them. *)
Lemma sprite_walk_exact_sum data runs rest :
  walk_runs data runs rest →
  ∀ fuel reader size,
    R.file reader = data → (length data < fuel)%nat →
    sumZ (chunk_len <$> runs) = size →
    ∃ reader', sprite_walk fuel reader size = Ok reader'
               ∧ R.file reader' = rest ∧ advances reader reader'.
Proof.
  induction 1 as [data|c0 data runs rest Hw IH]; intros fuel reader size Hd Hf Hsum.
  - change (sumZ (chunk_len <$> [])) with 0 in Hsum. subst size.
    exists reader. split; [|split; [done|apply advances_refl]].
    destruct fuel; reflexivity.
  - destruct fuel as [|fuel]; [lia|]. destruct reader as [file h]. cbn [R.file] in Hd. subst file.
    rewrite fmap_cons, sumZ_cons in Hsum.
    pose proof (walk_runs_sum_nonneg _ _ _ Hw). pose proof (chunk_len_byte c0) as [Hc0 _].
    rewrite sprite_walk_step by lia.
    destruct (Z.ltb_spec size (chunk_len (b2z c0))); [lia|].
    set (r1 := R.skip (R.mk data (md5_update [c0] <$> h))
                 (if b2z c0 <? 0x80 then chunk_len (b2z c0) else 1)).
    destruct (IH fuel r1 (size - chunk_len (b2z c0))) as (reader' & Hok & Hfile & Ha).
    + apply skip_file. destruct (b2z c0 <? 0x80); lia.
    + rewrite length_drop. simpl in Hf. lia.
    + lia.
    + exists reader'. split; [done|]. split; [done|].
      eapply advances_trans; [|exact Ha].
      eapply advances_trans; [|apply skip_advances].
      exists [c0]. split; [done|]. cbn [R.hash]. by destruct h.
Qed.

(** What [record_body] does with a container-1 sprite that is not raw. *)
Lemma record_body_v1_sprite self state info hdr data h size skip idx :
  container_version self = Some 1 → b2z info ≠ 0xFF → Z.land (b2z info) 0x02 = 0 →
  8 ≤ size → length hdr = 7%nat →
  record_body (mkLoop self state (R.mk (info :: hdr ++ data) h) size skip idx)
  = reader ← sprite_walk (S (length data))
               (R.mk data (md5_update hdr <$> (md5_update [info] <$> h))) (size - 8);
    '(size', reader) ← R.uint16 false reader;
    Ok (mkLoop self (mkParserState false (actionb_string state)) reader size'
          (if 0 <? skip then skip - 1 else skip) (idx + 1)).
Proof.
  intros Hv Hinfo Hraw Hsize Hhdr. unfold record_body.
  rewrite uint8_cons. cbn [mbind res_bind].
  destruct (Z.eqb_spec (b2z info) 0xFF); [done|].
  rewrite Hv. rewrite bool_decide_eq_false_2 by done. cbn [andb].
  rewrite bool_decide_eq_true_2 by done.
  destruct (Z.leb_spec 8 size); [|lia]. cbn [andb].
  rewrite Hraw. change (negb (0 =? 0)) with false. cbv iota.
  assert (R.skip (R.mk (hdr ++ data) (md5_update [info] <$> h)) 7
          = R.mk data (md5_update hdr <$> (md5_update [info] <$> h))) as ->.
  { unfold R.skip, R.read, R.file_read. cbn [snd R.file R.hash]. change (7 <? 0) with false.
    cbv iota. cbn [snd]. change (Z.to_nat 7) with 7%nat. rewrite <- Hhdr.
    by rewrite take_app_length, drop_app_length. }
  cbn [R.file].
  destruct (sprite_walk _ _ _) as [reader| |]; cbn [mbind res_bind]; [|done..].
  unfold read_size. rewrite Hv. rewrite bool_decide_eq_false_2 by done.
  by destruct (R.uint16 false reader) as [[? ?]| |].
Qed.

(** C1 (amended).  In the walk over a container-1 sprite that is not raw, a
    control byte with the high bit clear stands for a literal run of that
    many bytes (0 for 128), which are skipped, and a control byte with the
    high bit set for a back-reference of length 32 minus the control byte
    shifted right by 3 (its high 5 bits, so 1 to 16), followed by one offset
    byte.  When the record is accepted, the 8 header bytes plus the lengths
    of the runs walked are exactly the declared size; when a run reaches
    beyond the declared size the walk raises "Failed sprite decoding.";
    and a record whose runs add up to exactly the declared size is
    accepted: the loop goes on behind the runs with the next record size. *)
Theorem sprite_walk_exact :
  (∀ c : byte, b2z c < 0x80 →
     chunk_len (b2z c) = if b2z c =? 0 then 128 else b2z c)
  ∧ (∀ c : byte, 0x80 ≤ b2z c →
       chunk_len (b2z c) = 32 - b2z c ≫ 3 ∧ b2z c ≫ 3 = b2z c `div` 8
       ∧ 1 ≤ chunk_len (b2z c) ≤ 16)
  ∧ (∀ self state info hdr data h size skip idx,
       container_version self = Some 1 → b2z info ≠ 0xFF → Z.land (b2z info) 0x02 = 0 →
       8 ≤ size → length hdr = 7%nat →
       let ls := mkLoop self state (R.mk (info :: hdr ++ data) h) size skip idx in
       (∀ ls', record_body ls = Ok ls' →
          ∃ runs rest, walk_runs data runs rest ∧ 8 + sumZ (chunk_len <$> runs) = size)
       ∧ (∀ runs c rest,
            walk_runs data runs (c :: rest) →
            sumZ (chunk_len <$> runs) < size - 8 →
            size - 8 < sumZ (chunk_len <$> runs) + chunk_len (b2z c) →
            record_body ls = Raise (RuntimeError "Failed sprite decoding."))
       ∧ record_body ls ≠ OutOfFuel
       ∧ (∀ runs b0 b1 rest,
            walk_runs data runs (b0 :: b1 :: rest) →
            8 + sumZ (chunk_len <$> runs) = size →
            ∃ h',
              record_body ls
              = Ok (mkLoop self (mkParserState false (actionb_string state)) (R.mk rest h')
                      (b2z b0 + 256 * b2z b1) (if 0 <? skip then skip - 1 else skip)
                      (idx + 1)))).
Proof.
  split; [|split].
  - intros c Hc. unfold chunk_len. by destruct (Z.ltb_spec (b2z c) 0x80); [|lia].
  - intros c Hc. pose proof (chunk_len_byte c) as [H1 H2]. destruct (H2 Hc) as [H3 H4].
    rewrite Z.shiftr_div_pow2 by lia. change (2 ^ 3) with 8. repeat split; try done; lia.
  - intros self state info hdr data h size skip idx Hv Hinfo Hraw Hsize Hhdr ls.
    unfold ls. rewrite (record_body_v1_sprite _ _ _ _ _ _ _ _ _ Hv Hinfo Hraw Hsize Hhdr).
    split; [|split; [|split]].
    + intros ls' H. apply res_bind_ok in H as (reader & Hw & _).
      apply sprite_walk_ok in Hw as (runs & Hr & Hsum); [|lia].
      exists runs, (R.file reader). split; [done|lia].
    + intros runs c rest Hr Hlo Hhi.
      by erewrite (sprite_walk_overshoot data runs (c :: rest) Hr c rest); [| | |lia| |].
    + pose proof (sprite_walk_not_fuel (S (length data))
        (R.mk data (md5_update hdr <$> (md5_update [info] <$> h))) (size - 8)) as Hf.
      destruct (sprite_walk _ _ _) as [reader| |]; cbn [mbind res_bind]; [|done|].
      * pose proof (uint16_spec false reader) as Hs.
        by destruct (R.uint16 false reader) as [[? ?]| |].
      * exfalso. apply Hf; [simpl; lia|done].
    + intros runs b0 b1 rest Hr Hsum.
      destruct (sprite_walk_exact_sum data runs (b0 :: b1 :: rest) Hr (S (length data))
                  (R.mk data (md5_update hdr <$> (md5_update [info] <$> h))) (size - 8))
        as ([file h'] & -> & Hfile & _); [done|lia|lia|].
      cbn [R.file] in Hfile. subst file. cbn [mbind res_bind]. rewrite uint16_cons.
      cbn [mbind res_bind]. eauto.
Qed.

Lemma sprite_walk_exact_witness :
  chunk_len (b2z x05) = (if b2z x05 =? 0 then 128 else b2z x05)
  ∧ (chunk_len (b2z xf0) = 32 - b2z xf0 ≫ 3 ∧ b2z xf0 ≫ 3 = b2z xf0 `div` 8
     ∧ 1 ≤ chunk_len (b2z xf0) ≤ 16)
  ∧ (∀ ls',
       record_body
         (mkLoop (set_container_version (Some 1) new_NewGRF) new_ParserState
            (R.mk (x00 :: replicate 7 x00 ++ [x02; x41; x42; xf0; x01; x00; x00]) None) 12 0 1)
       = Ok ls' →
       ∃ runs rest, walk_runs [x02; x41; x42; xf0; x01; x00; x00] runs rest
                    ∧ 8 + sumZ (chunk_len <$> runs) = 12)
  ∧ ∃ h',
      record_body
        (mkLoop (set_container_version (Some 1) new_NewGRF) new_ParserState
           (R.mk (x00 :: replicate 7 x00 ++ [x02; x41; x42; xf0; x01; x00; x00]) None) 12 0 1)
      = Ok (mkLoop (set_container_version (Some 1) new_NewGRF)
              (mkParserState false (actionb_string new_ParserState)) (R.mk [] h')
              (b2z x00 + 256 * b2z x00) (if 0 <? 0 then 0 - 1 else 0) (1 + 1)).
Proof.
  split; [|split; [|split]].
  - apply (proj1 sprite_walk_exact x05). vm_compute. reflexivity.
  - apply (proj1 (proj2 sprite_walk_exact) xf0). vm_compute. discriminate.
  - apply (proj2 (proj2 sprite_walk_exact) (set_container_version (Some 1) new_NewGRF)
             new_ParserState x00 (replicate 7 x00) [x02; x41; x42; xf0; x01; x00; x00] None 12 0 1).
    + reflexivity.
    + vm_compute. discriminate.
    + reflexivity.
    + lia.
    + reflexivity.
  - apply (proj2 (proj2 (proj2 (proj2 (proj2 sprite_walk_exact)
             (set_container_version (Some 1) new_NewGRF) new_ParserState x00
             (replicate 7 x00) [x02; x41; x42; xf0; x01; x00; x00] None 12 0 1
             eq_refl ltac:(vm_compute; discriminate) eq_refl ltac:(lia) eq_refl)))
             [b2z x02; b2z xf0] x00 x00 []).
    + apply (walk_run x02 [x41; x42; xf0; x01; x00; x00] [b2z xf0] [x00; x00]).
      apply (walk_run xf0 [x01; x00; x00] [] [x00; x00]).
      apply (walk_done [x00; x00]).
    + vm_compute. reflexivity.
Defined.

(** The control byte [0x80] is a back-reference of length 16, not of length
    32: the record of declared size 8 + 16 whose stream is that one
    back-reference is accepted. *)
Lemma backref_len_not_low_bits :
  chunk_len 0x80 = 16
  ∧ backref_len_as_claimed 0x80 = 32
  ∧ is_ok (record_body
             (mkLoop (set_container_version (Some 1) new_NewGRF) new_ParserState
                (R.mk (x00 :: replicate 7 x00 ++ [x80; x01; x00; x00]) None) 24 0 1))
    = true.
Proof. repeat split; vm_compute; reflexivity. Qed.

(** ** What the dispatcher leaves alone *)

Lemma frame_refl self : frame self self.
Proof. by split. Qed.

Lemma frame_trans s1 s2 s3 : frame s1 s2 → frame s2 s3 → frame s1 s3.
Proof.
  intros [H1 H1'] [H2 H2']. split; [congruence|]. intros Hn.
  destruct (H1' Hn) as [Hn2 Hm2]. destruct (H2' Hn2) as [Hn3 Hm3]. split; congruence.
Qed.

Lemma for_each_inv {S A} (P : S → Prop) (xs : list A) (body : A → S → res S) s s' :
  (∀ x s s', P s → body x s = Ok s' → P s') →
  P s → for_each xs body s = Ok s' → P s'.
Proof.
  intros Hbody. revert s. induction xs as [|x xs IH]; intros s Hs H.
  - by injection H as <-.
  - cbn [for_each] in H. apply res_bind_ok in H as (s1 & H1 & H).
    eapply IH; [|done]. by eapply Hbody.
Qed.

Lemma strings_add_text_frame key lang_id text self self' :
  strings_add_text key lang_id text self = Ok self' → frame self self'.
Proof.
  unfold strings_add_text. intros H. apply res_bind_ok in H as (s & _ & [= <-]).
  by split.
Qed.

Lemma props_loop_frame n num_ids first_id reader self self' :
  props_loop n num_ids first_id reader self = Ok self' → frame self self'.
Proof.
  revert reader self. induction n as [|n IH]; intros reader self H.
  - injection H as <-. apply frame_refl.
  - cbn [props_loop] in H. apply res_bind_ok in H as ([prop r] & _ & H).
    repeat (match type of H with
            | (if ?c then _ else _) = _ => destruct c; [by apply IH in H|]
            end).
    destruct (prop =? 0x13).
    { apply res_bind_ok in H as ([r' table] & _ & H). apply IH in H.
      eapply frame_trans; [|exact H]. by split. }
    destruct (prop =? 0x14).
    { apply res_bind_ok in H as ([r' table] & _ & H). apply IH in H.
      eapply frame_trans; [|exact H]. by split. }
    destruct (prop =? 0x15).
    { apply res_bind_ok in H as ([r' table] & _ & H). apply IH in H.
      eapply frame_trans; [|exact H]. by split. }
    injection H as <-. apply frame_refl.
Qed.

Lemma action_00_frame self reader self' :
  action_00 self reader = Ok self' → frame self self'.
Proof.
  unfold action_00. intros H.
  apply res_bind_ok in H as ([feat r] & _ & H).
  apply res_bind_ok in H as ([num_props r1] & _ & H).
  apply res_bind_ok in H as ([num_ids r2] & _ & H).
  destruct (negb (num_ids =? 0)); [|injection H as <-; apply frame_refl].
  apply res_bind_ok in H as ([first_id r3] & _ & H).
  destruct (_ =? 0x08); [by apply props_loop_frame in H|].
  injection H as <-. apply frame_refl.
Qed.

Lemma action_04_frame self reader self' :
  action_04 self reader = Ok self' → frame self self'.
Proof.
  unfold action_04. intros H.
  apply res_bind_ok in H as ([feat r] & _ & H).
  apply res_bind_ok in H as ([lang_id r1] & _ & H).
  apply res_bind_ok in H as ([num_ids r2] & _ & H).
  apply res_bind_ok in H as ([[[first_id str_id] lang] r3] & _ & H).
  apply res_bind_ok in H as ([r4 self1] & H & [= <-]).
  apply (for_each_inv (λ s, frame self s.2)) in H; [done| |apply frame_refl].
  intros i [ra sa] [rb sb] Hs Hb. cbn [snd] in *.
  apply res_bind_ok in Hb as ([text r5] & _ & Hb).
  apply res_bind_ok in Hb as (sc & Hc & [= <- <-]).
  eapply frame_trans; [done|]. by eapply strings_add_text_frame.
Qed.

Lemma action_08_frame self reader self' :
  action_08 self reader = Ok self' → frame self self'.
Proof.
  unfold action_08. intros H.
  apply res_bind_ok in H as ([v r] & _ & H).
  apply res_bind_ok in H as ([id r1] & _ & H).
  apply res_bind_ok in H as ([name r2] & _ & H).
  apply res_bind_ok in H as (s1 & H1 & H).
  apply res_bind_ok in H as ([desc r3] & _ & H).
  apply strings_add_text_frame in H1, H.
  eapply frame_trans; [|exact H]. eapply frame_trans; [|exact H1]. by split.
Qed.

Lemma action_0B_frame self idx reader state self' state' :
  action_0B self idx reader state = Ok (self', state') → frame self self'.
Proof.
  unfold action_0B. intros H.
  destruct (actionb_string state) as [key|].
  - apply res_bind_ok in H as ([lang r] & _ & H).
    apply res_bind_ok in H as ([text r1] & _ & H).
    apply res_bind_ok in H as (s1 & H1 & [= <- _]).
    destruct (negb _); [by apply strings_add_text_frame in H1|].
    injection H1 as <-. apply frame_refl.
  - apply res_bind_ok in H as ([lang r] & _ & H).
    apply res_bind_ok in H as ([text r1] & _ & H).
    apply res_bind_ok in H as (s1 & H1 & [= <- _]).
    destruct (negb _).
    + apply strings_add_text_frame in H1. eapply frame_trans; [|exact H1]. by split.
    + injection H1 as <-. by split.
Qed.

Lemma a14_blob_frame self reader subpath self' reader' :
  a14_blob self reader subpath = Ok (self', reader') → frame self self'.
Proof.
  unfold a14_blob. intros H.
  apply res_bind_ok in H as ([size r] & _ & H).
  destruct (R.read r size) as [blob r1].
  apply res_bind_ok in H as ([self1 bdata] & H1 & H).
  assert (frame self self1) as F1.
  { destruct (bytes_eq subpath (lit "FIDMFTID") && truthy (_next_feature_map self)) eqn:E.
    - apply andb_true_iff in E as [_ E].
      destruct (_next_feature_map self) as [v|] eqn:En; [|done].
      apply res_bind_ok in H1 as ([k bd] & _ & [= <- _]).
      split; [done|]. by rewrite En.
    - injection H1 as <- _. apply frame_refl. }
  eapply frame_trans; [exact F1|].
  destruct (bytes_eq subpath (lit "INFOVRSN") && (4 <=? size)).
  { apply res_bind_ok in H as ([v bd] & _ & [= <- _]). by split. }
  destruct (bytes_eq subpath (lit "INFOMINV") && (4 <=? size)).
  { apply res_bind_ok in H as ([v bd] & _ & [= <- _]). by split. }
  injection H as <- _. apply frame_refl.
Qed.

(** The name of a ['T'] leaf never arms the feature map: it is a
    [bytearray], compared with a [str]. *)
Lemma a14_text_frame self reader subpath self' reader' :
  a14_text self reader subpath = Ok (self', reader') →
  frame self self' ∧ _next_feature_map self' = _next_feature_map self
  ∧ _feature_mapping self' = _feature_mapping self.
Proof.
  unfold a14_text. intros H.
  apply res_bind_ok in H as ([lang r] & _ & H).
  apply res_bind_ok in H as ([sdata r1] & _ & H).
  change (py_eq (PyBytes sdata) (PyStr (u "road_stops"))) with false in H.
  cbv beta iota zeta in H.
  replace (if bytes_eq subpath (lit "FIDMNAME") then self else self) with self in H
    by (by destruct (bytes_eq subpath (lit "FIDMNAME"))).
  apply res_bind_ok in H as (self1 & H1 & [= <- _]).
  assert (frame self self1 ∧ _next_feature_map self1 = _next_feature_map self
          ∧ _feature_mapping self1 = _feature_mapping self) as HF; [|done].
  assert (∀ key, strings_add_text key lang sdata self = Ok self1 →
            frame self self1 ∧ _next_feature_map self1 = _next_feature_map self
            ∧ _feature_mapping self1 = _feature_mapping self) as Hadd.
  { intros key Hk. split; [by eapply strings_add_text_frame|].
    unfold strings_add_text in Hk. apply res_bind_ok in Hk as (s & _ & [= <-]). done. }
  cbv zeta in H1.
  repeat (match type of H1 with
          | (if ?c then _ else _) = _ => destruct c; [by eapply Hadd|]
          end).
  injection H1 as <-. split; [apply frame_refl|done].
Qed.

Lemma read_a14_frame fuel self reader path ok self' reader' :
  read_a14 fuel self reader path = Ok (ok, self', reader') → frame self self'.
Proof.
  revert self reader path ok self' reader'.
  induction fuel as [|fuel IH]; intros self reader path ok self' reader' H; [done|].
  cbn [read_a14] in H. apply res_bind_ok in H as ([type_id r] & _ & H).
  destruct (type_id =? 0); [injection H as _ <- _; apply frame_refl|].
  destruct (R.read r 4) as [segment r1].
  destruct (type_id =? ord "C").
  { apply res_bind_ok in H as ([[ok1 self1] r2] & H1 & H). apply IH in H1.
    destruct (negb ok1); [by injection H as _ <- _|].
    apply IH in H. by eapply frame_trans. }
  destruct (type_id =? ord "B").
  { apply res_bind_ok in H as ([self1 r2] & H1 & H). apply a14_blob_frame in H1.
    apply IH in H. by eapply frame_trans. }
  destruct (type_id =? ord "T").
  { apply res_bind_ok in H as ([self1 r2] & H1 & H). apply a14_text_frame in H1 as [H1 _].
    apply IH in H. by eapply frame_trans. }
  injection H as _ <- _. apply frame_refl.
Qed.

Lemma read_pseudo_frame self idx pseudo state skip self' state' :
  read_pseudo self idx pseudo state = Ok (skip, self', state') → frame self self'.
Proof.
  unfold read_pseudo. intros H. apply res_bind_ok in H as ([action r] & _ & H).
  destruct (action =? 0x00).
  { apply res_bind_ok in H as (s & Hs & [= _ <- _]). by apply action_00_frame in Hs. }
  destruct (action =? 0x01).
  { apply res_bind_ok in H as (s & Hs & [= _ <- _]). apply frame_refl. }
  destruct (action =? 0x04).
  { apply res_bind_ok in H as (s & Hs & [= _ <- _]). by apply action_04_frame in Hs. }
  destruct (action =? 0x05).
  { apply res_bind_ok in H as (s & Hs & [= _ <- _]). apply frame_refl. }
  destruct (action =? 0x06); [injection H as _ <- _; apply frame_refl|].
  destruct (bool_decide (action ∈ [0x07; 0x09])); [injection H as _ <- _; apply frame_refl|].
  destruct (action =? 0x08).
  { apply res_bind_ok in H as (s & Hs & [= _ <- _]). by apply action_08_frame in Hs. }
  destruct (action =? 0x0A).
  { apply res_bind_ok in H as (s & Hs & [= _ <- _]). apply frame_refl. }
  destruct (action =? 0x0B).
  { apply res_bind_ok in H as ([s st] & Hs & [= _ <- _]). by apply action_0B_frame in Hs. }
  destruct (action =? 0x11).
  { apply res_bind_ok in H as ([s st] & Hs & [= _ <- _]). apply frame_refl. }
  destruct (action =? 0x12).
  { apply res_bind_ok in H as (s & Hs & [= _ <- _]). apply frame_refl. }
  destruct (action =? 0x14).
  { apply res_bind_ok in H as ([[ok s] r1] & Hs & [= _ <- _]). by apply read_a14_frame in Hs. }
  injection H as _ <- _. apply frame_refl.
Qed.

(** ** The record loop: the cursor only moves forward, feeding the hash *)

Lemma uint8_advances r v r' : R.uint8 r = Ok (v, r') → advances r r'.
Proof. intros H. pose proof (uint8_spec r) as Hs. rewrite H in Hs. by eapply fixed_read_advances. Qed.

Lemma uint16_advances be r v r' : R.uint16 be r = Ok (v, r') → advances r r'.
Proof. intros H. pose proof (uint16_spec be r) as Hs. rewrite H in Hs. by eapply fixed_read_advances. Qed.

Lemma uint32_advances be r v r' : R.uint32 be r = Ok (v, r') → advances r r'.
Proof. intros H. pose proof (uint32_spec be r) as Hs. rewrite H in Hs. by eapply fixed_read_advances. Qed.

Lemma read_size_advances self r v r' : read_size self r = Ok (v, r') → advances r r'.
Proof.
  unfold read_size. destruct (bool_decide _); [apply uint32_advances|apply uint16_advances].
Qed.

Lemma sprite_walk_advances fuel r size r' :
  sprite_walk fuel r size = Ok r' → advances r r'.
Proof.
  revert r size. induction fuel as [|fuel IH]; intros r size H; cbn [sprite_walk] in H.
  - destruct (0 <? size); [done|]. injection H as <-. apply advances_refl.
  - destruct (0 <? size); [|injection H as <-; apply advances_refl].
    apply res_bind_ok in H as ([i r1] & H1 & H). apply uint8_advances in H1.
    destruct (size <? chunk_len i); [done|]. apply IH in H.
    eapply advances_trans; [exact H1|]. eapply advances_trans; [|exact H].
    destruct (i <? 0x80); apply skip_advances.
Qed.

Lemma record_body_inv ls ls' :
  record_body ls = Ok ls' →
  advances (ls_reader ls) (ls_reader ls') ∧ frame (ls_self ls) (ls_self ls').
Proof.
  destruct ls as [self state reader size skip idx]. unfold record_body. intros H.
  apply res_bind_ok in H as ([info r] & Hi & H). apply uint8_advances in Hi.
  apply res_bind_ok in H as ([[[self1 state1] r1] skip1] & Hb & H).
  apply res_bind_ok in H as ([size' r2] & Hs & [= <-]). cbn [ls_reader ls_self].
  assert (advances r r1 ∧ frame self self1) as [Ha Hf].
  { destruct (info =? 0xFF).
    - destruct (0 <? skip).
      + injection Hb as <- _ <- _. split; [apply skip_advances|apply frame_refl].
      + pose proof (read_advances r size) as Hr. destruct (R.read r size) as [pseudo rp].
        destruct (negb (idx =? 0)).
        * apply res_bind_ok in Hb as ([[sk s] st] & Hp & [= <- _ <- _]).
          split; [done|]. by apply read_pseudo_frame in Hp.
        * injection Hb as <- _ <- _. split; [done|apply frame_refl].
    - destruct (bool_decide (container_version self = Some 2) && (info =? 0xFD)).
      { injection Hb as <- _ <- _. split; [apply skip_advances|apply frame_refl]. }
      destruct (bool_decide (container_version self = Some 1) && (8 <=? size)); [|done].
      destruct (negb (Z.land info 0x02 =? 0)).
      + injection Hb as <- _ <- _. split; [|apply frame_refl].
        eapply advances_trans; apply skip_advances.
      + apply res_bind_ok in Hb as (rw & Hw & [= <- _ <- _]). split; [|apply frame_refl].
        apply sprite_walk_advances in Hw. eapply advances_trans; [apply skip_advances|done]. }
  split; [|done].
  eapply advances_trans; [exact Hi|]. eapply advances_trans; [exact Ha|].
  eapply read_size_advances. exact Hs.
Qed.

Lemma record_loop_inv fuel ls ls' :
  record_loop fuel ls = Ok ls' →
  advances (ls_reader ls) (ls_reader ls') ∧ frame (ls_self ls) (ls_self ls')
  ∧ ls_size ls' = 0.
Proof.
  revert ls. induction fuel as [|fuel IH]; intros ls H; cbn [record_loop] in H.
  - destruct (Z.eqb_spec (ls_size ls) 0); [|done]. injection H as <-.
    split; [apply advances_refl|]. split; [apply frame_refl|done].
  - destruct (Z.eqb_spec (ls_size ls) 0).
    + injection H as <-. split; [apply advances_refl|]. split; [apply frame_refl|done].
    + apply res_bind_ok in H as (ls1 & H1 & H). apply record_body_inv in H1 as [Ha Hf].
      apply IH in H as (Ha' & Hf' & Hz).
      split; [by eapply advances_trans|]. split; [by eapply frame_trans|done].
Qed.

Lemma hashed_advances fp r r' : hashed fp r → advances r r' → hashed fp r'.
Proof.
  intros (d & Hh & Hf) (c & Hc & Hh'). exists (d ++ c). rewrite Hh', Hh. split; [done|].
  by rewrite Hf, Hc, app_assoc.
Qed.

Lemma read_header_inv self r self' size r' :
  read_header self r = Ok (self', size, r') →
  advances r r'
  ∧ (container_version self' = Some 1 ∨ container_version self' = Some 2)
  ∧ _next_feature_map self' = _next_feature_map self
  ∧ _feature_mapping self' = _feature_mapping self.
Proof.
  unfold read_header. intros H. apply res_bind_ok in H as ([sz r1] & H1 & H).
  apply uint16_advances in H1. destruct (sz =? 0).
  - pose proof (read_advances r1 8) as Hr. destruct (R.read r1 8) as [magic r2].
    destruct (bytes_eq magic GRF_MAGIC); [|done].
    apply res_bind_ok in H as ([x r3] & H3 & H). apply uint32_advances in H3.
    apply res_bind_ok in H as ([comp r4] & H4 & H). apply uint8_advances in H4.
    destruct (negb (comp =? 0)); [done|].
    apply res_bind_ok in H as ([sz' r5] & H5 & [= <- _ <-]). apply uint32_advances in H5.
    split; [|split; [by right|done]].
    eapply advances_trans; [exact H1|]. eapply advances_trans; [exact Hr|].
    eapply advances_trans; [exact H3|]. by eapply advances_trans.
  - injection H as <- _ <-. split; [done|]. split; [by left|done].
Qed.

Lemma uint8_eof_file r msg : R.uint8 r = Raise (RuntimeError msg) → R.file r = [].
Proof. destruct r as [[|b rest] h]; [done|]. by rewrite uint8_cons. Qed.

Lemma read_trailer_inv self r g :
  read_trailer self r = Ok g →
  container_version g = container_version self
  ∧ ((container_version self = Some 1
      ∧ ∃ c, R.file r = c ++ [] ∧ (2 ≤ length c ≤ 4)%nat
             ∧ md5sum g = Some (MD5 (default md5_new ((λ h, h ++ c) <$> R.hash r))))
     ∨ (container_version self ≠ Some 1
        ∧ md5sum g = Some (MD5 (default md5_new (R.hash r)))
        ∧ (container_version self = Some 2 → (4 ≤ length (R.file r))%nat))).
Proof.
  unfold read_trailer. intros H.
  destruct (decide (container_version self = Some 1)) as [Hv|Hv].
  - rewrite (bool_decide_eq_true_2 _ Hv) in H.
    rewrite bool_decide_eq_false_2 in H by (rewrite Hv; done).
    apply res_bind_ok in H as (r2 & H2 & H). apply res_bind_ok in H2 as ([x r1] & H1 & H2).
    destruct (R.read r1 2) as [b r2'] eqn:Er. injection H2 as ->. cbn [mbind res_bind] in H.
    pose proof (uint16_spec false r) as Hs. rewrite H1 in Hs.
    destruct Hs as (c1 & Hc1 & Hf1 & Hh1 & _).
    destruct (read_spec _ _ _ _ Er) as [Hf2 Hh2].
    pose proof (read_length _ _ _ _ Er ltac:(lia)) as Hl2.
    destruct (R.uint8 (R.detach_hash r2)) as [?|e|] eqn:E8; [done| |done].
    destruct e as [msg| | | |]; try done. injection H as <-.
    apply uint8_eof_file in E8. cbn [R.detach_hash R.file] in E8.
    split; [done|]. left. split; [done|]. exists (c1 ++ b). split.
    + by rewrite Hf1, Hf2, E8, !app_nil_r.
    + split; [rewrite length_app; lia|]. cbn [md5sum set_md5sum]. unfold md5_digest.
      rewrite Hh2, Hh1. destruct (R.hash r); cbn; [by rewrite app_assoc|done].
  - rewrite (bool_decide_eq_false_2 _ Hv) in H. cbn [mbind res_bind] in H.
    apply res_bind_ok in H as (r2 & H2 & H).
    destruct (R.uint8 r2) as [?|e|] eqn:E8; [done| |done].
    destruct e as [msg| | | |]; try done. injection H as <-.
    split; [done|]. right. split; [done|]. split; [done|].
    intros Hv2. rewrite (bool_decide_eq_true_2 _ Hv2) in H2.
    apply res_bind_ok in H2 as ([id r1] & H1 & _).
    pose proof (uint32_spec false (R.detach_hash r)) as Hs. rewrite H1 in Hs.
    apply fixed_read_length in Hs. cbn [R.detach_hash R.file] in Hs. lia.
Qed.

(** C2 (amended).  A successful parse splits the file into the bytes that
    the header and the record loop consume and a trailer.  For container 2
    the hash is detached before the trailer blocks are read: the fingerprint
    covers exactly the first part.  For container 1 the two 16-bit trailer
    fields are read before the hash is detached: the fingerprint covers the
    whole file, trailer included. *)
Theorem md5sum_coverage (self : t) (fp : bytes) (g : t) :
  read self fp = Ok g →
  ∃ body trailer,
    fp = body ++ trailer
    ∧ (∃ self1 size reader1 ls,
         read_header self (R.mk fp (Some md5_new)) = Ok (self1, size, reader1)
         ∧ record_loop (S (length (R.file reader1)))
             (mkLoop self1 new_ParserState reader1 size 0 0) = Ok ls
         ∧ R.hash (ls_reader ls) = Some body ∧ R.file (ls_reader ls) = trailer)
    ∧ ((container_version g = Some 1 ∧ md5sum g = Some (MD5 (body ++ trailer))
        ∧ (2 ≤ length trailer ≤ 4)%nat)
       ∨ (container_version g = Some 2 ∧ md5sum g = Some (MD5 body)
          ∧ (4 ≤ length trailer)%nat)).
Proof.
  unfold read. intros H.
  apply res_bind_ok in H as ([[self1 size] reader1] & Hh & H).
  apply res_bind_ok in H as (ls & Hl & Ht).
  pose proof (read_header_inv _ _ _ _ _ Hh) as (Ha1 & Hcv & _).
  pose proof (record_loop_inv _ _ _ Hl) as (Ha2 & [Hf _] & _). cbn [ls_reader ls_self] in *.
  assert (hashed fp (ls_reader ls)) as (body & Hb & Hfp).
  { eapply hashed_advances; [|eapply advances_trans; [exact Ha1|exact Ha2]].
    exists []. by split. }
  exists body, (R.file (ls_reader ls)). split; [done|]. split; [by exists self1, size, reader1, ls|].
  apply read_trailer_inv in Ht as (Hg & [(Hv & c & Hc & Hlen & Hm)|(Hv & Hm & Hlen)]).
  - left. rewrite app_nil_r in Hc. rewrite Hg, Hc. split; [done|]. split; [|done].
    rewrite Hm, Hb. done.
  - right. rewrite Hf in Hv. destruct Hcv as [Hcv|Hcv]; [done|].
    rewrite Hg, Hf. split; [done|]. split; [by rewrite Hm, Hb|]. apply Hlen. by rewrite Hf.
Qed.

Lemma md5sum_coverage_witness :
  ∃ g, read new_NewGRF v2_file = Ok g
    ∧ ∃ body trailer,
        v2_file = body ++ trailer
        ∧ (∃ self1 size reader1 ls,
             read_header new_NewGRF (R.mk v2_file (Some md5_new)) = Ok (self1, size, reader1)
             ∧ record_loop (S (length (R.file reader1)))
                 (mkLoop self1 new_ParserState reader1 size 0 0) = Ok ls
             ∧ R.hash (ls_reader ls) = Some body ∧ R.file (ls_reader ls) = trailer)
        ∧ ((container_version g = Some 1 ∧ md5sum g = Some (MD5 (body ++ trailer))
            ∧ (2 ≤ length trailer ≤ 4)%nat)
           ∨ (container_version g = Some 2 ∧ md5sum g = Some (MD5 body)
              ∧ (4 ≤ length trailer)%nat)).
Proof.
  eexists. split; [vm_compute; reflexivity|].
  apply (md5sum_coverage new_NewGRF v2_file). vm_compute. reflexivity.
Defined.

(** In container 1 the trailer bytes go into the fingerprint. *)
Lemma v1_trailer_is_hashed :
  ∃ g, read new_NewGRF v1_file = Ok g
    ∧ container_version g = Some 1
    ∧ md5sum g = Some (MD5 (v1_records ++ v1_trailer))
    ∧ md5sum g ≠ Some (MD5 v1_records).
Proof. eexists. split; [vm_compute; reflexivity|]. repeat split. discriminate. Qed.

(** ** Pseudo-sprite records *)

(** C3 (amended).  For a record of kind 0xFF met while the skip budget is
    zero, the parser reads the declared length as the payload.  When the
    sprite index is not 0 it calls the dispatcher on the payload with the
    sprite index and the parser state, and the returned count becomes the
    skip budget (0 plus that count); the record with sprite index 0 is read
    and dropped without calling the dispatcher.  Then the index advances and
    the next record size is read. *)
Theorem pseudo_sprite_dispatch (self : t) (state : ParserState) (info : byte)
    (rest : bytes) (h : option md5_obj) (size idx : Z) :
  b2z info = 0xFF → 0 ≤ size →
  let ls := mkLoop self state (R.mk (info :: rest) h) size 0 idx in
  let pseudo := take (Z.to_nat size) rest in
  let reader := R.mk (drop (Z.to_nat size) rest)
                  (md5_update pseudo <$> (md5_update [info] <$> h)) in
  (idx ≠ 0 →
   record_body ls
   = '(skip, self', state') ← read_pseudo self idx pseudo state;
     '(size', reader') ← read_size self' reader;
     Ok (mkLoop self' state' reader' size' (0 + skip) (idx + 1)))
  ∧ (idx = 0 →
     record_body ls
     = '(size', reader') ← read_size self reader;
       Ok (mkLoop self state reader' size' 0 1)).
Proof.
  intros Hi Hs ls pseudo reader. unfold ls, record_body.
  rewrite uint8_cons. cbn [mbind res_bind]. rewrite Hi.
  change (255 =? 255) with true. change (0 <? 0) with false. cbv iota.
  assert (R.read (R.mk rest (md5_update [info] <$> h)) size = (pseudo, reader)) as ->.
  { unfold R.read, R.file_read. cbn [R.file R.hash].
    by destruct (Z.ltb_spec size 0); [lia|]. }
  split.
  - intros Hidx. destruct (Z.eqb_spec idx 0); [done|]. cbn [negb].
    destruct (read_pseudo self idx pseudo state) as [[[skip self'] state']| |];
      cbn [mbind res_bind]; [|done..].
    by destruct (read_size self' reader) as [[? ?]| |].
  - intros ->. change (negb (0 =? 0)) with false. cbv iota. cbn [mbind res_bind].
    by destruct (read_size self reader) as [[? ?]| |].
Qed.

Lemma pseudo_sprite_dispatch_witness :
  record_body
    (mkLoop (set_container_version (Some 1) new_NewGRF) new_ParserState
       (R.mk (xff :: [x11; x05; x00; x00; x00]) None) 3 0 4)
  = '(skip, self', state') ←
      read_pseudo (set_container_version (Some 1) new_NewGRF) 4
        (take (Z.to_nat 3) [x11; x05; x00; x00; x00]) new_ParserState;
    '(size', reader') ←
      read_size self'
        (R.mk (drop (Z.to_nat 3) [x11; x05; x00; x00; x00])
           (md5_update (take (Z.to_nat 3) [x11; x05; x00; x00; x00])
              <$> (md5_update [xff] <$> None)));
    Ok (mkLoop self' state' reader' size' (0 + skip) (4 + 1)).
Proof.
  apply (pseudo_sprite_dispatch (set_container_version (Some 1) new_NewGRF) new_ParserState
           xff [x11; x05; x00; x00; x00] None 3 4); [reflexivity|lia|lia].
Defined.

(** The first record of a file is not dispatched: its Action 0x11 payload
    asks to skip 5 sprites, and the skip budget stays 0. *)
Lemma first_record_not_dispatched :
  read_pseudo (set_container_version (Some 1) new_NewGRF) 0 [x11; x05; x00] new_ParserState
  = Ok (5, set_container_version (Some 1) new_NewGRF, new_ParserState)
  ∧ record_body
      (mkLoop (set_container_version (Some 1) new_NewGRF) new_ParserState
         (R.mk [xff; x11; x05; x00; x00; x00] None) 3 0 0)
    = Ok (mkLoop (set_container_version (Some 1) new_NewGRF) new_ParserState
            (R.mk [] None) 0 0 1).
Proof. split; vm_compute; reflexivity. Qed.

(** ** The feature map *)

Lemma read_trailer_frame self r g : read_trailer self r = Ok g → frame self g.
Proof.
  unfold read_trailer. intros H.
  apply res_bind_ok in H as (r1 & _ & H). apply res_bind_ok in H as (r2 & _ & H).
  destruct (R.uint8 r2) as [?|e|]; [done| |done].
  destruct e; try done. injection H as <-. by split.
Qed.

(** X14.  Whatever the file holds, parsing it leaves the feature map as it was:
    no ['T'] leaf arms an entry, so no ['B'] leaf commits one. *)
Lemma feature_map_never_armed self fp g :
  _next_feature_map self = None → read self fp = Ok g →
  _next_feature_map g = None ∧ _feature_mapping g = _feature_mapping self.
Proof.
  unfold read. intros Hn H.
  apply res_bind_ok in H as ([[self1 size] reader1] & Hh & H).
  apply res_bind_ok in H as (ls & Hl & Ht).
  apply read_header_inv in Hh as (_ & _ & Hn1 & Hm1).
  apply record_loop_inv in Hl as (_ & [_ Hf] & _). cbn [ls_self] in Hf.
  apply read_trailer_frame in Ht as [_ Hg].
  destruct (Hf ltac:(congruence)) as [Hn2 Hm2]. destruct (Hg Hn2) as [Hn3 Hm3].
  split; congruence.
Qed.

(** C4.  The text of the "FIDMNAME" leaf is never equal to the sentinel,
    whatever its bytes: on [fidm_payload] the dispatcher arms and commits
    nothing, and the Action 4 that follows files its string under the
    unmapped feature number 0x55, not under the road-stop feature. *)
Theorem road_stops_mapping_not_committed :
  (∀ sdata : bytes, py_eq (PyBytes sdata) (PyStr (u "road_stops")) = false)
  ∧ read_pseudo new_NewGRF 1 fidm_payload new_ParserState
    = Ok (0, new_NewGRF, new_ParserState)
  ∧ ∃ g, read_pseudo new_NewGRF 2 stop_name_payload new_ParserState
         = Ok (0, g, new_ParserState)
      ∧ strings g !! "STR_85_0" = Some (mkGRFString [] [(0x7F, lit "Stop")])
      ∧ strings g !! "STR_ROAD_STOP_0" = None.
Proof.
  split; [done|]. split; [vm_compute; reflexivity|].
  eexists. split; [vm_compute; reflexivity|]. split; vm_compute; reflexivity.
Qed.

(** ** Termination of the parser, and the exceptions it raises *)

Ltac ro :=
  first [ done
        | exact I
        | by (left; eexists)
        | by right
        | by (cbn; first [exact I | left; eexists; reflexivity | right; reflexivity]) ].

Lemma bind_ro {A B} (m : res A) (f : A → res B) :
  raises_only parse_exn m → (∀ a, m = Ok a → raises_only parse_exn (f a)) →
  raises_only parse_exn (m ≫= f).
Proof. destruct m; cbn [mbind res_bind]; [intros _ H; by apply H|done|done]. Qed.

Lemma ro_not_fuel {A} (m : res A) : raises_only parse_exn m → m ≠ OutOfFuel.
Proof. by destruct m. Qed.

Lemma fixed_read_ro n r m : fixed_read n r m → raises_only parse_exn m.
Proof. destruct m as [a|e|]; cbn; [done| |done]. intros ->. left. by eexists. Qed.

Lemma uint8_ro r : raises_only parse_exn (R.uint8 r).
Proof. eapply fixed_read_ro, uint8_spec. Qed.

Lemma uint16_ro be r : raises_only parse_exn (R.uint16 be r).
Proof. eapply fixed_read_ro, uint16_spec. Qed.

Lemma uint32_ro be r : raises_only parse_exn (R.uint32 be r).
Proof. eapply fixed_read_ro, uint32_spec. Qed.

Lemma uint_ext_ro r : raises_only parse_exn (R.uint_ext r).
Proof.
  unfold R.uint_ext. apply bind_ro; [apply uint8_ro|].
  intros [b r'] _. destruct (b =? 0xFF); [apply uint16_ro|ro].
Qed.

Lemma uint_ext_advances r v r' : R.uint_ext r = Ok (v, r') → advances r r'.
Proof.
  unfold R.uint_ext. intros H. apply res_bind_ok in H as ([b r1] & H1 & H).
  apply uint8_advances in H1. destruct (b =? 0xFF).
  - apply uint16_advances in H. by eapply advances_trans.
  - by injection H as _ <-.
Qed.

Lemma uint8_shorter r v r' :
  R.uint8 r = Ok (v, r') → (length (R.file r') < length (R.file r))%nat.
Proof.
  intros H. pose proof (uint8_spec r) as Hs. rewrite H in Hs.
  apply fixed_read_length in Hs. lia.
Qed.

(** [str] always returns: it stops at a NUL byte or at the end of the
    data. *)
Lemma str_loop_spec fuel r result :
  (length (R.file r) < fuel)%nat →
  ∃ s r', R.str_loop fuel r result = Ok (s, r') ∧ advances r r'.
Proof.
  revert r result. induction fuel as [|fuel IH]; intros r result Hf; [lia|].
  cbn [R.str_loop]. destruct (R.read r 1) as [b r1] eqn:E.
  pose proof (read_advances r 1) as Ha. rewrite E in Ha. cbn [snd] in Ha.
  destruct (decide (b = [x00] ∨ b = [])) as [Hb|Hb]; [by eauto|].
  destruct (read_spec _ _ _ _ E) as [Hfile _].
  destruct (IH r1 (result ++ b)) as (s & r' & Hs & Ha').
  - rewrite Hfile, length_app in Hf. destruct b; [by destruct Hb; right|]. simpl in Hf. lia.
  - exists s, r'. split; [ro|]. by eapply advances_trans.
Qed.

Lemma str_spec r : ∃ s r', R.str r = Ok (s, r') ∧ advances r r'.
Proof. apply str_loop_spec. lia. Qed.

Lemma for_each_ro {S A} (xs : list A) (body : A → S → res S) s :
  (∀ x s, raises_only parse_exn (body x s)) → raises_only parse_exn (for_each xs body s).
Proof.
  intros Hb. revert s. induction xs as [|x xs IH]; intros s; [ro|].
  cbn [for_each]. apply bind_ro; [apply Hb|]. intros s' _. apply IH.
Qed.

Lemma utf8_decode_ro b : raises_only parse_exn (utf8_decode b).
Proof.
  induction b as [b IH] using (induction_ltof1 _ (@length byte)). unfold ltof in IH.
  destruct b as [|b0 t0]; [ro|]. cbn [utf8_decode].
  destruct (b2z b0 <? 0x80).
  { apply bind_ro; [apply IH; simpl; lia|ro]. }
  destruct ((0xC2 <=? b2z b0) && (b2z b0 <=? 0xDF)).
  { destruct t0 as [|b1 t1]; [ro|]. destruct (cont 0x80 0xBF b1); [|ro].
    apply bind_ro; [apply IH; simpl; lia|ro]. }
  destruct ((0xE0 <=? b2z b0) && (b2z b0 <=? 0xEF)).
  { destruct t0 as [|b1 [|b2 t2]]; [ro..|]. destruct (_ && _); [|ro].
    apply bind_ro; [apply IH; simpl; lia|ro]. }
  destruct ((0xF0 <=? b2z b0) && (b2z b0 <=? 0xF4)); [|ro].
  destruct t0 as [|b1 [|b2 [|b3 t3]]]; [ro..|]. destruct (_ && _ && _); [|ro].
  apply bind_ro; [apply IH; simpl; lia|ro].
Qed.

Lemma add_text_ro s lang_id text : raises_only parse_exn (add_text s lang_id text).
Proof.
  unfold add_text. destruct (lang_id =? 0x7E); [|ro].
  unfold ascii_decode. destruct (forallb _ _); ro.
Qed.

Lemma strings_add_text_ro key lang_id text self :
  raises_only parse_exn (strings_add_text key lang_id text self).
Proof. unfold strings_add_text. apply bind_ro; [apply add_text_ro|ro]. Qed.

Lemma str_ro r : raises_only parse_exn (R.str r).
Proof. destruct (str_spec r) as (s & r' & -> & _). ro. Qed.

Lemma str_advances r s r' : R.str r = Ok (s, r') → advances r r'.
Proof. destruct (str_spec r) as (s0 & r0 & -> & Ha). by intros [= _ <-]. Qed.

Lemma names_loop_ro fuel id reader table :
  (length (R.file reader) < fuel)%nat → raises_only parse_exn (names_loop fuel id reader table).
Proof.
  revert reader table. induction fuel as [|fuel IH]; intros reader table Hf; [lia|].
  cbn [names_loop]. apply bind_ro; [apply uint8_ro|].
  intros [gi r1] H1. apply uint8_shorter in H1. destruct (gi =? 0); [ro|].
  apply bind_ro; [apply str_ro|]. intros [raw r2] H2.
  apply str_advances, advances_length in H2.
  apply bind_ro; [apply utf8_decode_ro|]. intros name _. apply IH. lia.
Qed.

Lemma names_prop_ro num_ids first_id reader table :
  raises_only parse_exn (names_prop num_ids first_id reader table).
Proof.
  unfold names_prop. apply for_each_ro. intros i [r t]. apply names_loop_ro. lia.
Qed.

Lemma props_loop_ro n num_ids first_id reader self :
  raises_only parse_exn (props_loop n num_ids first_id reader self).
Proof.
  revert reader self. induction n as [|n IH]; intros reader self; [ro|].
  cbn [props_loop]. apply bind_ro; [apply uint8_ro|]. intros [prop r] _.
  repeat (match goal with
          | |- raises_only _ (if ?c then _ else _) => destruct c; [by apply IH|]
          end).
  destruct (prop =? 0x13).
  { apply bind_ro; [apply names_prop_ro|]. intros [r' t] _. apply IH. }
  destruct (prop =? 0x14).
  { apply bind_ro; [apply names_prop_ro|]. intros [r' t] _. apply IH. }
  destruct (prop =? 0x15); [|ro].
  apply bind_ro; [|intros [r' t] _; apply IH].
  apply for_each_ro. intros i [r' t].
  apply bind_ro; [apply uint8_ro|]. (intros [v r''] _; ro).
Qed.

Lemma action_00_ro self reader : raises_only parse_exn (action_00 self reader).
Proof.
  unfold action_00. apply bind_ro; [apply uint8_ro|]. intros [feat r] _.
  apply bind_ro; [apply uint8_ro|]. intros [num_props r1] _.
  apply bind_ro; [apply uint8_ro|]. intros [num_ids r2] _.
  destruct (negb (num_ids =? 0)); [|ro].
  apply bind_ro; [apply uint_ext_ro|]. intros [first_id r3] _.
  destruct (_ =? 0x08); [apply props_loop_ro|ro].
Qed.

Lemma action_01_ro pseudo reader : raises_only parse_exn (action_01 pseudo reader).
Proof.
  unfold action_01. apply bind_ro; [apply uint8_ro|]. intros [x r] _.
  apply bind_ro; [apply uint8_ro|]. intros [num_sets r1] _.
  apply bind_ro.
  - destruct (_ && _); [|ro]. apply bind_ro; [apply uint_ext_ro|].
    intros [y r2] _. apply uint_ext_ro.
  - intros [n r2] _. apply bind_ro; [apply uint_ext_ro|]. (intros [e r3] _; ro).
Qed.

Lemma action_04_ro self reader : raises_only parse_exn (action_04 self reader).
Proof.
  unfold action_04. apply bind_ro; [apply uint8_ro|]. intros [feat r] _.
  apply bind_ro; [apply uint8_ro|]. intros [lang_id r1] _.
  apply bind_ro; [apply uint8_ro|]. intros [num_ids r2] _.
  apply bind_ro.
  - destruct (lang_id <? 0x80).
    + apply bind_ro; [apply uint_ext_ro|]. (intros [f r3] _; ro).
    + apply bind_ro; [apply uint16_ro|]. (intros [f r3] _; ro).
  - intros [[[first_id str_id] lang] r3] _. apply bind_ro; [|(intros [r4 s] _; ro)].
    apply for_each_ro. intros i [r4 s].
    apply bind_ro; [apply str_ro|]. intros [text r5] _.
    apply bind_ro; [apply strings_add_text_ro|ro].
Qed.

Lemma action_05_ro reader : raises_only parse_exn (action_05 reader).
Proof. unfold action_05. apply bind_ro; [apply uint_ext_ro|]. (intros [n r] _; ro). Qed.

Lemma action_08_ro self reader : raises_only parse_exn (action_08 self reader).
Proof.
  unfold action_08. apply bind_ro; [apply uint8_ro|]. intros [v r] _.
  apply bind_ro; [apply uint32_ro|]. intros [id r1] _.
  apply bind_ro; [apply str_ro|]. intros [name r2] _.
  apply bind_ro; [apply strings_add_text_ro|]. intros s _.
  apply bind_ro; [apply str_ro|]. intros [desc r3] _.
  apply strings_add_text_ro.
Qed.

Lemma action_0A_ro reader : raises_only parse_exn (action_0A reader).
Proof.
  unfold action_0A. apply bind_ro; [apply uint8_ro|]. intros [n r] _.
  apply bind_ro; [|(intros [r1 s] _; ro)]. apply for_each_ro. intros i [r1 s].
  apply bind_ro; [apply uint8_ro|]. (intros [k r2] _; ro).
Qed.

Lemma action_0B_ro self idx reader state : raises_only parse_exn (action_0B self idx reader state).
Proof.
  unfold action_0B. destruct (actionb_string state) as [key|];
    (apply bind_ro; [apply uint8_ro|]; intros [lang r] _;
     apply bind_ro; [apply str_ro|]; intros [text r1] _;
     apply bind_ro; [|ro];
     destruct (negb _); [apply strings_add_text_ro|ro]).
Qed.

Lemma action_12_ro reader : raises_only parse_exn (action_12 reader).
Proof.
  unfold action_12. apply bind_ro; [apply uint8_ro|]. intros [n r] _.
  apply bind_ro; [|(intros [r1 s] _; ro)]. apply for_each_ro. intros i [r1 s].
  apply bind_ro; [apply uint8_ro|]. (intros [k r2] _; ro).
Qed.

Lemma a14_blob_total self reader subpath :
  raises_only parse_exn (a14_blob self reader subpath)
  ∧ ∀ self' reader', a14_blob self reader subpath = Ok (self', reader') →
      advances reader reader'.
Proof.
  unfold a14_blob. split.
  - apply bind_ro; [apply uint16_ro|]. intros [size r] _.
    destruct (R.read r size) as [blob r1]. apply bind_ro.
    + destruct (_ && _); [|ro]. destruct (_next_feature_map self); [|ro].
      apply bind_ro; [apply uint8_ro|]. (intros [k bd] _; ro).
    + intros [self1 bdata] _.
      destruct (_ && _); [apply bind_ro; [apply uint32_ro|(intros [v bd] _; ro)]|].
      destruct (_ && _); [apply bind_ro; [apply uint32_ro|(intros [v bd] _; ro)]|].
      ro.
  - intros self' reader' H. apply res_bind_ok in H as ([size r] & H1 & H).
    apply uint16_advances in H1. pose proof (read_advances r size) as Hr.
    destruct (R.read r size) as [blob r1]. cbn [snd] in Hr.
    apply res_bind_ok in H as ([self1 bdata] & _ & H).
    assert (reader' = r1) as ->; [|by eapply advances_trans].
    destruct (_ && _); [by apply res_bind_ok in H as ([v bd] & _ & [= _ <-])|].
    destruct (_ && _); [by apply res_bind_ok in H as ([v bd] & _ & [= _ <-])|].
    by injection H as _ <-.
Qed.

Lemma a14_text_total self reader subpath :
  raises_only parse_exn (a14_text self reader subpath)
  ∧ ∀ self' reader', a14_text self reader subpath = Ok (self', reader') →
      advances reader reader'.
Proof.
  unfold a14_text. split.
  - apply bind_ro; [apply uint8_ro|]. intros [lang r] _.
    apply bind_ro; [apply str_ro|]. intros [sdata r1] _.
    cbv zeta. apply bind_ro; [|ro].
    repeat (match goal with
            | |- raises_only _ (if ?c then _ else _) => destruct c; [apply strings_add_text_ro|]
            end).
    ro.
  - intros self' reader' H. apply res_bind_ok in H as ([lang r] & H1 & H).
    apply uint8_advances in H1. apply res_bind_ok in H as ([sdata r1] & H2 & H).
    apply str_advances in H2. apply res_bind_ok in H as (s & _ & [= _ <-]).
    by eapply advances_trans.
Qed.

Lemma read_a14_total fuel self reader path :
  (length (R.file reader) < fuel)%nat →
  raises_only parse_exn (read_a14 fuel self reader path)
  ∧ ∀ ok self' reader', read_a14 fuel self reader path = Ok (ok, self', reader') →
      (length (R.file reader') ≤ length (R.file reader))%nat.
Proof.
  revert self reader path. induction fuel as [|fuel IH]; intros self reader path Hf; [lia|].
  cbn [read_a14]. split.
  - apply bind_ro; [apply uint8_ro|]. intros [type_id r] H1.
    apply uint8_shorter in H1. destruct (type_id =? 0); [ro|].
    pose proof (read_advances r 4) as Hr. destruct (R.read r 4) as [segment r1].
    apply advances_length in Hr. cbn [snd] in Hr.
    destruct (type_id =? ord "C").
    { destruct (IH self r1 (path ++ segment) ltac:(lia)) as [Hn Hl].
      apply bind_ro; [ro|]. intros [[ok1 self1] r2] H2. apply Hl in H2.
      destruct (negb ok1); [ro|]. apply IH. lia. }
    destruct (type_id =? ord "B").
    { destruct (a14_blob_total self r1 (path ++ segment)) as [Hn Ha].
      apply bind_ro; [ro|]. intros [self1 r2] H2.
      apply Ha, advances_length in H2. apply IH. lia. }
    destruct (type_id =? ord "T"); [|ro].
    destruct (a14_text_total self r1 (path ++ segment)) as [Hn Ha].
    apply bind_ro; [ro|]. intros [self1 r2] H2.
    apply Ha, advances_length in H2. apply IH. lia.
  - intros ok self' reader' H. apply res_bind_ok in H as ([type_id r] & H1 & H).
    apply uint8_shorter in H1. destruct (type_id =? 0); [injection H as _ _ <-; lia|].
    pose proof (read_advances r 4) as Hr. destruct (R.read r 4) as [segment r1].
    apply advances_length in Hr. cbn [snd] in Hr.
    destruct (type_id =? ord "C").
    { apply res_bind_ok in H as ([[ok1 self1] r2] & H2 & H).
      apply (IH self r1 (path ++ segment) ltac:(lia)) in H2.
      destruct (negb ok1); [injection H as _ _ <-; lia|].
      apply (IH self1 r2 path ltac:(lia)) in H. lia. }
    destruct (type_id =? ord "B").
    { apply res_bind_ok in H as ([self1 r2] & H2 & H).
      apply a14_blob_total, advances_length in H2.
      apply (IH self1 r2 path ltac:(lia)) in H. lia. }
    destruct (type_id =? ord "T"); [|injection H as _ _ <-; lia].
    apply res_bind_ok in H as ([self1 r2] & H2 & H).
    apply a14_text_total, advances_length in H2.
    apply (IH self1 r2 path ltac:(lia)) in H. lia.
Qed.

Lemma read_pseudo_ro self idx pseudo state :
  raises_only parse_exn (read_pseudo self idx pseudo state).
Proof.
  unfold read_pseudo. apply bind_ro; [apply uint8_ro|]. intros [action r] _.
  destruct (action =? 0x00); [apply bind_ro; [apply action_00_ro|ro]|].
  destruct (action =? 0x01); [apply bind_ro; [apply action_01_ro|ro]|].
  destruct (action =? 0x04); [apply bind_ro; [apply action_04_ro|ro]|].
  destruct (action =? 0x05); [apply bind_ro; [apply action_05_ro|ro]|].
  destruct (action =? 0x06); [ro|].
  destruct (bool_decide (action ∈ [0x07; 0x09])); [ro|].
  destruct (action =? 0x08); [apply bind_ro; [apply action_08_ro|ro]|].
  destruct (action =? 0x0A); [apply bind_ro; [apply action_0A_ro|ro]|].
  destruct (action =? 0x0B);
    [apply bind_ro; [apply action_0B_ro|(intros [s st] _; ro)]|].
  destruct (action =? 0x11);
    [apply bind_ro; [apply uint16_ro|(intros [s st] _; ro)]|].
  destruct (action =? 0x12); [apply bind_ro; [apply action_12_ro|ro]|].
  destruct (action =? 0x14); [|ro].
  apply bind_ro; [|(intros [[ok s] r1] _; ro)].
  apply read_a14_total. lia.
Qed.

Lemma sprite_walk_ro fuel reader size :
  (length (R.file reader) < fuel)%nat → raises_only parse_exn (sprite_walk fuel reader size).
Proof.
  revert reader size. induction fuel as [|fuel IH]; intros reader size Hf; [lia|].
  cbn [sprite_walk]. destruct (0 <? size); [|ro].
  apply bind_ro; [apply uint8_ro|]. intros [i r] H1. apply uint8_shorter in H1.
  destruct (size <? chunk_len i); [ro|]. apply IH.
  destruct (i <? 0x80).
  - pose proof (advances_length _ _ (skip_advances r (chunk_len i))). lia.
  - pose proof (advances_length _ _ (skip_advances r 1)). lia.
Qed.

Lemma record_body_total ls :
  raises_only parse_exn (record_body ls)
  ∧ ∀ ls', record_body ls = Ok ls' →
      (length (R.file (ls_reader ls')) < length (R.file (ls_reader ls)))%nat.
Proof.
  split.
  - destruct ls as [self state reader size skip idx]. unfold record_body.
    apply bind_ro; [apply uint8_ro|]. intros [info r] _.
    apply bind_ro.
    + destruct (info =? 0xFF).
      * destruct (0 <? skip); [ro|]. destruct (R.read r size) as [pseudo rp].
        destruct (negb (idx =? 0)); [|ro].
        apply bind_ro; [apply read_pseudo_ro|]. (intros [[sk s] st] _; ro).
      * destruct (_ && _); [ro|]. destruct (_ && _); [|ro].
        destruct (negb _); [ro|].
        apply bind_ro; [|ro]. apply sprite_walk_ro. lia.
    + intros [[[self1 state1] r1] skip1] _.
      apply bind_ro; [|(intros [sz r2] _; ro)].
      unfold read_size. destruct (bool_decide _); [apply uint32_ro|apply uint16_ro].
  - intros ls' H. pose proof (record_body_inv _ _ H) as [Ha _].
    destruct ls as [self state reader size skip idx]. unfold record_body in H.
    apply res_bind_ok in H as ([info r] & Hi & H). apply uint8_shorter in Hi.
    apply res_bind_ok in H as ([[[self1 state1] r1] skip1] & Hb & H).
    apply res_bind_ok in H as ([size' r2] & Hs & [= <-]). cbn [ls_reader] in *.
    apply read_size_advances, advances_length in Hs.
    assert (length (R.file r1) ≤ length (R.file r))%nat; [|lia].
    destruct (info =? 0xFF).
    + destruct (0 <? skip).
      * injection Hb as _ _ <- _. apply advances_length, skip_advances.
      * pose proof (read_advances r size) as Hr. destruct (R.read r size) as [pseudo rp].
        apply advances_length in Hr. cbn [snd] in Hr. destruct (negb (idx =? 0)).
        -- by apply res_bind_ok in Hb as ([[sk s] st] & _ & [= _ _ <- _]).
        -- by injection Hb as _ _ <- _.
    + destruct (_ && _).
      { injection Hb as _ _ <- _. apply advances_length, skip_advances. }
      destruct (_ && _); [|ro].
      pose proof (advances_length _ _ (skip_advances r 7)) as H7.
      destruct (negb _).
      * injection Hb as _ _ <- _.
        pose proof (advances_length _ _ (skip_advances (R.skip r 7) (size - 8))). lia.
      * apply res_bind_ok in Hb as (rw & Hw & [= _ _ <- _]).
        apply sprite_walk_advances, advances_length in Hw. lia.
Qed.

Lemma record_loop_ro fuel ls :
  (length (R.file (ls_reader ls)) < fuel)%nat → raises_only parse_exn (record_loop fuel ls).
Proof.
  revert ls. induction fuel as [|fuel IH]; intros ls Hf; [lia|]. cbn [record_loop].
  destruct (negb (ls_size ls =? 0)); [|ro].
  destruct (record_body_total ls) as [Hn Hl].
  apply bind_ro; [ro|]. intros ls' H. apply Hl in H. apply IH. lia.
Qed.

Lemma v2_trailer_ro fuel reader id :
  (length (R.file reader) < fuel)%nat → raises_only parse_exn (v2_trailer fuel reader id).
Proof.
  revert reader id. induction fuel as [|fuel IH]; intros reader id Hf; [lia|].
  cbn [v2_trailer]. destruct (negb (id =? 0)); [|ro].
  apply bind_ro; [apply uint32_ro|]. intros [size r] H1.
  pose proof (uint32_spec false reader) as Hs. rewrite H1 in Hs. apply fixed_read_length in Hs.
  pose proof (advances_length _ _ (skip_advances r size)).
  apply bind_ro; [apply uint32_ro|]. intros [id' r2] H2.
  apply uint32_advances, advances_length in H2. apply IH. lia.
Qed.

Lemma read_header_ro self reader : raises_only parse_exn (read_header self reader).
Proof.
  unfold read_header. apply bind_ro; [apply uint16_ro|]. intros [size r] _.
  destruct (size =? 0); [|ro]. destruct (R.read r 8) as [magic r1].
  destruct (bytes_eq magic GRF_MAGIC); [|ro].
  apply bind_ro; [apply uint32_ro|]. intros [x r2] _.
  apply bind_ro; [apply uint8_ro|]. intros [c r3] _.
  destruct (negb _); [ro|].
  apply bind_ro; [apply uint32_ro|]. (intros [sz r4] _; ro).
Qed.

Lemma read_trailer_ro self reader : raises_only parse_exn (read_trailer self reader).
Proof.
  unfold read_trailer. apply bind_ro.
  - destruct (bool_decide _); [|ro].
    apply bind_ro; [apply uint16_ro|]. intros [x r] _.
    destruct (R.read r 2); ro.
  - intros r1 _. apply bind_ro.
    + destruct (bool_decide _); [|ro].
      apply bind_ro; [apply uint32_ro|]. intros [id r2] _.
      apply v2_trailer_ro. lia.
    + intros r2 _. pose proof (uint8_spec r2) as Hs.
      destruct (R.uint8 r2) as [[? ?]|e|]; [ro| |ro].
      cbn in Hs. subst e. ro.
Qed.

Lemma read_ro self fp : raises_only parse_exn (read self fp).
Proof.
  unfold read. apply bind_ro; [apply read_header_ro|]. intros [[self1 size] reader1] _.
  apply bind_ro; [apply record_loop_ro; cbn [ls_reader]; lia|]. intros ls _.
  apply read_trailer_ro.
Qed.

(** X1.  On every input [read] terminates: it returns the metadata, or it
    raises a [RuntimeError] or a [UnicodeDecodeError]; no other exception
    escapes, and no loop of the parser (records, sprite runs, Action 14
    nodes, name lists, zero-terminated strings, trailer blocks) goes on
    without consuming input. *)
Theorem read_terminates (self : t) (fp : bytes) :
  (∃ g, read self fp = Ok g)
  ∨ (∃ msg, read self fp = Raise (RuntimeError msg))
  ∨ read self fp = Raise UnicodeDecodeError.
Proof.
  pose proof (read_ro self fp) as H. destruct (read self fp) as [g|e|]; [by left; eexists| |done].
  right. destruct H as [[msg ->]| ->]; [left; by eexists|by right].
Qed.

(** ** More on the byte cursor *)

Lemma str_loop_nul s : ∀ rest h result fuel,
  x00 ∉ s → (length s < fuel)%nat →
  R.str_loop fuel (R.mk (s ++ x00 :: rest) h) result
  = Ok (result ++ s, R.mk rest (md5_update (s ++ [x00]) <$> h)).
Proof.
  induction s as [|c s IH]; intros rest h result fuel Hs Hf.
  - destruct fuel as [|fuel]; [simpl in Hf; lia|]. cbn [R.str_loop app].
    unfold R.read, R.file_read. cbn [R.file R.hash]. change (1 <? 0) with false. cbv iota.
    change (Z.to_nat 1) with 1%nat. cbn [take drop]. rewrite take_0, drop_0.
    rewrite decide_True by (by left). by rewrite app_nil_r.
  - destruct fuel as [|fuel]; [simpl in Hf; lia|]. cbn [R.str_loop app].
    unfold R.read, R.file_read. cbn [R.file R.hash]. change (1 <? 0) with false. cbv iota.
    change (Z.to_nat 1) with 1%nat. cbn [take drop]. rewrite take_0, drop_0.
    apply not_elem_of_cons in Hs as [Hc Hs].
    rewrite decide_False by (intros [[= ?]|[=]]; congruence).
    fold (R.file_read). rewrite (IH rest _ (result ++ [c]) fuel Hs ltac:(simpl in Hf; lia)).
    rewrite <- app_assoc. cbn [app]. f_equal. f_equal. f_equal.
    destruct h; cbn; [|done]. unfold md5_update. by rewrite <- app_assoc.
Qed.

Lemma str_loop_end s : ∀ h result fuel,
  x00 ∉ s → (length s < fuel)%nat →
  R.str_loop fuel (R.mk s h) result = Ok (result ++ s, R.mk [] (md5_update s <$> h)).
Proof.
  induction s as [|c s IH]; intros h result fuel Hs Hf.
  - destruct fuel as [|fuel]; [simpl in Hf; lia|]. cbn [R.str_loop].
    unfold R.read, R.file_read. cbn [R.file R.hash]. change (1 <? 0) with false. cbv iota.
    change (Z.to_nat 1) with 1%nat. cbn [take drop].
    rewrite decide_True by (by right). by rewrite app_nil_r.
  - destruct fuel as [|fuel]; [simpl in Hf; lia|]. cbn [R.str_loop].
    unfold R.read, R.file_read. cbn [R.file R.hash]. change (1 <? 0) with false. cbv iota.
    change (Z.to_nat 1) with 1%nat. cbn [take drop]. rewrite take_0, drop_0.
    apply not_elem_of_cons in Hs as [Hc Hs].
    rewrite decide_False by (intros [[= ?]|[=]]; congruence).
    rewrite (IH _ (result ++ [c]) fuel Hs ltac:(simpl in Hf; lia)).
    rewrite <- app_assoc. cbn [app]. f_equal. f_equal. f_equal.
    destruct h; cbn; [|done]. unfold md5_update. by rewrite <- app_assoc.
Qed.

(** X2.  [str] returns the bytes in front of the first NUL byte and leaves
    the cursor behind that NUL; when there is no NUL it returns all that is
    left, without an error.  The attached hash is fed every byte consumed,
    the NUL included. *)
Theorem str_reads_to_nul (s rest : bytes) (h : option md5_obj) :
  x00 ∉ s →
  R.str (R.mk (s ++ x00 :: rest) h) = Ok (s, R.mk rest (md5_update (s ++ [x00]) <$> h))
  ∧ R.str (R.mk s h) = Ok (s, R.mk [] (md5_update s <$> h)).
Proof.
  intros Hs. unfold R.str. cbn [R.file]. split.
  - rewrite str_loop_nul; [done|done|]. rewrite length_app. simpl. lia.
  - rewrite str_loop_end; [done|done|lia].
Qed.

Lemma str_reads_to_nul_witness :
  R.str (R.mk (lit "Train" ++ x00 :: lit "Zug") (Some md5_new))
  = Ok (lit "Train", R.mk (lit "Zug") (md5_update (lit "Train" ++ [x00]) <$> Some md5_new))
  ∧ R.str (R.mk (lit "Train") (Some md5_new))
    = Ok (lit "Train", R.mk [] (md5_update (lit "Train") <$> Some md5_new)).
Proof.
  apply (str_reads_to_nul (lit "Train") (lit "Zug") (Some md5_new)).
  apply (bool_decide_unpack _). vm_compute. exact I.
Defined.

Lemma read_take_drop r n :
  0 ≤ n →
  R.read r n = (take (Z.to_nat n) (R.file r),
                R.mk (drop (Z.to_nat n) (R.file r))
                  (md5_update (take (Z.to_nat n) (R.file r)) <$> R.hash r)).
Proof. intros Hn. unfold R.read, R.file_read. by destruct (Z.ltb_spec n 0); [lia|]. Qed.




(** X4.  The extended byte: a first byte other than 0xFF is the value, in
    one byte; 0xFF announces a little-endian 16-bit value, in three bytes.
    The value read is below 65536, and every value below 65536 is read back
    from its encoding (one byte up to 254, three bytes from 255 on). *)
Theorem uint_ext_forms :
  (∀ b rest h, b ≠ xff →
     R.uint_ext (R.mk (b :: rest) h) = Ok (b2z b, R.mk rest (md5_update [b] <$> h)))
  ∧ (∀ lo hi rest h,
       R.uint_ext (R.mk (xff :: lo :: hi :: rest) h)
       = Ok (b2z lo + 256 * b2z hi, R.mk rest (md5_update [xff; lo; hi] <$> h)))
  ∧ (∀ r v r', R.uint_ext r = Ok (v, r') → 0 ≤ v < 65536)
  ∧ (∀ v rest h, 0 ≤ v < 65536 →
       R.uint_ext (R.mk (ext_encode v ++ rest) h)
       = Ok (v, R.mk rest (md5_update (ext_encode v) <$> h))).
Proof.
  split; [|split; [|split]].
  - intros b rest h Hb. unfold R.uint_ext. rewrite uint8_cons. cbn [mbind res_bind].
    destruct (Z.eqb_spec (b2z b) 0xFF) as [E|E]; [|done].
    exfalso. apply Hb. rewrite <- (z2b_b2z b), E. reflexivity.
  - intros lo hi rest h. unfold R.uint_ext. rewrite uint8_cons. cbn [mbind res_bind].
    change (b2z xff =? 255) with true. cbv iota. by rewrite uint16_cons, hash_update2.
  - intros r v r' H. unfold R.uint_ext in H. apply res_bind_ok in H as ([b r1] & H1 & H).
    pose proof (uint8_spec r) as Hs. rewrite H1 in Hs. destruct Hs as (c & _ & _ & _ & Hb).
    destruct (b =? 0xFF).
    + pose proof (uint16_spec false r1) as Hs. rewrite H in Hs.
      destruct Hs as (c' & _ & _ & _ & Hv). change (256 ^ Z.of_nat 2) with 65536 in Hv. done.
    + injection H as <- _. change (256 ^ Z.of_nat 1) with 256 in Hb. lia.
  - intros v rest h Hv. by apply uint_ext_encode.
Qed.

Lemma uint_ext_forms_witness :
  R.uint_ext (R.mk (ext_encode 300 ++ [x07]) None)
  = Ok (300, R.mk [x07] (md5_update (ext_encode 300) <$> None)).
Proof. apply (proj2 (proj2 (proj2 uint_ext_forms)) 300 [x07] None). lia. Defined.

Lemma gamma_encode_decode v rest h :
  0 ≤ v < 2 ^ 35 →
  R.gamma (R.mk (gamma_encode v ++ rest) h)
  = Ok ((v, len (gamma_encode v)), R.mk rest (md5_update (gamma_encode v) <$> h)).
Proof.
  intros Hv. destruct (gamma_length_range v Hv) as [Hn Hr].
  unfold len. rewrite gamma_encode_length. by apply gamma_encode_as_decode.
Qed.

(** X5.  [gamma_str] reads a string prefixed by its gamma-encoded length:
    it returns exactly the bytes of the string and leaves the cursor behind
    them. *)
Theorem gamma_str_roundtrip (s rest : bytes) (h : option md5_obj) :
  len s < 2 ^ 35 →
  R.gamma_str (R.mk (gamma_encode (len s) ++ s ++ rest) h)
  = Ok (s, R.mk rest (md5_update (gamma_encode (len s) ++ s) <$> h)).
Proof.
  intros Hs. unfold R.gamma_str.
  rewrite gamma_encode_decode by (unfold len in *; lia). cbn [mbind res_bind fst].
  rewrite read_take_drop by (unfold len; lia). cbn [R.file R.hash].
  unfold len. rewrite Nat2Z.id, take_app_length, drop_app_length.
  by rewrite hash_update2.
Qed.

Lemma gamma_str_roundtrip_witness :
  R.gamma_str (R.mk (gamma_encode (len (lit "Zug")) ++ lit "Zug" ++ [x2a]) None)
  = Ok (lit "Zug", R.mk [x2a] (md5_update (gamma_encode (len (lit "Zug")) ++ lit "Zug") <$> None)).
Proof. apply (gamma_str_roundtrip (lit "Zug") [x2a] None). vm_compute. reflexivity. Defined.

Lemma signed_spec (b : bytes) (u : Z) :
  (0 < length b)%nat → 0 ≤ u < 256 ^ Z.of_nat (length b) →
  let w := 2 ^ (8 * Z.of_nat (length b)) in
  - (w `div` 2) ≤ R.signed b u < w `div` 2
  ∧ R.signed b u `mod` w = u
  ∧ (R.signed b u < 0 ↔ w `div` 2 ≤ u).
Proof.
  intros Hl Hu w. unfold R.signed. cbv zeta.
  assert (Hw : w = 2 * 2 ^ (8 * Z.of_nat (length b) - 1)).
  { unfold w. rewrite <- Z.pow_succ_r by lia. f_equal. lia. }
  assert (Hw' : 256 ^ Z.of_nat (length b) = w).
  { unfold w. by rewrite Z.pow_mul_r by lia. }
  fold w. rewrite Hw' in Hu.
  assert (0 < 2 ^ (8 * Z.of_nat (length b) - 1)) by (apply Z.pow_pos_nonneg; lia).
  assert (Hh : w `div` 2 = 2 ^ (8 * Z.of_nat (length b) - 1))
    by (rewrite Hw, Z.mul_comm, Z.div_mul by lia; done).
  rewrite Hh. destruct (Z.ltb_spec u (2 ^ (8 * Z.of_nat (length b) - 1))).
  - split; [lia|]. split; [apply Z.mod_small; lia|lia].
  - split; [lia|]. split; [|lia].
    rewrite <- (Z.mod_add _ 1 w) by lia. replace (u - w + 1 * w) with u by lia.
    apply Z.mod_small. lia.
Qed.

(** X6.  The signed reads return the two's complement reading of what the
    unsigned read of the same width returns: they fail when it fails, leave
    the cursor where it leaves it, and their value lies in the signed range,
    is congruent to the unsigned value modulo [2^width] and is negative
    exactly when the top bit of the field is set. *)
Theorem signed_reads (r : R.t) (be : bool) :
  let rel (bits : Z) (s u : res (Z * R.t)) :=
    match u with
    | Ok (uv, r') =>
      ∃ sv, s = Ok (sv, r') ∧ - 2 ^ (bits - 1) ≤ sv < 2 ^ (bits - 1)
            ∧ sv `mod` 2 ^ bits = uv ∧ (sv < 0 ↔ 2 ^ (bits - 1) ≤ uv)
    | Raise e => s = Raise e
    | OutOfFuel => s = OutOfFuel
    end in
  rel 8 (R.int8 r) (R.uint8 r)
  ∧ rel 16 (R.int16 be r) (R.uint16 be r)
  ∧ rel 32 (R.int32 be r) (R.uint32 be r)
  ∧ rel 64 (R.int64 be r) (R.uint64 be r).
Proof.
  intros rel.
  assert (Hgen : ∀ (n : nat) (b : bytes) (u : Z) r',
    (0 < n)%nat → length b = n → 0 ≤ u < 256 ^ Z.of_nat n →
    rel (8 * Z.of_nat n) (Ok (R.signed b u, r')) (Ok (u, r'))).
  { intros n b u r' Hn Hb Hu. cbn. exists (R.signed b u). split; [done|].
    rewrite <- Hb in Hu. destruct (signed_spec b u ltac:(lia) Hu) as (H1 & H2 & H3).
    rewrite Hb in H1, H2, H3.
    assert (2 ^ (8 * Z.of_nat n) `div` 2 = 2 ^ (8 * Z.of_nat n - 1)) as Hh.
    { replace (8 * Z.of_nat n) with (Z.succ (8 * Z.of_nat n - 1)) at 1 by lia.
      rewrite Z.pow_succ_r by lia. rewrite Z.mul_comm, Z.div_mul by lia. done. }
    rewrite Hh in H1, H3. done. }
  assert (Hbe : ∀ b : bytes, 0 ≤ (if be then R.unpack_be b else R.unpack_le b)
                             < 256 ^ Z.of_nat (length b)).
  { intros b. destruct be; [apply unpack_be_range|apply unpack_le_range]. }
  split; [|split; [|split]].
  - unfold R.int8, R.uint8. destruct (R.read r 1) as [b r'].
    case_decide as Hl; [done|]. apply (Hgen 1%nat); [lia|done|].
    rewrite <- Hl. apply unpack_le_range.
  - unfold R.int16, R.uint16. destruct (R.read r 2) as [b r'].
    case_decide as Hl; [done|]. apply (Hgen 2%nat); [lia|done|]. rewrite <- Hl. apply Hbe.
  - unfold R.int32, R.uint32. destruct (R.read r 4) as [b r'].
    case_decide as Hl; [done|]. apply (Hgen 4%nat); [lia|done|]. rewrite <- Hl. apply Hbe.
  - unfold R.int64, R.uint64. destruct (R.read r 8) as [b r'].
    case_decide as Hl; [done|]. apply (Hgen 8%nat); [lia|done|]. rewrite <- Hl. apply Hbe.
Qed.

Example int16_minus_two :
  R.int16 false (R.of_bytes [xfe; xff]) = Ok (-2, R.of_bytes [])
  ∧ R.int16 true (R.of_bytes [xfe; xff]) = Ok (-257, R.of_bytes [])
  ∧ R.int8 (R.of_bytes [x80]) = Ok (-128, R.of_bytes []).
Proof. repeat split; vm_compute; reflexivity. Qed.

(** ** More on the string decoder *)

Lemma land_mask_range (x k : Z) : 0 ≤ k → 0 ≤ Z.land x (Z.ones k) < 2 ^ k.
Proof. intros Hk. rewrite Z.land_ones by done. apply Z.mod_pos_bound. lia. Qed.

Lemma lor_pieces (a b k j : Z) :
  0 ≤ k → 0 ≤ j → 0 ≤ a < 2 ^ j → 0 ≤ b < 2 ^ k →
  0 ≤ Z.lor (a ≪ k) b < 2 ^ (j + k).
Proof.
  intros Hk Hj Ha Hb. rewrite lor_shiftl_add by done. rewrite Z.pow_add_r by done. nia.
Qed.

Lemma lor3_pieces (a b c : Z) :
  0 ≤ b < 64 → 0 ≤ c < 64 →
  Z.lor (Z.lor (a ≪ 12) (b ≪ 6)) c = a * 4096 + b * 64 + c.
Proof.
  intros Hb Hc. replace (a ≪ 12) with ((a ≪ 6) ≪ 6) by (rewrite Z.shiftl_shiftl by lia; done).
  rewrite <- Z.shiftl_lor. rewrite (lor_shiftl_add a b 6) by (change (2 ^ 6) with 64; lia).
  rewrite lor_shiftl_add by (change (2 ^ 6) with 64; lia). change (2 ^ 6) with 64. lia.
Qed.

Lemma lor4_pieces (a b c d : Z) :
  0 ≤ b < 64 → 0 ≤ c < 64 → 0 ≤ d < 64 →
  Z.lor (Z.lor (Z.lor (a ≪ 18) (b ≪ 12)) (c ≪ 6)) d
  = a * 262144 + b * 4096 + c * 64 + d.
Proof.
  intros Hb Hc Hd.
  replace (a ≪ 18) with ((a ≪ 6) ≪ 12) by (rewrite Z.shiftl_shiftl by lia; done).
  replace (b ≪ 12) with ((b ≪ 6) ≪ 6) by (rewrite Z.shiftl_shiftl by lia; done).
  replace ((a ≪ 6) ≪ 12) with (((a ≪ 6) ≪ 6) ≪ 6) by (rewrite Z.shiftl_shiftl by lia; done).
  rewrite <- !Z.shiftl_lor. rewrite (lor_shiftl_add a b 6) by (change (2 ^ 6) with 64; lia).
  rewrite (lor_shiftl_add _ c 6) by (change (2 ^ 6) with 64; lia).
  rewrite lor_shiftl_add by (change (2 ^ 6) with 64; lia). change (2 ^ 6) with 64. lia.
Qed.

(** X7.  At a position that is not negative, [getutf8] returns size 0 with
    no code point, or a size from 1 to 4 with a code point: then the sequence
    lies inside the input, and the code point is below 2^7, 2^11, 2^16 or
    2^21 for sizes 1 to 4. *)
Theorem getutf8_sound (b : bytes) (p sz : Z) (c : option Z) :
  0 ≤ p → getutf8 b p = (sz, c) →
  (sz = 0 ∧ c = None)
  ∨ (∃ cp, c = Some cp ∧ 1 ≤ sz ≤ 4 ∧ p + sz ≤ len b
           ∧ 0 ≤ cp < 2 ^ (if sz =? 1 then 7 else 5 * sz + 1)).
Proof.
  intros _. unfold getutf8.
  pose proof (land_mask_range (at_ b p) 5 ltac:(lia)) as M5.
  pose proof (land_mask_range (at_ b p) 4 ltac:(lia)) as M4.
  pose proof (land_mask_range (at_ b p) 3 ltac:(lia)) as M3.
  pose proof (land_mask_range (at_ b (p + 1)) 6 ltac:(lia)) as N1.
  pose proof (land_mask_range (at_ b (p + 2)) 6 ltac:(lia)) as N2.
  pose proof (land_mask_range (at_ b (p + 3)) 6 ltac:(lia)) as N3.
  change (Z.ones 5) with 0x1F in M5. change (Z.ones 4) with 0x0F in M4.
  change (Z.ones 3) with 0x07 in M3. change (Z.ones 6) with 0x3F in N1, N2, N3.
  destruct (_ && _) eqn:E1.
  { intros [= <- <-]. right. apply andb_true_iff in E1 as [Hl Hb].
    apply Z.leb_le in Hl. apply Z.eqb_eq in Hb. exists (at_ b p).
    split; [done|]. split; [lia|]. split; [done|]. cbn.
    assert (0 ≤ at_ b p < 256) as Hr.
    { unfold at_. destruct (b !! Z.to_nat p) as [x|]; cbn; [apply b2z_range|lia]. }
    change 128 with (2 ^ 7) in Hb. rewrite Z.land_comm in Hb.
    destruct (Z.lt_ge_cases (at_ b p) 128) as [?|Hge]; [lia|]. exfalso.
    assert (Z.testbit (Z.land (2 ^ 7) (at_ b p)) 7 = true) as Ht.
    { rewrite Z.land_spec, Z.pow2_bits_true by lia. cbn [andb].
      rewrite Z.testbit_true by lia. change (2 ^ 7) with 128.
      assert (at_ b p `div` 128 = 1) as -> by (Z.div_mod_to_equations; lia). done. }
    rewrite Hb in Ht. done. }
  destruct (_ && _ && _) eqn:E2.
  { intros [= <- <-]. right. apply andb_true_iff in E2 as [E2 _].
    apply andb_true_iff in E2 as [Hl _]. apply Z.leb_le in Hl. eexists.
    split; [done|]. split; [lia|]. split; [done|].
    apply (lor_pieces _ _ 6 5); lia. }
  destruct (_ && _ && _ && _) eqn:E3.
  { intros [= <- <-]. right. apply andb_true_iff in E3 as [E3 _].
    apply andb_true_iff in E3 as [E3 _]. apply andb_true_iff in E3 as [Hl _].
    apply Z.leb_le in Hl. eexists. split; [done|]. split; [lia|]. split; [done|].
    rewrite lor3_pieces by lia. cbn. lia. }
  destruct (_ && _ && _ && _ && _) eqn:E4; [|intros [= <- <-]; by left].
  intros [= <- <-]. right. apply andb_true_iff in E4 as [E4 _].
  apply andb_true_iff in E4 as [E4 _]. apply andb_true_iff in E4 as [E4 _].
  apply andb_true_iff in E4 as [Hl _]. apply Z.leb_le in Hl.
  eexists. split; [done|]. split; [lia|]. split; [done|].
  rewrite lor4_pieces by lia. cbn. lia.
Qed.

Lemma getutf8_sound_witness :
  (2 = 0 ∧ Some 0 = None)
  ∨ (∃ cp, Some 0 = Some cp ∧ 1 ≤ 2 ≤ 4 ∧ 0 + 2 ≤ len [xc0; x80]
           ∧ 0 ≤ cp < 2 ^ (if 2 =? 1 then 7 else 5 * 2 + 1)).
Proof. apply (getutf8_sound [xc0; x80] 0 2 (Some 0)); [lia|]. vm_compute. reflexivity. Defined.

(** ** Plain text *)

Lemma plain_facts (x : byte) :
  plain x = true →
  32 ≤ b2z x ≤ 0x7A ∧ Z.land (b2z x) 0x80 = 0
  ∧ CTRL_CODES !! b2z x = None ∧ ALIASES !! [b2z x] = None.
Proof. destruct x; try discriminate; intros _; vm_compute; done. Qed.

Lemma at_lookup (b : bytes) (n : nat) (x : byte) :
  b !! n = Some x → at_ b (Z.of_nat n) = b2z x.
Proof. intros H. unfold at_. rewrite Nat2Z.id, H. done. Qed.

Lemma index_lookup {A} (l : list A) (n : nat) (x : A) :
  l !! n = Some x → index l (Z.of_nat n) = Ok x.
Proof.
  intros H. pose proof (lookup_lt_Some _ _ _ H) as Hlt. unfold index, len.
  destruct (Z.ltb_spec (Z.of_nat n) 0); [lia|].
  destruct (Z.ltb_spec (Z.of_nat n) 0); [lia|].
  destruct (Z.leb_spec (Z.of_nat (length l)) (Z.of_nat n)); [lia|].
  cbn [orb]. rewrite Nat2Z.id, H. done.
Qed.

Lemma decode_step_plain (b : bytes) (uni : bool) (n : nat) (x : byte) r s :
  b !! n = Some x → plain x = true →
  decode_step b uni (mkDstate (Z.of_nat n) r s)
  = Ok (mkDstate (Z.of_nat n + 1) (r ++ [b2z x]) s).
Proof.
  intros Hx Hp. apply plain_facts in Hp as (Hr & Hhi & Hcc & Hal).
  pose proof (lookup_lt_Some _ _ _ Hx) as Hlt.
  assert (next_code b uni (Z.of_nat n) = Ok (b2z x, Z.of_nat n + 1)) as Hn.
  { unfold next_code. destruct uni.
    - unfold getutf8. rewrite (at_lookup _ _ _ Hx), Hhi. unfold len.
      destruct (Z.leb_spec (Z.of_nat n + 1) (Z.of_nat (length b))); [|lia].
      cbn [andb]. change (0 =? 0) with true. cbv iota. change (1 =? 0) with false. done.
    - rewrite (index_lookup _ _ _ Hx). cbn [mbind res_bind].
      rewrite Hcc. rewrite bool_decide_eq_false_2 by (by intros [? ?]).
      destruct (Z.eqb_spec (b2z x) 0x9A); [lia|]. done. }
  unfold decode_step. cbn [pos result stack]. rewrite Hn. cbn [mbind res_bind].
  unfold dispatch. cbn [pos result stack].
  destruct (Z.eqb_spec (b2z x) 0xE09A); [lia|].
  destruct (Z.leb_spec 0xE000 (b2z x)); [lia|]. cbn [andb].
  destruct (Z.leb_spec 32 (b2z x)); [|lia]. cbn [orb].
  unfold chr. destruct (Z.ltb_spec (b2z x) 0); [lia|].
  destruct (Z.ltb_spec 0x10FFFF (b2z x)); [lia|]. cbn [orb mbind res_bind].
  do 2 f_equal. exact (f_equal (λ o, r ++ default [b2z x] o) Hal).
Qed.

Lemma decode_loop_plain (uni : bool) (rest : bytes) :
  ∀ (fuel : nat) (pre : bytes) r s,
    Forall (λ x, plain x = true) rest → (length rest ≤ fuel)%nat →
    decode_loop fuel (pre ++ rest) uni (mkDstate (Z.of_nat (length pre)) r s)
    = Ok (mkDstate (Z.of_nat (length (pre ++ rest))) (r ++ (b2z <$> rest)) s).
Proof.
  induction rest as [|x rest IH]; intros fuel pre r s Hall Hf.
  - rewrite !app_nil_r. destruct fuel; cbn [decode_loop pos]; unfold len;
      rewrite Z.ltb_irrefl; done.
  - apply Forall_cons in Hall as [Hx Hall]. cbn [length] in Hf.
    destruct fuel as [|fuel]; [lia|]. cbn [decode_loop pos].
    unfold len. rewrite length_app. cbn [length].
    destruct (Z.ltb_spec (Z.of_nat (length pre)) (Z.of_nat (length pre + S (length rest))));
      [|lia].
    assert ((pre ++ x :: rest) !! length pre = Some x) as Hlk
      by (rewrite lookup_app_r by lia; rewrite Nat.sub_diag; done).
    rewrite (decode_step_plain _ _ _ x _ _ Hlk Hx).
    cbn [mbind res_bind].
    replace (pre ++ x :: rest) with ((pre ++ [x]) ++ rest) by (by rewrite <- app_assoc).
    replace (Z.of_nat (length pre) + 1) with (Z.of_nat (length (pre ++ [x])))
      by (rewrite length_app; cbn [length]; lia).
    rewrite IH by (done || lia). rewrite length_app, fmap_cons, <- app_assoc.
    rewrite !length_app. cbn [length app].
    replace (length pre + 1 + length rest)%nat with (length pre + S (length rest))%nat by lia.
    done.
Qed.

Lemma get_stack_types_new : get_stack_types new_TextRefStack = ∅.
Proof. reflexivity. Qed.

(** X8.  Text made of bytes from 0x20 to 0x7A only decodes to itself, one
    character per byte, with no parameters; and so does the same text after
    the Unicode marker (U+00DE in UTF-8). *)
Theorem decodestr_plain_text (b : bytes) :
  Forall (λ x, plain x = true) b →
  decodestr b = Ok (b2z <$> b, ∅)
  ∧ decodestr (unicode_marker ++ b) = Ok (b2z <$> b, ∅).
Proof.
  intros Hall. split.
  - unfold decodestr.
    assert (is_unicode_marker b = false) as ->.
    { unfold is_unicode_marker. apply bool_decide_eq_false_2.
      destruct Hall as [|x b Hx _]; [by vm_compute|].
      apply plain_facts in Hx as (_ & Hhi & _). unfold getutf8.
      change (at_ (x :: b) 0) with (b2z x). rewrite Hhi. unfold len. cbn [length].
      destruct (Z.leb_spec (0 + 1) (Z.of_nat (S (length b)))); [|lia]. done. }
    pose proof (decode_loop_plain false b (length b) [] [] new_TextRefStack Hall (le_n _))
      as Hl.
    cbn [app length] in Hl. change (Z.of_nat 0) with 0 in Hl. rewrite Hl. done.
  - unfold decodestr.
    assert (is_unicode_marker (unicode_marker ++ b) = true) as ->.
    { unfold is_unicode_marker. apply bool_decide_eq_true_2. unfold getutf8, len.
      cbn [length app unicode_marker].
      destruct (Z.leb_spec (0 + 1) (Z.of_nat (S (S (length b))))); [|lia].
      destruct (Z.leb_spec (0 + 2) (Z.of_nat (S (S (length b))))); [|lia].
      done. }
    pose proof (decode_loop_plain true b (length (unicode_marker ++ b)) unicode_marker []
      new_TextRefStack Hall ltac:(rewrite length_app; lia)) as Hl.
    change (Z.of_nat (length unicode_marker)) with (0 + 2) in Hl. rewrite Hl. done.
Qed.

Lemma decodestr_plain_text_witness :
  decodestr (lit "Stop 1") = Ok (b2z <$> lit "Stop 1", ∅)
  ∧ decodestr (unicode_marker ++ lit "Stop 1") = Ok (b2z <$> lit "Stop 1", ∅).
Proof.
  apply (decodestr_plain_text (lit "Stop 1")).
  repeat (apply Forall_cons; split; [reflexivity|]). apply Forall_nil. done.
Defined.

(** X9.  [decodestr] always ends, and it ends with a result or with one of
    three exceptions: [AssertionError] (the parameter stack is too short for
    a code), [IndexError] (the input ends inside a code) or [ValueError] (a
    code point above U+10FFFF).  Each of the three does occur. *)
Theorem decodestr_outcomes :
  (∀ b, (∃ text params, decodestr b = Ok (text, params))
        ∨ decodestr b = Raise AssertionError
        ∨ decodestr b = Raise IndexError
        ∨ decodestr b = Raise ValueError)
  ∧ decodestr (replicate 17 x7b) = Raise AssertionError
  ∧ decodestr [x9a] = Raise IndexError
  ∧ decodestr (unicode_marker ++ [xf7; xbf; xbf; xbf]) = Raise ValueError.
Proof.
  split; [|by vm_compute].
  intros b. pose proof (decodestr_not_fuel b) as Hf.
  destruct (decodestr b) as [[text params]|e|] eqn:E; [left; eauto| |done].
  right. apply decodestr_exn in E as [->|[->| ->]]; auto.
Qed.

(** ** What the actions record *)

Lemma str_nul (s rest : bytes) (h : option md5_obj) :
  x00 ∉ s →
  R.str (R.mk (s ++ x00 :: rest) h) = Ok (s, R.mk rest (md5_update (s ++ [x00]) <$> h)).
Proof.
  intros Hs. unfold R.str. cbn [R.file].
  rewrite str_loop_nul; [done|done|]. rewrite length_app. simpl. lia.
Qed.

Lemma str_feature_inj (feat : Z) : Inj (=) (=) (str_feature feat).
Proof.
  intros i j H. unfold str_feature in H.
  do 3 apply (inj (String.app _)) in H. by apply (inj pretty) in H.
Qed.

Lemma strings_add_text_translation key lang text self :
  lang ≠ 0x7E →
  strings_add_text key lang text self
  = Ok (set_strings
          (<[key := mkGRFString (str_name (default new_GRFString (strings self !! key)))
                     (dict_set lang text
                        (translations (default new_GRFString (strings self !! key))))]>
             (strings self)) self).
Proof.
  intros Hl. unfold strings_add_text, add_text.
  destruct (Z.eqb_spec lang 0x7E); [done|]. done.
Qed.

Lemma action_04_loop (key : Z → string) (lang first : Z) (texts : list bytes) :
  Inj (=) (=) key → lang ≠ 0x7E → Forall (λ t, x00 ∉ t) texts →
  ∀ k self rest h, ∃ m h',
    for_each (seqZ k (len texts))
      (λ i '(reader, self),
         '(text, reader) ← R.str reader;
         self ← strings_add_text (key (first + i)) lang text self;
         Ok (reader, self))
      (R.mk (nul_terminated texts ++ rest) h, self)
    = Ok (R.mk rest h', set_strings m self)
    ∧ (∀ (i : nat) t, texts !! i = Some t →
         ∃ s, m !! key (first + (k + Z.of_nat i)) = Some s
              ∧ dict_get lang (translations s) = Some t)
    ∧ (∀ name, (∀ i : nat, (i < length texts)%nat → name ≠ key (first + (k + Z.of_nat i))) →
         m !! name = strings self !! name).
Proof.
  intros Hinj Hl. induction texts as [|t ts IH]; intros Hall k self rest h.
  - exists (strings self), h. split; [by destruct self|]. split; [done|done].
  - apply Forall_cons in Hall as [Ht Hall].
    rewrite seqZ_cons by (unfold len; cbn [length]; lia). cbn [for_each].
    unfold nul_terminated. rewrite fmap_cons. cbn [mjoin list_join].
    rewrite <- !app_assoc. cbn [app]. rewrite str_nul by done. cbn [mbind res_bind].
    rewrite strings_add_text_translation by done. cbn [mbind res_bind].
    set (s0 := default new_GRFString (strings self !! key (first + k))).
    set (self1 := set_strings _ self).
    replace (Z.pred (len (t :: ts))) with (len ts) by (unfold len; cbn [length]; lia).
    destruct (IH Hall (Z.succ k) self1 rest (md5_update (t ++ [x00]) <$> h))
      as (m & h' & Hrun & Hin & Hout).
    exists m, h'. split; [|split].
    + exact Hrun.
    + intros [|i] t' Hi.
      * injection Hi as <-. replace (k + Z.of_nat 0) with k by lia. rewrite Hout.
        -- subst self1. cbn [strings set_strings]. rewrite lookup_insert_eq.
           eexists. split; [done|]. cbn [translations]. apply dict_get_set_eq.
        -- intros i _ Heq. apply Hinj in Heq. lia.
      * cbn in Hi. destruct (Hin i t' Hi) as (s & Hs & Hg). exists s.
        split; [|done]. rewrite <- Hs. f_equal. f_equal. lia.
    + intros name Hname. rewrite Hout.
      * subst self1. cbn [strings set_strings]. rewrite lookup_insert_ne; [done|].
        intros Heq. apply (Hname 0%nat); [cbn; lia|]. rewrite <- Heq. f_equal. lia.
      * intros i Hi. replace (first + (Z.succ k + Z.of_nat i))
          with (first + (k + Z.of_nat (S i))) by lia.
        apply Hname. cbn. lia.
Qed.

(** X10.  An Action 4 for a language [lang] below 0x80 other than 0x7E, with
    the first id [first] and the NUL-closed [texts]: text number [i] becomes
    the translation for [lang] of the string named after the feature and
    [first + i]; the other strings are as before, nothing else of the parser
    changes, and no sprite is skipped. *)
Theorem action_04_registers (self : t) (idx : Z) (state : ParserState)
    (feat lang first : Z) (texts : list bytes) (rest : bytes) :
  0 ≤ feat < 256 → 0 ≤ lang < 0x80 → lang ≠ 0x7E → 0 ≤ first < 65536 →
  (length texts < 256)%nat → Forall (λ t, x00 ∉ t) texts →
  let f := default feat (_feature_mapping self !! feat) in
  ∃ m,
    read_pseudo self idx
      ([x04; z2b feat; z2b lang; z2b (len texts)] ++ ext_encode first
       ++ nul_terminated texts ++ rest) state
    = Ok (0, set_strings m self, state)
    ∧ (∀ (i : nat) t, texts !! i = Some t →
         ∃ s, m !! str_feature f (first + Z.of_nat i) = Some s
              ∧ dict_get lang (translations s) = Some t)
    ∧ (∀ name, (∀ i : nat, (i < length texts)%nat → name ≠ str_feature f (first + Z.of_nat i)) →
         m !! name = strings self !! name).
Proof.
  intros Hf Hlang Hne Hfirst Hn Hall f.
  destruct (action_04_loop (str_feature f) lang first texts (str_feature_inj f) Hne Hall
              0 self rest (md5_update (ext_encode first) <$> None)) as (m & h' & Hrun & Hin & Hout).
  exists m. split; [|split].
  - unfold read_pseudo, R.of_bytes. cbn [app]. rewrite uint8_cons. cbn [mbind res_bind].
    change (b2z x04 =? 0) with false. change (b2z x04 =? 1) with false.
    change (b2z x04 =? 4) with true. cbv iota.
    unfold action_04. rewrite uint8_cons. cbn [mbind res_bind].
    rewrite uint8_cons. cbn [mbind res_bind]. rewrite uint8_cons. cbn [mbind res_bind].
    rewrite !b2z_z2b by (unfold len; lia). fold f.
    destruct (Z.ltb_spec lang 0x80); [|lia].
    rewrite uint_ext_encode by done. cbn [mbind res_bind].
    unfold range. cbn [fmap option_fmap option_map] in Hrun |- *.
    rewrite Hrun. done.
  - intros i t Hi. destruct (Hin i t Hi) as (s & Hs & Hg). exists s. by split.
  - intros name Hname. apply Hout. intros i Hi. by apply Hname.
Qed.

Lemma action_04_registers_witness :
  ∃ m,
    read_pseudo new_NewGRF 1
      ([x04; z2b 0; z2b 0x7F; z2b (len [lit "Stop"])] ++ ext_encode 7
       ++ nul_terminated [lit "Stop"] ++ []) new_ParserState
    = Ok (0, set_strings m new_NewGRF, new_ParserState)
    ∧ (∀ (i : nat) t, [lit "Stop"] !! i = Some t →
         ∃ s, m !! str_feature 0 (7 + Z.of_nat i) = Some s
              ∧ dict_get 0x7F (translations s) = Some t)
    ∧ (∀ name, (∀ i : nat, (i < length [lit "Stop"])%nat →
                  name ≠ str_feature 0 (7 + Z.of_nat i)) →
         m !! name = strings new_NewGRF !! name).
Proof.
  apply (action_04_registers new_NewGRF 1 new_ParserState 0 0x7F 7 [lit "Stop"] []);
    [lia|lia|lia|lia|cbn; lia|].
  apply Forall_cons. split; [|apply Forall_nil; done].
  apply (bool_decide_unpack _). vm_compute. exact I.
Defined.

Lemma read_pseudo_04 self idx state feat lang n rest :
  read_pseudo self idx (x04 :: feat :: lang :: n :: rest) state
  = self ← action_04 self (R.of_bytes (feat :: lang :: n :: rest)); Ok (0, self, state).
Proof.
  unfold read_pseudo, R.of_bytes. rewrite uint8_cons. cbn [mbind res_bind]. done.
Qed.

(** X11.  An Action 4 for the language 0x7E carries the name of the string,
    not a translation: an ASCII text becomes the string's name and its
    translations stay as they are; a text with a byte above 0x7F ends the
    parse with [UnicodeDecodeError]. *)
Theorem action_04_names (self : t) (idx : Z) (state : ParserState)
    (feat first : Z) (text rest : bytes) :
  0 ≤ feat < 256 → 0 ≤ first < 65536 → x00 ∉ text →
  let key := str_feature (default feat (_feature_mapping self !! feat)) first in
  let s := default new_GRFString (strings self !! key) in
  read_pseudo self idx
    ([x04; z2b feat; x7e; x01] ++ ext_encode first ++ text ++ x00 :: rest) state
  = if forallb (λ x, b2z x <? 0x80) text then
      Ok (0, set_strings (<[key := mkGRFString (b2z <$> text) (translations s)]> (strings self))
               self, state)
    else Raise UnicodeDecodeError.
Proof.
  intros Hf Hfirst Ht key s. cbn [app]. rewrite read_pseudo_04.
  unfold action_04, R.of_bytes. rewrite uint8_cons. cbn [mbind res_bind].
  rewrite uint8_cons. cbn [mbind res_bind]. rewrite uint8_cons. cbn [mbind res_bind].
  rewrite b2z_z2b by lia. change (b2z x7e <? 128) with true. cbv iota.
  rewrite uint_ext_encode by done. cbn [mbind res_bind].
  change (range (b2z x01)) with [0]. cbn [for_each mbind res_bind].
  rewrite str_nul by done. cbn [mbind res_bind].
  unfold strings_add_text, add_text. change (b2z x7e =? 126) with true. cbv iota.
  replace (first + 0) with first by lia. fold key. fold s.
  unfold ascii_decode. destruct (forallb _ text); done.
Qed.

Lemma action_04_names_witness :
  read_pseudo new_NewGRF 1
    ([x04; z2b 0; x7e; x01] ++ ext_encode 7 ++ [xe9] ++ x00 :: []) new_ParserState
  = if forallb (λ x, b2z x <? 0x80) [xe9] then
      Ok (0, set_strings
               (<[str_feature (default 0 (_feature_mapping new_NewGRF !! 0)) 7
                  := mkGRFString (b2z <$> [xe9])
                       (translations
                          (default new_GRFString
                             (strings new_NewGRF
                                !! str_feature (default 0 (_feature_mapping new_NewGRF !! 0)) 7)))]>
                  (strings new_NewGRF))
               new_NewGRF, new_ParserState)
    else Raise UnicodeDecodeError.
Proof.
  apply (action_04_names new_NewGRF 1 new_ParserState 0 7 [xe9] []); [lia|lia|].
  apply (bool_decide_unpack _). vm_compute. exact I.
Defined.

Lemma to_bytes_le_4 (a b c d : byte) :
  to_bytes_le 4 (b2z a + 256 * b2z b + 65536 * b2z c + 16777216 * b2z d) = [a; b; c; d].
Proof.
  pose proof (b2z_range a). pose proof (b2z_range b).
  pose proof (b2z_range c). pose proof (b2z_range d).
  cbn [to_bytes_le].
  set (v := b2z a + 256 * b2z b + 65536 * b2z c + 16777216 * b2z d).
  assert (v mod 256 = b2z a) as -> by (subst v; Z.div_mod_to_equations; lia).
  assert (v / 256 = b2z b + 256 * b2z c + 65536 * b2z d) as ->
    by (subst v; Z.div_mod_to_equations; lia).
  set (w := b2z b + 256 * b2z c + 65536 * b2z d).
  assert (w mod 256 = b2z b) as -> by (subst w; Z.div_mod_to_equations; lia).
  assert (w / 256 = b2z c + 256 * b2z d) as -> by (subst w; Z.div_mod_to_equations; lia).
  set (y := b2z c + 256 * b2z d).
  assert (y mod 256 = b2z c) as -> by (subst y; Z.div_mod_to_equations; lia).
  assert (y / 256 = b2z d) as -> by (subst y; Z.div_mod_to_equations; lia).
  rewrite Z.mod_small by lia. by rewrite !z2b_b2z.
Qed.

(** X12.  An Action 8 records the GRF version, the four bytes of the GRF id
    as they stand in the file, and the name and the description as the base
    language (0x7F) texts of [STR_GRF_NAME] and [STR_GRF_DESCRIPTION]; it
    skips no sprite and leaves the parser state alone. *)
Theorem action_08_identity (self : t) (idx : Z) (state : ParserState)
    (v : Z) (id name desc rest : bytes) :
  0 ≤ v < 256 → length id = 4%nat → x00 ∉ name → x00 ∉ desc →
  ∃ g,
    read_pseudo self idx
      ([x08; z2b v] ++ id ++ name ++ x00 :: desc ++ x00 :: rest) state
    = Ok (0, g, state)
    ∧ grf_version g = Some v
    ∧ unique_id g = Some id
    ∧ (∃ s, strings g !! STR_GRF_NAME = Some s
            ∧ dict_get 0x7F (translations s) = Some name)
    ∧ (∃ s, strings g !! STR_GRF_DESCRIPTION = Some s
            ∧ dict_get 0x7F (translations s) = Some desc)
    ∧ (∀ key, key ≠ STR_GRF_NAME → key ≠ STR_GRF_DESCRIPTION →
         strings g !! key = strings self !! key)
    ∧ frame self g.
Proof.
  intros Hv Hid Hn Hd.
  destruct id as [|a [|b [|c [|d [|? ?]]]]]; try discriminate Hid.
  eexists. split.
  - unfold read_pseudo, R.of_bytes. cbn [app]. rewrite uint8_cons. cbn [mbind res_bind].
    change (b2z x08 =? 0) with false. change (b2z x08 =? 1) with false.
    change (b2z x08 =? 4) with false. change (b2z x08 =? 5) with false.
    change (b2z x08 =? 6) with false.
    change (bool_decide (b2z x08 ∈ [7; 9])) with false. cbv iota.
    change (b2z x08 =? 8) with true. cbv iota.
    unfold action_08. rewrite uint8_cons. cbn [mbind res_bind].
    rewrite uint32_cons. cbn [mbind res_bind]. rewrite to_bytes_le_4.
    rewrite str_nul by done. cbn [mbind res_bind].
    rewrite strings_add_text_translation by lia. cbn [mbind res_bind].
    rewrite str_nul by done. cbn [mbind res_bind].
    rewrite strings_add_text_translation by lia. cbn [mbind res_bind].
    rewrite b2z_z2b by lia. reflexivity.
  - cbn [grf_version unique_id strings set_strings set_unique_id set_grf_version].
    split; [done|]. split; [done|]. split; [|split; [|split]].
    + rewrite lookup_insert_ne by done. rewrite lookup_insert_eq.
      eexists. split; [done|]. cbn [translations]. apply dict_get_set_eq.
    + rewrite lookup_insert_eq. eexists. split; [done|]. cbn [translations].
      apply dict_get_set_eq.
    + intros key H1 H2. by rewrite !lookup_insert_ne.
    + split; [done|]. intros Hnone. split; done.
Qed.

Lemma action_08_identity_witness :
  ∃ g,
    read_pseudo new_NewGRF 1
      ([x08; z2b 8] ++ lit "GRFX" ++ lit "Name" ++ x00 :: lit "Desc" ++ x00 :: []) new_ParserState
    = Ok (0, g, new_ParserState)
    ∧ grf_version g = Some 8
    ∧ unique_id g = Some (lit "GRFX")
    ∧ (∃ s, strings g !! STR_GRF_NAME = Some s
            ∧ dict_get 0x7F (translations s) = Some (lit "Name"))
    ∧ (∃ s, strings g !! STR_GRF_DESCRIPTION = Some s
            ∧ dict_get 0x7F (translations s) = Some (lit "Desc"))
    ∧ (∀ key, key ≠ STR_GRF_NAME → key ≠ STR_GRF_DESCRIPTION →
         strings g !! key = strings new_NewGRF !! key)
    ∧ frame new_NewGRF g.
Proof.
  apply (action_08_identity new_NewGRF 1 new_ParserState 8 (lit "GRFX") (lit "Name")
           (lit "Desc") []); [lia|reflexivity| |];
    apply (bool_decide_unpack _); vm_compute; exact I.
Defined.

(** ** Sprite counts of Actions 0x0A and 0x12 *)

Lemma skip_cons r n :
  0 ≤ n → R.skip r n = R.mk (drop (Z.to_nat n) (R.file r))
                         (md5_update (take (Z.to_nat n) (R.file r)) <$> R.hash r).
Proof. intros Hn. unfold R.skip. by rewrite read_take_drop. Qed.

Lemma action_0A_loop (sets : list (byte * (byte * byte))) :
  ∀ k rest h acc, ∃ h',
    for_each (seqZ k (len sets))
      (λ (_ : Z) '(reader, skip_sprites),
         '(n, reader) ← R.uint8 reader;
         Ok (R.skip reader 2, skip_sprites + n))
      (R.mk (sets_0A sets ++ rest) h, acc)
    = Ok (R.mk rest h', acc + sumZ ((λ e, b2z e.1) <$> sets)).
Proof.
  induction sets as [|[n [a b]] sets IH]; intros k rest h acc.
  - exists h. cbn. f_equal. f_equal. lia.
  - rewrite seqZ_cons by (unfold len; cbn [length]; lia). cbn [for_each].
    unfold sets_0A. cbn [mbind list_bind fmap list_fmap app]. rewrite uint8_cons.
    cbn [mbind res_bind]. rewrite skip_cons by lia. change (Z.to_nat 1) with 1%nat; change (Z.to_nat 2) with 2%nat; cbn [R.file R.hash drop take].
    replace (Z.pred (len ((n, (a, b)) :: sets))) with (len sets)
      by (unfold len; cbn [length]; lia).
    destruct (IH (Z.succ k) rest (md5_update [a; b] <$> (md5_update [n] <$> h)) (acc + b2z n)) as [h' Hrun].
    exists h'.
    unfold sets_0A in Hrun. etrans; [exact Hrun|]. f_equal. f_equal.
    rewrite sumZ_cons. cbn [fst]. lia.
Qed.

Lemma action_12_loop (defs : list (byte * (byte * (byte * byte)))) :
  ∀ k rest h acc, ∃ h',
    for_each (seqZ k (len defs))
      (λ (_ : Z) '(reader, skip_sprites),
         let reader := R.skip reader 1 in
         '(n, reader) ← R.uint8 reader;
         Ok (R.skip reader 2, skip_sprites + n))
      (R.mk (defs_12 defs ++ rest) h, acc)
    = Ok (R.mk rest h', acc + sumZ ((λ e, b2z e.2.1) <$> defs)).
Proof.
  induction defs as [|[font [n [a b]]] defs IH]; intros k rest h acc.
  - exists h. cbn. f_equal. f_equal. lia.
  - rewrite seqZ_cons by (unfold len; cbn [length]; lia). cbn [for_each].
    unfold defs_12. cbn [mbind list_bind fmap list_fmap app]. cbv zeta.
    rewrite skip_cons by lia.
    change (Z.to_nat 1) with 1%nat; change (Z.to_nat 2) with 2%nat; cbn [R.file R.hash drop take].
    rewrite uint8_cons.
    cbn [mbind res_bind]. rewrite skip_cons by lia. change (Z.to_nat 1) with 1%nat; change (Z.to_nat 2) with 2%nat; cbn [R.file R.hash drop take].
    replace (Z.pred (len ((font, (n, (a, b))) :: defs))) with (len defs)
      by (unfold len; cbn [length]; lia).
    destruct (IH (Z.succ k) rest
                (md5_update [a; b] <$> (md5_update [n] <$> (md5_update [font] <$> h)))
                (acc + b2z n)) as [h' Hrun].
    exists h'.
    unfold defs_12 in Hrun. etrans; [exact Hrun|]. f_equal. f_equal.
    rewrite sumZ_cons. cbn [fst snd]. lia.
Qed.

(** X13.  The sprites that follow an Action 0x0A or an Action 0x12 are
    skipped: the count returned is the sum of the sprite counts of the
    entries, of three bytes each for 0x0A and of four bytes, the count
    second, for 0x12.  The parser and its state stay as they are. *)
Theorem action_0A_12_skip_count (self : t) (idx : Z) (state : ParserState)
    (sets : list (byte * (byte * byte))) (defs : list (byte * (byte * (byte * byte))))
    (rest : bytes) :
  (length sets < 256)%nat → (length defs < 256)%nat →
  read_pseudo self idx (x0a :: z2b (len sets) :: sets_0A sets ++ rest) state
  = Ok (sumZ ((λ e, b2z e.1) <$> sets), self, state)
  ∧ read_pseudo self idx (x12 :: z2b (len defs) :: defs_12 defs ++ rest) state
    = Ok (sumZ ((λ e, b2z e.2.1) <$> defs), self, state).
Proof.
  intros Hs Hd. split.
  - unfold read_pseudo, R.of_bytes. rewrite uint8_cons. cbn [mbind res_bind].
    change (b2z x0a =? 0) with false. change (b2z x0a =? 1) with false.
    change (b2z x0a =? 4) with false. change (b2z x0a =? 5) with false.
    change (b2z x0a =? 6) with false. change (bool_decide (b2z x0a ∈ [7; 9])) with false.
    change (b2z x0a =? 8) with false. change (b2z x0a =? 10) with true. cbv iota.
    unfold action_0A. rewrite uint8_cons. cbn [mbind res_bind].
    rewrite b2z_z2b by (unfold len; lia). unfold range.
    destruct (action_0A_loop sets 0 rest (md5_update [z2b (len sets)] <$> (md5_update [x0a] <$> None)) 0)
      as [h' Hrun].
    rewrite Hrun. done.
  - unfold read_pseudo, R.of_bytes. rewrite uint8_cons. cbn [mbind res_bind].
    change (b2z x12 =? 0) with false. change (b2z x12 =? 1) with false.
    change (b2z x12 =? 4) with false. change (b2z x12 =? 5) with false.
    change (b2z x12 =? 6) with false. change (bool_decide (b2z x12 ∈ [7; 9])) with false.
    change (b2z x12 =? 8) with false. change (b2z x12 =? 10) with false.
    change (b2z x12 =? 11) with false. change (b2z x12 =? 17) with false.
    change (b2z x12 =? 18) with true. cbv iota.
    unfold action_12. rewrite uint8_cons. cbn [mbind res_bind].
    rewrite b2z_z2b by (unfold len; lia). unfold range.
    destruct (action_12_loop defs 0 rest (md5_update [z2b (len defs)] <$> (md5_update [x12] <$> None)) 0)
      as [h' Hrun].
    cbv zeta in Hrun |- *. rewrite Hrun. done.
Qed.

Lemma action_0A_12_skip_count_witness :
  read_pseudo new_NewGRF 1
    (x0a :: z2b (len [(x02, (x10, x00)); (x03, (x20, x00))])
     :: sets_0A [(x02, (x10, x00)); (x03, (x20, x00))] ++ []) new_ParserState
  = Ok (sumZ ((λ e, b2z e.1) <$> [(x02, (x10, x00)); (x03, (x20, x00))]),
        new_NewGRF, new_ParserState)
  ∧ read_pseudo new_NewGRF 1
      (x12 :: z2b (len [(x00, (x05, (x20, x00)))])
       :: defs_12 [(x00, (x05, (x20, x00)))] ++ []) new_ParserState
    = Ok (sumZ ((λ e, b2z e.2.1) <$> [(x00, (x05, (x20, x00)))]),
          new_NewGRF, new_ParserState).
Proof.
  apply (action_0A_12_skip_count new_NewGRF 1 new_ParserState
           [(x02, (x10, x00)); (x03, (x20, x00))] [(x00, (x05, (x20, x00)))] []);
    cbn; lia.
Defined.

(** ** The header *)

Lemma feature_map_never_armed_witness :
  ∃ g, read new_NewGRF v1_file = Ok g
       ∧ _next_feature_map g = None ∧ _feature_mapping g = _feature_mapping new_NewGRF.
Proof.
  eexists. split; [vm_compute; reflexivity|].
  apply (feature_map_never_armed new_NewGRF v1_file); [reflexivity|].
  vm_compute. reflexivity.
Defined.

Lemma b2z_0 (a : byte) : b2z a = 0 → a = x00.
Proof. intros H. rewrite <- (z2b_b2z a), H. done. Qed.

Lemma uint16_short be f h : (length f < 2)%nat → R.uint16 be (R.mk f h) = R.eof.
Proof. intros Hl. by destruct f as [|a [|b f]]; [| |simpl in Hl; lia]. Qed.

Lemma uint32_le_ok r v r' :
  R.uint32 false r = Ok (v, r') →
  ∃ s, length s = 4%nat ∧ R.file r = s ++ R.file r' ∧ v = R.unpack_le s.
Proof.
  unfold R.uint32. destruct (R.read r 4) as [b r1] eqn:E.
  destruct (read_spec _ _ _ _ E) as [Hf _].
  destruct (decide (length b ≠ 4%nat)) as [|Hl]; [done|]. intros [= <- <-].
  exists b. split; [|done]. by destruct (decide (length b = 4%nat)).
Qed.

Lemma read_header_shape self fp h self' size r' :
  read_header self (R.mk fp h) = Ok (self', size, r') →
  (self' = set_container_version (Some 1) self
   ∧ ∃ a b, fp = a :: b :: R.file r' ∧ size = b2z a + 256 * b2z b ∧ size ≠ 0)
  ∨ (self' = set_container_version (Some 2) self
     ∧ ∃ off s, length off = 4%nat ∧ length s = 4%nat
         ∧ fp = [x00; x00] ++ GRF_MAGIC ++ off ++ x00 :: s ++ R.file r'
         ∧ size = R.unpack_le s).
Proof.
  unfold read_header. destruct fp as [|a [|b rest]]; [done|done|].
  rewrite uint16_cons. cbn [mbind res_bind].
  pose proof (b2z_range a) as Ha. pose proof (b2z_range b) as Hb.
  destruct (Z.eqb_spec (b2z a + 256 * b2z b) 0) as [Hz|Hz].
  - rewrite read_take_drop by lia. cbn [R.file R.hash].
    destruct (bytes_eq _ GRF_MAGIC) eqn:Em; [|done].
    apply bool_decide_eq_true_1 in Em.
    intros H. apply res_bind_ok in H as ([x r3] & H3 & H).
    apply uint32_le_ok in H3 as (off & Hoff & Hf3 & _). cbn [R.file] in Hf3.
    destruct r3 as [[|c f3] h3]; [done|]. rewrite uint8_cons in H. cbn [mbind res_bind] in H.
    destruct (Z.eqb_spec (b2z c) 0) as [Hc|Hc]; [|done]. cbn [negb] in H.
    apply res_bind_ok in H as ([sz r5] & H5 & [= <- <- <-]).
    apply uint32_le_ok in H5 as (s & Hs & Hf5 & Hv). cbn [R.file] in Hf5, Hf3.
    right. split; [done|]. exists off, s. split; [done|]. split; [done|]. split; [|done].
    assert (a = x00) as -> by (apply b2z_0; lia). assert (b = x00) as -> by (apply b2z_0; lia).
    apply b2z_0 in Hc as ->. cbn [app]. do 2 f_equal.
    change (Z.to_nat 8) with 8%nat in Em, Hf3.
    rewrite <- (take_drop 8 rest), Em, Hf3, Hf5. done.
  - intros [= <- <- <-]. left. split; [done|]. by exists a, b.
Qed.

(** X15.  A file that [read] accepts is of one of two forms.  Container 1:
    its first two bytes, the size of the first record, are not both zero.
    Container 2: it begins with two zero bytes, the eight magic bytes, four
    bytes of an offset and a zero compression byte.  The container version
    recorded is 1 or 2 accordingly. *)
Theorem read_accepts_two_containers (self : t) (fp : bytes) (g : t) :
  read self fp = Ok g →
  (container_version g = Some 1
   ∧ ∃ a b rest, fp = a :: b :: rest ∧ (a ≠ x00 ∨ b ≠ x00))
  ∨ (container_version g = Some 2
     ∧ ∃ off rest, length off = 4%nat
         ∧ fp = [x00; x00] ++ GRF_MAGIC ++ off ++ x00 :: rest).
Proof.
  unfold read. intros H.
  apply res_bind_ok in H as ([[self1 size] reader1] & Hh & H).
  apply res_bind_ok in H as (ls & Hl & Ht).
  apply record_loop_inv in Hl as (_ & [Hcv _] & _). cbn [ls_self] in Hcv.
  apply read_trailer_inv in Ht as [Hg _].
  apply read_header_shape in Hh as [(-> & a & b & Hfp & Hsz & Hnz)|(-> & off & s & Ho & Hs & Hfp & _)].
  - left. split; [by rewrite Hg, Hcv|]. exists a, b, (R.file reader1). split; [done|].
    destruct (decide (a = x00)) as [->|]; [|by left]. right. intros ->.
    apply Hnz. by rewrite Hsz.
  - right. split; [by rewrite Hg, Hcv|]. exists off, (s ++ R.file reader1). by split.
Qed.

Lemma read_accepts_two_containers_witness :
  ∃ g, read new_NewGRF v2_file = Ok g
    ∧ ((container_version g = Some 1
        ∧ ∃ a b rest, v2_file = a :: b :: rest ∧ (a ≠ x00 ∨ b ≠ x00))
       ∨ (container_version g = Some 2
          ∧ ∃ off rest, length off = 4%nat
              ∧ v2_file = [x00; x00] ++ GRF_MAGIC ++ off ++ x00 :: rest)).
Proof.
  eexists. split; [vm_compute; reflexivity|].
  apply (read_accepts_two_containers new_NewGRF v2_file). vm_compute. reflexivity.
Defined.

(** X16.  Three ways in which [read] refuses a file at its header: a file
    of fewer than two bytes ends too early; a file that starts with two zero
    bytes not followed by the magic bytes is of neither container; a
    container-2 header with a compression byte other than zero is refused. *)
Theorem read_rejects_header (self : t) :
  (∀ fp, (length fp < 2)%nat →
     read self fp = Raise (RuntimeError "Unexpected end-of-file."))
  ∧ (∀ rest, take 8 rest ≠ GRF_MAGIC →
       read self (x00 :: x00 :: rest) = Raise (RuntimeError "Neither container 1 nor 2."))
  ∧ (∀ off c rest, length off = 4%nat → c ≠ x00 →
       read self ([x00; x00] ++ GRF_MAGIC ++ off ++ c :: rest)
       = Raise (RuntimeError "Unknown container 2 compression.")).
Proof.
  split; [|split].
  - intros fp Hl. unfold read, read_header. by rewrite uint16_short.
  - intros rest Hm. unfold read, read_header. rewrite uint16_cons. cbn [mbind res_bind].
    change (b2z x00 + 256 * b2z x00 =? 0) with true. cbv iota.
    rewrite read_take_drop by lia. cbn [R.file R.hash].
    unfold bytes_eq, py_eq. by rewrite bool_decide_eq_false_2.
  - intros off c rest Ho Hc. unfold read, read_header. cbn [app]. rewrite uint16_cons.
    cbn [mbind res_bind]. change (b2z x00 + 256 * b2z x00 =? 0) with true. cbv iota.
    rewrite read_take_drop by lia. cbn [R.file R.hash].
    destruct off as [|o0 [|o1 [|o2 [|o3 [|? ?]]]]]; try discriminate Ho.
    change (Z.to_nat 8) with 8%nat. cbn [take drop app GRF_MAGIC fmap list_fmap].
    unfold bytes_eq, py_eq. rewrite bool_decide_eq_true_2 by done.
    rewrite uint32_cons. cbn [mbind res_bind]. rewrite uint8_cons. cbn [mbind res_bind].
    destruct (Z.eqb_spec (b2z c) 0) as [Hz|Hz]; [by apply b2z_0 in Hz|]. done.
Qed.

Lemma read_rejects_header_witness :
  read new_NewGRF [x47] = Raise (RuntimeError "Unexpected end-of-file.")
  ∧ read new_NewGRF (x00 :: x00 :: lit "GRF") = Raise (RuntimeError "Neither container 1 nor 2.")
  ∧ read new_NewGRF ([x00; x00] ++ GRF_MAGIC ++ [x10; x00; x00; x00] ++ x01 :: [])
    = Raise (RuntimeError "Unknown container 2 compression.").
Proof.
  split; [|split].
  - apply (proj1 (read_rejects_header new_NewGRF)). cbn. lia.
  - apply (proj1 (proj2 (read_rejects_header new_NewGRF))). vm_compute. discriminate.
  - apply (proj2 (proj2 (read_rejects_header new_NewGRF))); [reflexivity|discriminate].
Defined.

(** ** Action 0x14 *)

Lemma uint8_app b rest h :
  R.uint8 (R.mk ([b] ++ rest) h) = Ok (b2z b, R.mk rest (md5_update [b] <$> h)).
Proof. apply uint8_cons. Qed.

Lemma read_app (c rest : bytes) h :
  R.read (R.mk (c ++ rest) h) (len c) = (c, R.mk rest (md5_update c <$> h)).
Proof.
  rewrite read_take_drop by (unfold len; lia). cbn [R.file R.hash]. unfold len.
  rewrite Nat2Z.id, take_app_length, drop_app_length. done.
Qed.

Lemma read_a14_S fuel self reader path :
  read_a14 (S fuel) self reader path
  = '(type_id, reader) ← R.uint8 reader;
    if type_id =? 0 then Ok (true, self, reader)
    else
      let '(segment, reader) := R.read reader 4 in
      let subpath := path ++ segment in
      if type_id =? ord "C" then
        '(ok, self, reader) ← read_a14 fuel self reader subpath;
        if negb ok then Ok (false, self, reader)
        else read_a14 fuel self reader path
      else if type_id =? ord "B" then
        '(self, reader) ← a14_blob self reader subpath;
        read_a14 fuel self reader path
      else if type_id =? ord "T" then
        '(self, reader) ← a14_text self reader subpath;
        read_a14 fuel self reader path
      else Ok (false, self, reader).
Proof. reflexivity. Qed.

Lemma read_a14_end fuel self rest h path :
  read_a14 (S fuel) self (R.mk (x00 :: rest) h) path
  = Ok (true, self, R.mk rest (md5_update [x00] <$> h)).
Proof. rewrite read_a14_S, uint8_cons. done. Qed.

Lemma read_app_len (c rest : bytes) h n :
  len c = n → R.read (R.mk (c ++ rest) h) n = (c, R.mk rest (md5_update c <$> h)).
Proof. intros <-. apply read_app. Qed.

(** An Action 0x14 whose payload opens with the node "INFO": the children
    of the node are read with the path "INFO", then the reading goes on at
    the root. *)
Lemma read_pseudo_14_info self idx state (body : bytes) :
  read_pseudo self idx (x14 :: lit "CINFO" ++ body) state
  = '(ok, self, reader) ←
      read_a14 (5 + length body) self (R.mk body None) (lit "INFO");
    if negb ok then Ok (0, self, state)
    else '(_, self, _) ← read_a14 (5 + length body) self reader []; Ok (0, self, state).
Proof.
  unfold read_pseudo, R.of_bytes. rewrite uint8_cons. cbn [mbind res_bind].
  change (b2z x14 =? 0) with false. change (b2z x14 =? 1) with false.
  change (b2z x14 =? 4) with false. change (b2z x14 =? 5) with false.
  change (b2z x14 =? 6) with false. change (bool_decide (b2z x14 ∈ [7; 9])) with false.
  change (b2z x14 =? 8) with false. change (b2z x14 =? 10) with false.
  change (b2z x14 =? 11) with false. change (b2z x14 =? 17) with false.
  change (b2z x14 =? 18) with false. change (b2z x14 =? 20) with true. cbv iota.
  cbn [R.file].
  assert (length (lit "CINFO" ++ body) = (5 + length body)%nat) as ->
    by (by rewrite length_app).
  change (lit "CINFO") with ([x43] ++ lit "INFO"). rewrite <- !app_assoc.
  rewrite read_a14_S, uint8_app. cbn [mbind res_bind].
  change (b2z x43 =? 0) with false. cbv iota.
  change 4 with (len (lit "INFO")) at 1. rewrite read_app. cbv zeta.
  change (b2z x43 =? ord "C") with true. cbv iota. cbn [app fmap option_fmap option_map].
  destruct (read_a14 _ self _ (lit "INFO")) as [[[ok self1] r1]| |]; cbn [mbind res_bind];
    [|done..].
  destruct ok; cbn [negb]; [|done].
  by destruct (read_a14 _ self1 r1 []) as [[[ok2 self2] r2]| |].
Qed.

(** The same, when the children end behind the bytes [leaf], which take the
    metadata from [self] to [g]. *)
Lemma read_pseudo_14_leaf self idx state (leaf : bytes) (g : t) :
  (∀ fuel h, ∃ h',
     read_a14 (S fuel) self (R.mk (leaf ++ [x00; x00]) h) (lit "INFO")
     = read_a14 fuel g (R.mk [x00; x00] h') (lit "INFO")) →
  read_pseudo self idx (x14 :: lit "CINFO" ++ leaf ++ [x00; x00]) state = Ok (0, g, state).
Proof.
  intros Hleaf. rewrite read_pseudo_14_info.
  destruct (Hleaf (4 + length (leaf ++ [x00; x00]))%nat None) as [h' Hl].
  change (5 + length (leaf ++ [x00; x00]))%nat with (S (4 + length (leaf ++ [x00; x00]))).
  rewrite Hl. change (4 + length (leaf ++ [x00; x00]))%nat with (S (3 + length (leaf ++ [x00; x00]))).
  rewrite read_a14_end. cbn [mbind res_bind negb].
  change (S (S (3 + length (leaf ++ [x00; x00])))) with (S (4 + length (leaf ++ [x00; x00]))).
  rewrite read_a14_end. done.
Qed.

Lemma uint32_le_take (data : bytes) h :
  4 ≤ len data →
  ∃ r, R.uint32 false (R.mk data h) = Ok (R.unpack_le (take 4 data), r).
Proof.
  intros Hl. destruct data as [|a [|b [|c [|d data]]]]; try (unfold len in Hl; simpl in Hl; lia).
  rewrite uint32_cons. eexists. do 2 f_equal. change (take 4 (a :: b :: c :: d :: data)) with [a; b; c; d].
  unfold R.unpack_le. cbn [foldr]. lia.
Qed.

Lemma a14_blob_sized self (tag data rest : bytes) h :
  len data < 65536 →
  bytes_eq (lit "INFO" ++ tag) (lit "FIDMFTID") = false →
  ∃ h',
    a14_blob self
      (R.mk ([z2b (len data `mod` 256); z2b (len data `div` 256)] ++ data ++ rest) h)
      (lit "INFO" ++ tag)
    = if bytes_eq (lit "INFO" ++ tag) (lit "INFOVRSN") && (4 <=? len data) then
        Ok (set_version (Some (R.unpack_le (take 4 data))) self, R.mk rest h')
      else if bytes_eq (lit "INFO" ++ tag) (lit "INFOMINV") && (4 <=? len data) then
        Ok (set_min_compatible_version (Some (R.unpack_le (take 4 data))) self, R.mk rest h')
      else Ok (self, R.mk rest h').
Proof.
  intros Hl Hne. unfold a14_blob. cbn [app]. rewrite uint16_cons. cbn [mbind res_bind].
  assert (b2z (z2b (len data `mod` 256)) + 256 * b2z (z2b (len data `div` 256)) = len data)
    as ->.
  { assert (0 ≤ len data) by (unfold len; lia).
    rewrite !b2z_z2b by (Z.div_mod_to_equations; lia). Z.div_mod_to_equations; lia. }
  rewrite read_app. rewrite Hne. cbn [andb mbind res_bind].
  exists (md5_update data <$>
            (md5_update [z2b (len data `mod` 256); z2b (len data `div` 256)] <$> h)).
  destruct (Z.leb_spec 4 (len data)) as [H4|H4].
  - destruct (uint32_le_take data None H4) as [r Hr]. unfold R.of_bytes. rewrite Hr.
    rewrite !andb_true_r. cbn [mbind res_bind]. done.
  - rewrite !andb_false_r. done.
Qed.

Lemma read_a14_blob_info self (name data rest : bytes) fuel h :
  len name = 4 → len data < 65536 →
  bytes_eq (lit "INFO" ++ name) (lit "FIDMFTID") = false →
  ∃ h',
    read_a14 (S fuel) self
      (R.mk ([x42] ++ name ++ [z2b (len data `mod` 256); z2b (len data `div` 256)]
             ++ data ++ rest) h) (lit "INFO")
    = read_a14 fuel
        (if bytes_eq (lit "INFO" ++ name) (lit "INFOVRSN") && (4 <=? len data) then
           set_version (Some (R.unpack_le (take 4 data))) self
         else if bytes_eq (lit "INFO" ++ name) (lit "INFOMINV") && (4 <=? len data) then
           set_min_compatible_version (Some (R.unpack_le (take 4 data))) self
         else self)
        (R.mk rest h') (lit "INFO").
Proof.
  intros Hname Hl Hne. rewrite read_a14_S, uint8_app. cbn [mbind res_bind].
  change (b2z x42 =? 0) with false. cbv iota.
  rewrite (read_app_len name _ _ 4 Hname). cbv zeta.
  change (b2z x42 =? ord "C") with false. change (b2z x42 =? ord "B") with true. cbv iota.
  destruct (a14_blob_sized self name data rest
              (md5_update name <$> (md5_update [x42] <$> h)) Hl Hne) as [h' Hb].
  rewrite Hb. exists h'.
  destruct (bytes_eq _ (lit "INFOVRSN") && _); [done|].
  by destruct (bytes_eq _ (lit "INFOMINV") && _).
Qed.

(** X17.  Under the node "INFO" of an Action 0x14, a binary leaf "VRSN"
    sets the version, and a leaf "MINV" the minimal compatible version, to
    the first four bytes of its data read as a little-endian number, when the
    leaf holds at least four bytes; a shorter leaf is passed over.  This
    holds wherever the leaf stands among the children of the node: the
    reading goes on behind the leaf, at the same path, with the metadata so
    changed.  In particular it is the whole effect of an Action 0x14 made of
    the node with that single leaf. *)
Theorem action_14_versions (self : t) (data : bytes) :
  len data < 65536 →
  let size := [z2b (len data `mod` 256); z2b (len data `div` 256)] in
  let v := Some (R.unpack_le (take 4 data)) in
  let versioned := if 4 <=? len data then set_version v self else self in
  let min_versioned := if 4 <=? len data then set_min_compatible_version v self else self in
  (∀ fuel rest h, ∃ h',
     read_a14 (S fuel) self (R.mk (lit "BVRSN" ++ size ++ data ++ rest) h) (lit "INFO")
     = read_a14 fuel versioned (R.mk rest h') (lit "INFO"))
  ∧ (∀ fuel rest h, ∃ h',
       read_a14 (S fuel) self (R.mk (lit "BMINV" ++ size ++ data ++ rest) h) (lit "INFO")
       = read_a14 fuel min_versioned (R.mk rest h') (lit "INFO"))
  ∧ (∀ idx state,
       read_pseudo self idx
         (x14 :: lit "CINFO" ++ (lit "BVRSN" ++ size ++ data) ++ [x00; x00]) state
       = Ok (0, versioned, state))
  ∧ (∀ idx state,
       read_pseudo self idx
         (x14 :: lit "CINFO" ++ (lit "BMINV" ++ size ++ data) ++ [x00; x00]) state
       = Ok (0, min_versioned, state)).
Proof.
  intros Hl size v versioned min_versioned.
  assert (∀ fuel rest h, ∃ h',
     read_a14 (S fuel) self (R.mk (lit "BVRSN" ++ size ++ data ++ rest) h) (lit "INFO")
     = read_a14 fuel versioned (R.mk rest h') (lit "INFO")) as HV.
  { intros fuel rest h.
    destruct (read_a14_blob_info self (lit "VRSN") data rest fuel h eq_refl Hl eq_refl)
      as [h' Hb].
    exists h'. exact Hb. }
  assert (∀ fuel rest h, ∃ h',
     read_a14 (S fuel) self (R.mk (lit "BMINV" ++ size ++ data ++ rest) h) (lit "INFO")
     = read_a14 fuel min_versioned (R.mk rest h') (lit "INFO")) as HM.
  { intros fuel rest h.
    destruct (read_a14_blob_info self (lit "MINV") data rest fuel h eq_refl Hl eq_refl)
      as [h' Hb].
    exists h'. exact Hb. }
  split; [exact HV|]. split; [exact HM|]. split.
  - intros idx state. apply read_pseudo_14_leaf. intros fuel h.
    rewrite <- !app_assoc. apply HV.
  - intros idx state. apply read_pseudo_14_leaf. intros fuel h.
    rewrite <- !app_assoc. apply HM.
Qed.

Lemma action_14_versions_witness :
  read_pseudo new_NewGRF 1
    (x14 :: lit "CINFO"
     ++ (lit "BVRSN" ++ [z2b (len [x02; x01; x00; x00] `mod` 256);
                         z2b (len [x02; x01; x00; x00] `div` 256)]
         ++ [x02; x01; x00; x00]) ++ [x00; x00]) new_ParserState
  = Ok (0, if 4 <=? len [x02; x01; x00; x00]
           then set_version (Some (R.unpack_le (take 4 [x02; x01; x00; x00]))) new_NewGRF
           else new_NewGRF, new_ParserState).
Proof.
  apply (proj1 (proj2 (proj2 (action_14_versions new_NewGRF [x02; x01; x00; x00] eq_refl)))
           1 new_ParserState).
Defined.

Lemma strings_add_text_name key text self :
  strings_add_text key 0x7E text self
  = if forallb (λ x, b2z x <? 0x80) text then
      Ok (set_strings
            (<[key := mkGRFString (b2z <$> text)
                       (translations (default new_GRFString (strings self !! key)))]>
               (strings self)) self)
    else Raise UnicodeDecodeError.
Proof.
  unfold strings_add_text, add_text. change (0x7E =? 0x7E) with true. cbv iota.
  unfold ascii_decode. by destruct (forallb _ text).
Qed.

Lemma a14_text_info self (tag text rest : bytes) (lang : Z) (key : string) h :
  0 ≤ lang < 256 → x00 ∉ text →
  (tag, key) ∈ [(lit "NAME", STR_GRF_NAME); (lit "DESC", STR_GRF_DESCRIPTION);
                (lit "URL_", STR_GRF_URL)] →
  ∃ h',
    a14_text self (R.mk ([z2b lang] ++ text ++ [x00] ++ rest) h) (lit "INFO" ++ tag)
    = self ← strings_add_text key lang text self; Ok (self, R.mk rest h').
Proof.
  intros Hlang Ht Hin. unfold a14_text. rewrite uint8_app. cbn [mbind res_bind].
  cbn [app]. rewrite str_nul by done. cbn [mbind res_bind]. rewrite b2z_z2b by done.
  eexists.
  apply elem_of_cons in Hin as [[= -> ->]|Hin];
    [|apply elem_of_cons in Hin as [[= -> ->]|Hin];
      [|apply list_elem_of_singleton in Hin as [= -> ->]]].
  - change (bytes_eq (lit "INFO" ++ lit "NAME") (lit "FIDMNAME")) with false.
    change (bytes_eq (lit "INFO" ++ lit "NAME") (lit "INFONAME")) with true. cbv iota.
    reflexivity.
  - change (bytes_eq (lit "INFO" ++ lit "DESC") (lit "FIDMNAME")) with false.
    change (bytes_eq (lit "INFO" ++ lit "DESC") (lit "INFONAME")) with false.
    change (bytes_eq (lit "INFO" ++ lit "DESC") (lit "INFODESC")) with true. cbv iota.
    reflexivity.
  - change (bytes_eq (lit "INFO" ++ lit "URL_") (lit "FIDMNAME")) with false.
    change (bytes_eq (lit "INFO" ++ lit "URL_") (lit "INFONAME")) with false.
    change (bytes_eq (lit "INFO" ++ lit "URL_") (lit "INFODESC")) with false.
    change (bytes_eq (lit "INFO" ++ lit "URL_") (lit "INFOURL_")) with true. cbv iota.
    reflexivity.
Qed.

(** X18.  Under the node "INFO" of an Action 0x14, a text leaf "NAME",
    "DESC" or "URL_" files its text under [STR_GRF_NAME],
    [STR_GRF_DESCRIPTION] or [STR_GRF_URL]: as the translation for the
    language the leaf names, the name and the other translations of the
    string staying as they are; or, when that language is 0x7E, as the name
    of the string, its translations staying as they are, provided the text is
    ASCII, the parse ending with [UnicodeDecodeError] when it is not.  The
    other strings and the rest of the metadata are left alone.  This holds
    wherever the leaf stands among the children of the node: the reading goes
    on behind the leaf, at the same path.  In particular it is the whole
    effect of an Action 0x14 made of the node with that single leaf. *)
Theorem action_14_info_texts (self : t) (tag text : bytes) (key : string) (lang : Z) :
  0 ≤ lang < 256 → x00 ∉ text →
  (tag, key) ∈ [(lit "NAME", STR_GRF_NAME); (lit "DESC", STR_GRF_DESCRIPTION);
                (lit "URL_", STR_GRF_URL)] →
  let s := default new_GRFString (strings self !! key) in
  let s' := if lang =? 0x7E then mkGRFString (b2z <$> text) (translations s)
            else mkGRFString (str_name s) (dict_set lang text (translations s)) in
  let g := set_strings (<[key := s']> (strings self)) self in
  let decodes := negb (lang =? 0x7E) || forallb (λ x, b2z x <? 0x80) text in
  let leaf := [x54] ++ tag ++ [z2b lang] ++ text ++ [x00] in
  (∀ fuel rest h, ∃ h',
     read_a14 (S fuel) self (R.mk (leaf ++ rest) h) (lit "INFO")
     = if decodes then read_a14 fuel g (R.mk rest h') (lit "INFO")
       else Raise UnicodeDecodeError)
  ∧ (∀ idx state,
       read_pseudo self idx (x14 :: lit "CINFO" ++ leaf ++ [x00; x00]) state
       = if decodes then Ok (0, g, state) else Raise UnicodeDecodeError)
  ∧ strings g !! key = Some s'
  ∧ (lang ≠ 0x7E →
       str_name s' = str_name s
       ∧ dict_get lang (translations s') = Some text
       ∧ ∀ l, l ≠ lang → dict_get l (translations s') = dict_get l (translations s))
  ∧ (lang = 0x7E → str_name s' = b2z <$> text ∧ translations s' = translations s)
  ∧ (∀ k, k ≠ key → strings g !! k = strings self !! k).
Proof.
  intros Hlang Ht Hin s s' g decodes leaf.
  assert (len tag = 4) as Hlen.
  { apply elem_of_cons in Hin as [[= -> ->]|Hin']; [done|].
    apply elem_of_cons in Hin' as [[= -> ->]|Hin']; [done|].
    by apply list_elem_of_singleton in Hin' as [= -> ->]. }
  assert (strings_add_text key lang text self
          = if decodes then Ok g else Raise UnicodeDecodeError) as Hadd.
  { subst decodes g s'. destruct (Z.eqb_spec lang 0x7E) as [->|Hne]; cbn [negb orb].
    - rewrite strings_add_text_name. by destruct (forallb _ text).
    - by rewrite strings_add_text_translation. }
  assert (∀ fuel rest h, ∃ h',
     read_a14 (S fuel) self (R.mk (leaf ++ rest) h) (lit "INFO")
     = if decodes then read_a14 fuel g (R.mk rest h') (lit "INFO")
       else Raise UnicodeDecodeError) as Hstep.
  { intros fuel rest h. subst leaf. rewrite <- !app_assoc.
    rewrite read_a14_S, uint8_app. cbn [mbind res_bind].
    change (b2z x54 =? 0) with false. cbv iota.
    rewrite (read_app_len tag _ _ 4 Hlen). cbv zeta.
    change (b2z x54 =? ord "C") with false. change (b2z x54 =? ord "B") with false.
    change (b2z x54 =? ord "T") with true. cbv iota.
    destruct (a14_text_info self tag text rest lang key
                (md5_update tag <$> (md5_update [x54] <$> h)) Hlang Ht Hin) as [h' Hb].
    rewrite Hb, Hadd. exists h'. by destruct decodes. }
  split; [exact Hstep|]. split; [|split; [|split; [|split]]].
  - intros idx state. rewrite read_pseudo_14_info.
    destruct (Hstep (4 + length (leaf ++ [x00; x00]))%nat [x00; x00] None) as [h' Hl].
    change (5 + length (leaf ++ [x00; x00]))%nat with (S (4 + length (leaf ++ [x00; x00]))).
    rewrite Hl. destruct decodes; [|done].
    change (4 + length (leaf ++ [x00; x00]))%nat with (S (3 + length (leaf ++ [x00; x00]))).
    rewrite read_a14_end. cbn [mbind res_bind negb].
    change (S (S (3 + length (leaf ++ [x00; x00])))) with (S (4 + length (leaf ++ [x00; x00]))).
    rewrite read_a14_end. done.
  - apply lookup_insert_eq.
  - intros Hne. subst s'. destruct (Z.eqb_spec lang 0x7E); [done|]. cbn [str_name translations].
    split; [done|]. split; [apply dict_get_set_eq|]. intros l Hl. by apply dict_get_set_ne.
  - intros ->. done.
  - intros k Hk. by apply lookup_insert_ne.
Qed.

Lemma action_14_info_texts_witness :
  read_pseudo new_NewGRF 1
    (x14 :: lit "CINFO" ++ ([x54] ++ lit "URL_" ++ [z2b 0x7F] ++ lit "http://x" ++ [x00])
     ++ [x00; x00]) new_ParserState
  = (if negb (0x7F =? 0x7E) || forallb (λ x, b2z x <? 0x80) (lit "http://x") then
       Ok (0, set_strings
                (<[STR_GRF_URL :=
                     if 0x7F =? 0x7E then
                       mkGRFString (b2z <$> lit "http://x")
                         (translations
                            (default new_GRFString (strings new_NewGRF !! STR_GRF_URL)))
                     else
                       mkGRFString
                         (str_name (default new_GRFString (strings new_NewGRF !! STR_GRF_URL)))
                         (dict_set 0x7F (lit "http://x")
                            (translations
                               (default new_GRFString (strings new_NewGRF !! STR_GRF_URL))))]>
                   (strings new_NewGRF)) new_NewGRF, new_ParserState)
     else Raise UnicodeDecodeError).
Proof.
  assert (x00 ∉ lit "http://x") as Ht by (apply (bool_decide_unpack _); vm_compute; exact I).
  assert ((lit "URL_", STR_GRF_URL)
          ∈ [(lit "NAME", STR_GRF_NAME); (lit "DESC", STR_GRF_DESCRIPTION);
             (lit "URL_", STR_GRF_URL)]) as Hin
    by (apply (bool_decide_unpack _); vm_compute; exact I).
  apply (proj1 (proj2 (action_14_info_texts new_NewGRF (lit "URL_") (lit "http://x")
                         STR_GRF_URL 0x7F ltac:(lia) Ht Hin)) 1 new_ParserState).
Defined.

(** ** Action 0x0B *)

(** X19.  An Action 0x0B with a text that is not empty files it under the
    error string that is open, or else under the one named after the sprite
    index, which it opens: as the translation for its language, the name and
    the other translations of the string staying as they are; or, when the
    language is 0x7E, as the name of the string, its translations staying as
    they are, provided the text is ASCII, the parse ending with
    [UnicodeDecodeError] when it is not.  The other strings and the rest of
    the metadata are left alone.  The string stays open for the next Action
    0x0B unless the language is the base language 0x7F. *)
Theorem action_0B_error_string (self : t) (idx : Z) (state : ParserState)
    (sev msg : byte) (lang : Z) (text rest : bytes) :
  0 ≤ lang < 256 → x00 ∉ text → text ≠ [] →
  let key := default (str_error idx) (actionb_string state) in
  let s := default new_GRFString (strings self !! key) in
  let s' := if lang =? 0x7E then mkGRFString (b2z <$> text) (translations s)
            else mkGRFString (str_name s) (dict_set lang text (translations s)) in
  let g := set_strings (<[key := s']> (strings self)) self in
  let decodes := negb (lang =? 0x7E) || forallb (λ x, b2z x <? 0x80) text in
  read_pseudo self idx (x0b :: sev :: z2b lang :: msg :: text ++ x00 :: rest) state
  = (if decodes then
       Ok (0, g, mkParserState (action6_effect state)
                   (if lang =? 0x7F then None else Some key))
     else Raise UnicodeDecodeError)
  ∧ strings g !! key = Some s'
  ∧ (lang ≠ 0x7E →
       str_name s' = str_name s
       ∧ dict_get lang (translations s') = Some text
       ∧ ∀ l, l ≠ lang → dict_get l (translations s') = dict_get l (translations s))
  ∧ (lang = 0x7E → str_name s' = b2z <$> text ∧ translations s' = translations s)
  ∧ (∀ k, k ≠ key → strings g !! k = strings self !! k).
Proof.
  intros Hlang Ht Hnil key s s' g decodes.
  assert (∀ self0 key0,
    (let reader := R.skip (R.mk (sev :: z2b lang :: msg :: text ++ x00 :: rest)
                             (md5_update [x0b] <$> None)) 1 in
     '(lang_id, reader) ← R.uint8 reader;
     let reader := R.skip reader 1 in
     '(text, reader) ← R.str reader;
     self ← (if negb (bool_decide (text = [])) then strings_add_text key0 lang_id text self0
             else Ok self0);
     Ok (self,
         mkParserState (action6_effect state)
           (if lang_id =? 0x7F then None else Some key0)))
    = self ← strings_add_text key0 lang text self0;
      Ok (self, mkParserState (action6_effect state) (if lang =? 0x7F then None else Some key0)))
    as Hbody.
  { intros self0 key0. cbv zeta. rewrite skip_cons by lia.
    change (Z.to_nat 1) with 1%nat. cbn [R.file R.hash drop take skipn firstn].
    rewrite uint8_cons. cbn [mbind res_bind]. rewrite skip_cons by lia.
    change (Z.to_nat 1) with 1%nat. cbn [R.file R.hash drop take skipn firstn].
    rewrite drop_0, take_0. rewrite str_nul by done. cbn [mbind res_bind].
    rewrite bool_decide_eq_false_2 by done. cbn [negb]. rewrite b2z_z2b by done. done. }
  assert (∀ self0, default new_GRFString (strings self0 !! key) = s →
          strings_add_text key lang text self0
          = if decodes then Ok (set_strings (<[key := s']> (strings self0)) self0)
            else Raise UnicodeDecodeError) as Hadd.
  { intros self0 Hsame. subst decodes s'.
    destruct (Z.eqb_spec lang 0x7E) as [->|Hne]; cbn [negb orb].
    - rewrite strings_add_text_name, Hsame. by destruct (forallb _ text).
    - by rewrite strings_add_text_translation, Hsame. }
  split; [|split; [|split; [|split]]].
  - unfold read_pseudo, R.of_bytes. rewrite uint8_cons. cbn [mbind res_bind].
    change (b2z x0b =? 0) with false. change (b2z x0b =? 1) with false.
    change (b2z x0b =? 4) with false. change (b2z x0b =? 5) with false.
    change (b2z x0b =? 6) with false. change (bool_decide (b2z x0b ∈ [7; 9])) with false.
    change (b2z x0b =? 8) with false. change (b2z x0b =? 10) with false.
    change (b2z x0b =? 11) with true. cbv iota.
    unfold action_0B. subst g key. destruct (actionb_string state) as [key|]; cbn [default] in *.
    + cbv zeta in Hbody |- *. rewrite Hbody, Hadd by done. by destruct decodes.
    + cbv zeta in Hbody |- *. rewrite Hbody, Hadd
        by (cbn [strings set_strings]; by rewrite lookup_insert_eq).
      destruct decodes; [|done]. cbn [mbind res_bind strings set_strings].
      by rewrite insert_insert_eq.
  - apply lookup_insert_eq.
  - intros Hne. subst s'. destruct (Z.eqb_spec lang 0x7E); [done|]. cbn [str_name translations].
    split; [done|]. split; [apply dict_get_set_eq|]. intros l Hl. by apply dict_get_set_ne.
  - intros ->. done.
  - intros k Hk. by apply lookup_insert_ne.
Qed.

Lemma action_0B_error_string_witness :
  read_pseudo new_NewGRF 5 (x0b :: x03 :: z2b 0x02 :: xff :: lit "Fehler" ++ x00 :: [])
    new_ParserState
  = (if negb (0x02 =? 0x7E) || forallb (λ x, b2z x <? 0x80) (lit "Fehler") then
       Ok (0, set_strings
                (<[default (str_error 5) (actionb_string new_ParserState) :=
                     if 0x02 =? 0x7E then
                       mkGRFString (b2z <$> lit "Fehler")
                         (translations
                            (default new_GRFString
                               (strings new_NewGRF
                                  !! default (str_error 5) (actionb_string new_ParserState))))
                     else
                       mkGRFString
                         (str_name
                            (default new_GRFString
                               (strings new_NewGRF
                                  !! default (str_error 5) (actionb_string new_ParserState))))
                         (dict_set 0x02 (lit "Fehler")
                            (translations
                               (default new_GRFString
                                  (strings new_NewGRF
                                     !! default (str_error 5)
                                          (actionb_string new_ParserState)))))]>
                   (strings new_NewGRF)) new_NewGRF,
           mkParserState (action6_effect new_ParserState)
             (if 0x02 =? 0x7F then None
              else Some (default (str_error 5) (actionb_string new_ParserState))))
     else Raise UnicodeDecodeError).
Proof.
  assert (x00 ∉ lit "Fehler") as Ht by (apply (bool_decide_unpack _); vm_compute; exact I).
  apply (proj1 (action_0B_error_string new_NewGRF 5 new_ParserState x03 xff 0x02 (lit "Fehler")
                  [] ltac:(lia) Ht ltac:(discriminate))).
Defined.

(** ** Action 0x00: plural forms *)

Lemma plurals_loop (first : Z) (vs : list byte) :
  ∀ k rest h (table : gmap Z Z), ∃ m h',
    for_each (seqZ k (len vs))
      (λ i '(reader, table),
         '(v, reader) ← R.uint8 reader;
         Ok (reader, <[first + i := v]> table))
      (R.mk (vs ++ rest) h, table)
    = Ok (R.mk rest h', m)
    ∧ (∀ (i : nat) v, vs !! i = Some v → m !! (first + (k + Z.of_nat i)) = Some (b2z v))
    ∧ (∀ id, ¬ (first + k ≤ id < first + k + len vs) → m !! id = table !! id).
Proof.
  induction vs as [|v vs IH]; intros k rest h table.
  - exists table, h. split; [done|]. split; [done|done].
  - rewrite seqZ_cons by (unfold len; cbn [length]; lia). cbn [for_each app].
    rewrite uint8_cons. cbn [mbind res_bind].
    replace (Z.pred (len (v :: vs))) with (len vs) by (unfold len; cbn [length]; lia).
    destruct (IH (Z.succ k) rest (md5_update [v] <$> h) (<[first + k := b2z v]> table))
      as (m & h' & Hrun & Hin & Hout).
    exists m, h'. split; [exact Hrun|]. split.
    + intros [|i] v' Hi.
      * injection Hi as <-. replace (k + Z.of_nat 0) with k by lia.
        rewrite Hout by lia. apply lookup_insert_eq.
      * cbn in Hi. rewrite <- (Hin i v' Hi). f_equal. lia.
    + intros id Hid. unfold len in Hid. cbn [length] in Hid.
      rewrite Hout by (unfold len; lia). apply lookup_insert_ne. lia.
Qed.

(** X20.  An Action 0 for the global feature 0x08 with the one property
    0x15 sets the plural form of the languages [first], [first + 1], ... to
    the bytes that follow, one each; the plural forms of the other languages
    and the rest of the parser are left as they are. *)
Theorem action_00_plurals (self : t) (idx : Z) (state : ParserState)
    (first : Z) (vs rest : bytes) :
  _feature_mapping self !! 0x08 = None →
  0 ≤ first < 65536 → (0 < length vs < 256)%nat →
  ∃ m,
    read_pseudo self idx
      ([x00; x08; x01; z2b (len vs)] ++ ext_encode first ++ [x15] ++ vs ++ rest) state
    = Ok (0, set_plurals m self, state)
    ∧ (∀ (i : nat) v, vs !! i = Some v → m !! (first + Z.of_nat i) = Some (b2z v))
    ∧ (∀ id, ¬ (first ≤ id < first + len vs) → m !! id = plurals self !! id).
Proof.
  intros Hmap Hfirst Hn.
  destruct (plurals_loop first vs 0 rest
              (md5_update [x15] <$> (md5_update (ext_encode first) <$> None)) (plurals self))
    as (m & h' & Hrun & Hin & Hout).
  exists m. split; [|split].
  - unfold read_pseudo, R.of_bytes. cbn [app]. rewrite uint8_cons. cbn [mbind res_bind].
    change (b2z x00 =? 0) with true. cbv iota.
    unfold action_00. rewrite uint8_cons. cbn [mbind res_bind].
    change (b2z x08) with 8. rewrite Hmap. cbn [default].
    rewrite uint8_cons. cbn [mbind res_bind]. rewrite uint8_cons. cbn [mbind res_bind].
    rewrite b2z_z2b by (unfold len; lia).
    destruct (Z.eqb_spec (len vs) 0) as [Hz|_]; [unfold len in Hz; lia|]. cbn [negb].
    rewrite uint_ext_encode by done. cbn [mbind res_bind].
    change (8 =? 8) with true. cbv iota. change (Z.to_nat (b2z x01)) with 1%nat.
    cbn [props_loop]. rewrite uint8_cons. cbn [mbind res_bind].
    change (b2z x15 =? 8) with false. change (b2z x15 =? 16) with false.
    change (bool_decide (b2z x15 ∈ [10; 12; 15])) with false.
    change (bool_decide (b2z x15 ∈ [9; 11; 13; 14; 18; 22; 23])) with false.
    change (bool_decide (b2z x15 ∈ [17])) with false.
    change (b2z x15 =? 19) with false. change (b2z x15 =? 20) with false.
    change (b2z x15 =? 21) with true. cbv iota.
    unfold range. cbn [fmap option_fmap option_map] in Hrun |- *.
    rewrite Hrun. done.
  - intros i v Hi. by apply Hin.
  - intros id Hid. apply Hout. lia.
Qed.

Lemma action_00_plurals_witness :
  ∃ m,
    read_pseudo new_NewGRF 1
      ([x00; x08; x01; z2b (len [x00; x02])] ++ ext_encode 1 ++ [x15] ++ [x00; x02] ++ [])
      new_ParserState
    = Ok (0, set_plurals m new_NewGRF, new_ParserState)
    ∧ (∀ (i : nat) v, [x00; x02] !! i = Some v → m !! (1 + Z.of_nat i) = Some (b2z v))
    ∧ (∀ id, ¬ (1 ≤ id < 1 + len [x00; x02]) → m !! id = plurals new_NewGRF !! id).
Proof.
  apply (action_00_plurals new_NewGRF 1 new_ParserState 1 [x00; x02] []);
    [reflexivity|lia|cbn; lia].
Defined.

(** ** The base text in the output *)

Section dict_del_lemmas.
Context {K V : Type} `{EqDecision K}.
Implicit Types (d : pydict K V) (k : K).

Lemma dict_get_del_ne k k' d : k ≠ k' → dict_get k' (dict_del k d) = dict_get k' d.
Proof.
  intros Hne. induction d as [|[k0 v0] d IH]; [done|]. cbn [dict_del dict_get].
  destruct (decide (k0 = k)) as [->|Hk]; [by rewrite decide_False|].
  cbn [dict_get]. by rewrite IH.
Qed.

Lemma dict_get_del_eq k d : NoDup (dict_keys d) → dict_get k (dict_del k d) = None.
Proof.
  induction d as [|[k0 v0] d IH]; [done|]. unfold dict_keys. cbn [fmap list_fmap fst].
  intros [Hnotin Hnd]%NoDup_cons. cbn [dict_del].
  destruct (decide (k0 = k)) as [->|Hk].
  - destruct (dict_get k d) eqn:E; [|done]. exfalso. apply Hnotin.
    apply dict_get_keys. by rewrite E.
  - cbn [dict_get]. rewrite decide_False by done. by apply IH.
Qed.
End dict_del_lemmas.

Lemma process_string_ok raw r :
  NoDup (dict_keys raw) → process_string raw = Ok r →
  is_Some (dict_get 0x7F raw)
  ∧ NoDup (dict_keys r)
  ∧ (∀ k, k ∈ dict_keys r ↔ k ∈ dict_keys raw)
  ∧ (∀ k, dict_get k r = dict_get k raw ≫= decoded_text).
Proof.
  intros Hnd. unfold process_string. destruct (dict_get 0x7F raw) as [base_raw|] eqn:Hb; [|done].
  destruct (decodestr base_raw) as [[text params]| |]; cbn [mbind res_bind]; [|done..].
  intros Hr. split; [done|].
  destruct (process_items_keys raw [(0x7F, text)] r) as [Hnd' Hk];
    [apply NoDup_singleton|done|].
  split; [done|]. split.
  - intros k. rewrite Hk. split; [|tauto]. intros [?|Hin]; [done|].
    unfold dict_keys in Hin. cbn [fmap list_fmap fst] in Hin.
    apply list_elem_of_singleton in Hin as ->. apply dict_get_keys. by rewrite Hb.
  - intros k. rewrite (process_items_ok raw _ r Hnd Hr k).
    destruct (dict_get k raw) as [raw_text|] eqn:Ek; [done|]. cbn [dict_get mbind option_bind].
    destruct (decide (0x7F = k)) as [<-|?]; [congruence|done].
Qed.

(** X21.  When the translations of a string decode, the texts that go to
    the language files are these: every supplied language other than 0x7F
    keeps its own decoded text; the base text, supplied as 0x7F, goes to the
    language 0x01 when no text was supplied for it, or else to 0x00 when
    none was supplied for that; when both were supplied the base text is
    dropped.  Nothing is filed under 0x7F. *)
Theorem base_text_fallback (raw : pydict Z bytes) (out : pydict Z pystr) :
  NoDup (dict_keys raw) → Main.lang_strings raw = Ok out →
  ∃ base,
    dict_get 0x7F raw ≫= decoded_text = Some base
    ∧ ∀ k, dict_get k out =
        if decide (k = 0x7F) then None
        else match dict_get k raw with
             | Some raw_text => decoded_text raw_text
             | None =>
               if decide (k = 0x01) then Some base
               else if decide (k = 0x00) then
                 (if dict_mem 0x01 raw then Some base else None)
               else None
             end.
Proof.
  intros Hnd. unfold Main.lang_strings.
  destruct (process_string raw) as [r| |] eqn:Hp; cbn [mbind res_bind]; [|done..].
  apply process_string_ok in Hp as ([base_raw Hb] & Hndr & Hkeys & Hget); [|done].
  assert (∀ k t, dict_get k raw = Some t → is_Some (decoded_text t)) as Hdec.
  { intros k t Hk. assert (k ∈ dict_keys r) as Hin.
    { apply Hkeys, dict_get_keys. by rewrite Hk. }
    apply dict_get_keys in Hin. by rewrite Hget, Hk in Hin. }
  destruct (Hdec _ _ Hb) as [base Hbase].
  assert (dict_get 0x7F r = Some base) as Hr7 by (by rewrite Hget, Hb).
  rewrite Hr7.
  assert (∀ k, dict_mem k (dict_del 0x7F r) = if decide (k = 0x7F) then false else dict_mem k raw)
    as Hmem.
  { intros k. unfold dict_mem. destruct (decide (k = 0x7F)) as [->|Hk].
    - by rewrite dict_get_del_eq.
    - rewrite dict_get_del_ne by done. rewrite Hget.
      destruct (dict_get k raw) as [t|] eqn:Ek; [|done]. cbn [mbind option_bind].
      by destruct (Hdec _ t Ek) as [? ->]. }
  assert (∀ k, dict_get k (dict_del 0x7F r) =
               if decide (k = 0x7F) then None else dict_get k raw ≫= decoded_text) as Hd.
  { intros k. destruct (decide (k = 0x7F)) as [->|Hk]; [by apply dict_get_del_eq|].
    by rewrite dict_get_del_ne. }
  rewrite !Hmem. rewrite !decide_False by done.
  intros Hout. exists base. split; [by rewrite Hb|]. intros k.
  unfold dict_mem in Hout |- *.
  destruct (dict_get 0x01 raw) as [t1|] eqn:E1; cbn [negb] in Hout.
  - destruct (dict_get 0x00 raw) as [t0|] eqn:E0; cbn [negb] in Hout; injection Hout as <-.
    + rewrite Hd. destruct (decide (k = 0x7F)); [done|].
      destruct (dict_get k raw) eqn:Ek; [done|]. cbn [mbind option_bind].
      destruct (decide (k = 0x01)) as [->|]; [congruence|].
      destruct (decide (k = 0x00)) as [->|]; [congruence|done].
    + destruct (decide (k = 0x00)) as [->|Hk0].
      * rewrite dict_get_set_eq. rewrite decide_False by done. by rewrite E0.
      * rewrite dict_get_set_ne by done. rewrite Hd. destruct (decide (k = 0x7F)); [done|].
        destruct (dict_get k raw) eqn:Ek; [done|]. cbn [mbind option_bind].
        destruct (decide (k = 0x01)) as [->|]; [congruence|done].
  - injection Hout as <-. destruct (decide (k = 0x01)) as [->|Hk1].
    + rewrite dict_get_set_eq. rewrite decide_False by done. by rewrite E1.
    + rewrite dict_get_set_ne by done. rewrite Hd. destruct (decide (k = 0x7F)); [done|].
      destruct (dict_get k raw) eqn:Ek; [done|]. cbn [mbind option_bind].
      by destruct (decide (k = 0x00)).
Qed.

Lemma base_text_fallback_witness :
  ∃ out, Main.lang_strings [(0x7F, lit "Stop"); (0x01, lit "Halt")] = Ok out
  ∧ ∃ base,
    dict_get 0x7F [(0x7F, lit "Stop"); (0x01, lit "Halt")] ≫= decoded_text = Some base
    ∧ ∀ k, dict_get k out =
        if decide (k = 0x7F) then None
        else match dict_get k [(0x7F, lit "Stop"); (0x01, lit "Halt")] with
             | Some raw_text => decoded_text raw_text
             | None =>
               if decide (k = 0x01) then Some base
               else if decide (k = 0x00) then
                 (if dict_mem 0x01 [(0x7F, lit "Stop"); (0x01, lit "Halt")] then Some base
                  else None)
               else None
             end.
Proof.
  eexists. split; [vm_compute; reflexivity|].
  apply (base_text_fallback [(0x7F, lit "Stop"); (0x01, lit "Halt")]).
  - apply (bool_decide_unpack _). vm_compute. exact I.
  - vm_compute. reflexivity.
Defined.

(** ** The skip budget *)

Lemma uint8_nonneg r v r' : R.uint8 r = Ok (v, r') → 0 ≤ v.
Proof. intros H. pose proof (uint8_spec r) as Hs. rewrite H in Hs. destruct Hs as (c & _ & _ & _ & Hv). lia. Qed.

Lemma uint16_nonneg be r v r' : R.uint16 be r = Ok (v, r') → 0 ≤ v.
Proof. intros H. pose proof (uint16_spec be r) as Hs. rewrite H in Hs. destruct Hs as (c & _ & _ & _ & Hv). lia. Qed.

Lemma uint_ext_nonneg r v r' : R.uint_ext r = Ok (v, r') → 0 ≤ v.
Proof.
  unfold R.uint_ext. intros H. apply res_bind_ok in H as ([b r1] & H1 & H).
  apply uint8_nonneg in H1. destruct (b =? 0xFF); [by apply uint16_nonneg in H|].
  by injection H as <- _.
Qed.

Lemma read_pseudo_skip_nonneg self idx pseudo state skip self' state' :
  read_pseudo self idx pseudo state = Ok (skip, self', state') → 0 ≤ skip.
Proof.
  unfold read_pseudo. intros H. apply res_bind_ok in H as ([action r] & _ & H).
  destruct (action =? 0x00).
  { by apply res_bind_ok in H as (s & Hs & [= <- _ _]). }
  destruct (action =? 0x01).
  { apply res_bind_ok in H as (s & Hs & [= <- _ _]). unfold action_01 in Hs.
    apply res_bind_ok in Hs as ([? r1] & _ & Hs).
    apply res_bind_ok in Hs as ([n r2] & Hn & Hs). apply uint8_nonneg in Hn.
    apply res_bind_ok in Hs as ([n' r3] & Hn' & Hs).
    apply res_bind_ok in Hs as ([e r4] & He & [= <-]). apply uint_ext_nonneg in He.
    assert (0 ≤ n'); [|nia].
    destruct (_ && _).
    - apply res_bind_ok in Hn' as ([? r5] & _ & Hn'). by apply uint_ext_nonneg in Hn'.
    - by injection Hn' as <- _. }
  destruct (action =? 0x04).
  { by apply res_bind_ok in H as (s & Hs & [= <- _ _]). }
  destruct (action =? 0x05).
  { apply res_bind_ok in H as (s & Hs & [= <- _ _]). unfold action_05 in Hs.
    apply res_bind_ok in Hs as ([n r1] & Hn & [= <-]). by apply uint_ext_nonneg in Hn. }
  destruct (action =? 0x06); [by injection H as <- _ _|].
  destruct (bool_decide (action ∈ [0x07; 0x09])); [by injection H as <- _ _|].
  destruct (action =? 0x08).
  { by apply res_bind_ok in H as (s & Hs & [= <- _ _]). }
  destruct (action =? 0x0A).
  { apply res_bind_ok in H as (s & Hs & [= <- _ _]). unfold action_0A in Hs.
    apply res_bind_ok in Hs as ([n r1] & _ & Hs).
    apply res_bind_ok in Hs as ([r2 k] & Hl & [= <-]).
    eapply (for_each_inv (λ s, 0 ≤ s.2)) in Hl; [done| |done].
    intros x [ra a] [rb b] Ha Hb. cbn [snd] in *.
    apply res_bind_ok in Hb as ([c rc] & Hc & [= _ <-]). apply uint8_nonneg in Hc. lia. }
  destruct (action =? 0x0B).
  { by apply res_bind_ok in H as ([s st] & Hs & [= <- _ _]). }
  destruct (action =? 0x11).
  { apply res_bind_ok in H as ([s st] & Hs & [= <- _ _]). by apply uint16_nonneg in Hs. }
  destruct (action =? 0x12).
  { apply res_bind_ok in H as (s & Hs & [= <- _ _]). unfold action_12 in Hs.
    apply res_bind_ok in Hs as ([n r1] & _ & Hs).
    apply res_bind_ok in Hs as ([r2 k] & Hl & [= <-]).
    eapply (for_each_inv (λ s, 0 ≤ s.2)) in Hl; [done| |done].
    intros x [ra a] [rb b] Ha Hb. cbn [snd] in *. cbv zeta in Hb.
    apply res_bind_ok in Hb as ([c rc] & Hc & [= _ <-]). apply uint8_nonneg in Hc. lia. }
  destruct (action =? 0x14).
  { by apply res_bind_ok in H as ([[ok s] r1] & Hs & [= <- _ _]). }
  by injection H as <- _ _.
Qed.

(** X22.  The skip budget counts down and is never negative.  Each record
    advances the sprite index by one.  A record met while the budget is
    positive, of whatever kind, is not interpreted: the metadata stay as they
    are, the budget goes down by one, and of the parser state only the
    Action 6 flag is touched, which is cleared. *)
Theorem skip_budget (ls ls' : loop_state) :
  record_body ls = Ok ls' → 0 ≤ ls_skip_sprites ls →
  0 ≤ ls_skip_sprites ls'
  ∧ ls_sprite_index ls' = ls_sprite_index ls + 1
  ∧ (0 < ls_skip_sprites ls →
     ls_self ls' = ls_self ls
     ∧ ls_skip_sprites ls' = ls_skip_sprites ls - 1
     ∧ ls_state ls' = mkParserState false (actionb_string (ls_state ls))).
Proof.
  destruct ls as [self state reader size skip idx]. unfold record_body. intros H Hk.
  cbn [ls_skip_sprites] in Hk.
  apply res_bind_ok in H as ([info r] & _ & H).
  apply res_bind_ok in H as ([[[self1 state1] r1] skip1] & Hb & H).
  apply res_bind_ok in H as ([size' r2] & _ & [= <-]).
  cbn [ls_skip_sprites ls_sprite_index ls_self ls_state].
  destruct (info =? 0xFF).
  - destruct (Z.ltb_spec 0 skip) as [Hpos|Hz].
    + injection Hb as <- <- _ <-. split; [lia|]. split; [done|]. done.
    + destruct (R.read r size) as [pseudo rp]. split; [|split; [done|intros; lia]].
      destruct (negb (idx =? 0)).
      * apply res_bind_ok in Hb as ([[sk s] st] & Hp & [= _ _ _ <-]).
        by apply read_pseudo_skip_nonneg in Hp.
      * by injection Hb as _ _ _ <-.
  - assert (self1 = self ∧ state1 = mkParserState false (actionb_string state)
            ∧ skip1 = (if 0 <? skip then skip - 1 else skip)) as (-> & -> & ->).
    { destruct (bool_decide (container_version self = Some 2) && (info =? 0xFD)).
      { by injection Hb as <- <- _ <-. }
      destruct (bool_decide (container_version self = Some 1) && (8 <=? size)); [|done].
      destruct (negb (Z.land info 0x02 =? 0)); [by injection Hb as <- <- _ <-|].
      by apply res_bind_ok in Hb as (rw & _ & [= <- <- _ <-]). }
    destruct (Z.ltb_spec 0 skip); (split; [lia|]); (split; [done|]); [done|intros; lia].
Qed.

Lemma skip_budget_witness :
  let ls := mkLoop (set_container_version (Some 1) new_NewGRF) (mkParserState true None)
              (R.mk [xff; x08; x00; x00] None) 1 2 3 in
  ∃ ls', record_body ls = Ok ls'
    ∧ 0 ≤ ls_skip_sprites ls'
    ∧ ls_sprite_index ls' = ls_sprite_index ls + 1
    ∧ (0 < ls_skip_sprites ls →
       ls_self ls' = ls_self ls
       ∧ ls_skip_sprites ls' = ls_skip_sprites ls - 1
       ∧ ls_state ls' = mkParserState false (actionb_string (ls_state ls))).
Proof.
  intros ls. eexists. split; [vm_compute; reflexivity|].
  apply (skip_budget ls); [vm_compute; reflexivity|]. cbn. lia.
Defined.
